(** * Hitung_Konektor_Modular: storage transport, frame lifecycle, file manager

    A shallow embedding of the firmware in [sd_functions.h],
    [camera_functions.h] and [web_handlers.h].

    The firmware talks to hardware (SD card in MMC or SPI mode, camera
    driver, millisecond clock) and to the HTTP collaborator.  Every such
    interaction is an oracle query: the answer is read from a script
    indexed by the number of queries made so far, and the interaction is
    appended to a chronological trace.  Diagnostic output on the serial
    console, and the card-size queries made only to print it, have no
    effect on the firmware's state and are left out. *)

From Stdlib Require Import ZArith List Bool Lia String Ascii Decimal
  DecimalString DecimalN.
From Stdlib.Strings Require Import Byte.
Import ListNotations.
Open Scope string_scope.
Open Scope Z_scope.

(** ** Machine integers *)

(** [unsigned long] and [size_t] are 32 bits wide on the ESP32-S3. *)
Definition wrap32 (z : Z) : Z := z mod 2 ^ 32.

(** [uint8_t], the type of [cardType]. *)
Definition wrap8 (z : Z) : Z := z mod 2 ^ 8.

(** ** Arduino [String] operations used by the firmware *)

Definition startsWith (s p : string) : bool := String.prefix p s.

Fixpoint endsWith (s suf : string) : bool :=
  if String.eqb s suf then true
  else match s with
       | EmptyString => false
       | String _ s' => endsWith s' suf
       end.

Definition isEmpty (s : string) : bool :=
  match s with EmptyString => true | _ => false end.

(** [indexOf c s] is the position of the first [c] in [s], or -1. *)
Fixpoint indexOf_from (c : ascii) (s : string) (i : Z) : Z :=
  match s with
  | EmptyString => -1
  | String a s' => if Ascii.eqb a c then i else indexOf_from c s' (i + 1)
  end.

Definition indexOf (c : ascii) (s : string) : Z := indexOf_from c s 0.

(** [lastIndexOf c s] is the position of the last [c] in [s], or -1. *)
Fixpoint lastIndexOf_from (c : ascii) (s : string) (i acc : Z) : Z :=
  match s with
  | EmptyString => acc
  | String a s' =>
      lastIndexOf_from c s' (i + 1) (if Ascii.eqb a c then i else acc)
  end.

Definition lastIndexOf (c : ascii) (s : string) : Z :=
  lastIndexOf_from c s 0 (-1).

(** [substring_from n s] is [s.substring(n)]: the suffix from index [n]. *)
Fixpoint drop (n : nat) (s : string) : string :=
  match n, s with
  | O, _ => s
  | S k, EmptyString => EmptyString
  | S k, String _ s' => drop k s'
  end.

Definition substring_from (n : Z) (s : string) : string :=
  drop (Z.to_nat n) s.

(** [substring_to n s] is [s.substring(0, n)]. *)
Fixpoint take (n : nat) (s : string) : string :=
  match n, s with
  | O, _ => EmptyString
  | S k, EmptyString => EmptyString
  | S k, String a s' => String a (take k s')
  end.

Definition substring_to (n : Z) (s : string) : string :=
  take (Z.to_nat n) s.

Definition lower_ascii (a : ascii) : ascii :=
  let n := nat_of_ascii a in
  if (65 <=? n)%nat && (n <=? 90)%nat then ascii_of_nat (n + 32) else a.

Fixpoint toLowerCase (s : string) : string :=
  match s with
  | EmptyString => EmptyString
  | String a s' => String (lower_ascii a) (toLowerCase s')
  end.

(** [String(n)] for an unsigned integer: its decimal digits. *)
Definition String_of_Z (n : Z) : string :=
  NilEmpty.string_of_uint (N.to_uint (Z.to_N n)).

Definition String_of_bool_json (b : bool) : string :=
  if b then "true" else "false".

Definition is_digit (a : ascii) : bool :=
  let n := nat_of_ascii a in (48 <=? n)%nat && (n <=? 57)%nat.

Fixpoint all_digits (s : string) : bool :=
  match s with
  | EmptyString => true
  | String a s' => is_digit a && all_digits s'
  end.

Fixpoint count_char (c : ascii) (s : string) : nat :=
  match s with
  | EmptyString => O
  | String a s' => ((if Ascii.eqb a c then 1 else 0) + count_char c s')%nat
  end.

(** The double-quote character, used to build JSON text. *)
Definition dq : string := String (ascii_of_nat 34) EmptyString.

(** ** Data model *)

(** The two access modes of the storage card; the firmware keeps the
    active one in the boolean [usingSPIMode]. *)
Inductive Mode := MMC | SPI.

Definition CARD_NONE : Z := 0.

(** One directory entry as [openNextFile] yields it. *)
Record Entry := mkEntry {
  e_name : string;
  e_isDirectory : bool;
  e_size : Z
}.

(** An open [File] handle.  A [File] converts to [false] when the open
    failed or after [close]; that is [None]. *)
Record Handle := mkHandle {
  h_name : string;
  h_isDirectory : bool;
  h_size : Z;
  h_entries : list Entry
}.

Definition File := option Handle.

Definition file_ok (f : File) : bool :=
  match f with Some _ => true | None => false end.

Definition isDirectory (f : File) : bool :=
  match f with Some h => h_isDirectory h | None => false end.

Definition file_size (f : File) : Z :=
  match f with Some h => h_size h | None => 0 end.

(** [camera_fb_t]: [fb_ptr] is the address of the frame structure. *)
Record camera_fb_t := mkFb {
  fb_ptr : N;
  buf : list byte;
  len : Z;
  width : Z;
  height : Z;
  format : Z
}.

Definition PIXFORMAT_JPEG : Z := 4.

(** Upload phases delivered by the HTTP collaborator. *)
Inductive UploadStatus :=
  UPLOAD_FILE_START | UPLOAD_FILE_WRITE | UPLOAD_FILE_END | UPLOAD_FILE_ABORTED.

Record HTTPUpload := mkUpload {
  status : UploadStatus;
  filename : string;
  totalSize : Z;
  currentSize : Z;
  upload_buf : list byte
}.

(** Interactions with hardware and with the HTTP collaborator. *)
Inductive Event :=
| EvMillis (t : Z)
| EvDelay (ms : Z)
| EvSetPins (ok : bool)
| EvSpiBegin
| EvBegin (m : Mode) (ok : bool)
| EvCardType (m : Mode) (ct : Z)
| EvVerifyRoot (m : Mode) (r : File)
| EvProbe (m : Mode) (r : File)
| EvEnd (m : Mode)
| EvOpen (m : Mode) (path : string) (for_write : bool) (r : File)
| EvClose
| EvFlush
| EvFileWrite (data : list byte) (requested written : Z)
| EvRemove (m : Mode) (path : string) (ok : bool)
| EvMkdir (m : Mode) (path : string) (ok : bool)
| EvFbGet (r : option camera_fb_t)
| EvFbRead (ptr : N)
| EvFbReturn (ptr : N)
| EvConnected (b : bool)
| EvClientPrint (s : string)
| EvClientWrite (data : list byte)
| EvSendHeader (name value : string)
| EvSend (code : Z) (content_type body : string)
| EvStreamFile (h : Handle) (content_type : string).

(** The script of answers; the [nat] is the number of queries so far. *)
Record Hw := mkHw {
  hw_millis : nat -> Z;
  hw_setPins : nat -> bool;
  hw_begin : Mode -> nat -> bool;
  hw_cardType : Mode -> nat -> Z;
  hw_open : Mode -> string -> bool -> nat -> File;
  hw_write : nat -> Z -> Z;
  hw_remove : Mode -> string -> nat -> bool;
  hw_mkdir : Mode -> string -> nat -> bool;
  hw_fb_get : nat -> option camera_fb_t;
  hw_connected : nat -> bool
}.

(** The firmware's globals and function-local statics, with the query
    counter and the trace. *)
Record World := mkWorld {
  sdCardInitialized : bool;
  usingSPIMode : bool;
  lastSDCheckTime : Z;
  uploadFile : File;
  uploadPath : string;
  uploadError : bool;
  lastProgress : Z;
  tick : nat;
  trace : list Event
}.

Definition SD_CHECK_INTERVAL : Z := 5000.

Definition boot : World :=
  mkWorld false false 0 None "" false 0 0 [].

Definition activeMode (w : World) : Mode :=
  if usingSPIMode w then SPI else MMC.

Definition with_sdCardInitialized (b : bool) (w : World) : World :=
  mkWorld b (usingSPIMode w) (lastSDCheckTime w) (uploadFile w)
    (uploadPath w) (uploadError w) (lastProgress w) (tick w) (trace w).

Definition with_usingSPIMode (b : bool) (w : World) : World :=
  mkWorld (sdCardInitialized w) b (lastSDCheckTime w) (uploadFile w)
    (uploadPath w) (uploadError w) (lastProgress w) (tick w) (trace w).

Definition with_lastSDCheckTime (t : Z) (w : World) : World :=
  mkWorld (sdCardInitialized w) (usingSPIMode w) t (uploadFile w)
    (uploadPath w) (uploadError w) (lastProgress w) (tick w) (trace w).

Definition with_uploadFile (f : File) (w : World) : World :=
  mkWorld (sdCardInitialized w) (usingSPIMode w) (lastSDCheckTime w) f
    (uploadPath w) (uploadError w) (lastProgress w) (tick w) (trace w).

Definition with_uploadPath (p : string) (w : World) : World :=
  mkWorld (sdCardInitialized w) (usingSPIMode w) (lastSDCheckTime w)
    (uploadFile w) p (uploadError w) (lastProgress w) (tick w) (trace w).

Definition with_uploadError (b : bool) (w : World) : World :=
  mkWorld (sdCardInitialized w) (usingSPIMode w) (lastSDCheckTime w)
    (uploadFile w) (uploadPath w) b (lastProgress w) (tick w) (trace w).

(** [lastProgress], the static of the upload handler's write phase. *)
Definition with_lastProgress (t : Z) (w : World) : World :=
  mkWorld (sdCardInitialized w) (usingSPIMode w) (lastSDCheckTime w)
    (uploadFile w) (uploadPath w) (uploadError w) t (tick w) (trace w).

Definition log (e : Event) (w : World) : World :=
  mkWorld (sdCardInitialized w) (usingSPIMode w) (lastSDCheckTime w)
    (uploadFile w) (uploadPath w) (uploadError w) (lastProgress w) (tick w)
    (trace w ++ [e]).

Definition query (e : Event) (w : World) : World :=
  mkWorld (sdCardInitialized w) (usingSPIMode w) (lastSDCheckTime w)
    (uploadFile w) (uploadPath w) (uploadError w) (lastProgress w)
    (S (tick w)) (trace w ++ [e]).

(** ** The firmware monad: state passing, [None] when the recursion
    budget of the mutually recursive transport functions runs out. *)

Definition M (A : Type) : Type := World -> option (A * World).

Definition ret {A} (a : A) : M A := fun w => Some (a, w).

Definition bind {A B} (c : M A) (k : A -> M B) : M B :=
  fun w => match c w with
           | Some (a, w') => k a w'
           | None => None
           end.

Notation "x <- c ;; k" := (bind c (fun x => k))
  (at level 61, c at next level, right associativity).
Notation "c ;; k" := (bind c (fun _ => k))
  (at level 61, right associativity).

Definition get {A} (f : World -> A) : M A := fun w => Some (f w, w).
Definition modify (f : World -> World) : M unit := fun w => Some (tt, f w).
Definition emit (e : Event) : M unit := modify (log e).

(** Ask the oracle and record the answer. *)
Definition ask {A} (f : nat -> A) (ev : A -> Event) : M A :=
  fun w => let a := f (tick w) in Some (a, query (ev a) w).

Definition when (b : bool) (c : M unit) : M unit :=
  if b then c else ret tt.

Definition cr_lf : string :=
  String (ascii_of_nat 13) (String (ascii_of_nat 10) EmptyString).

(** What the HTTP collaborator hands to a handler: the request arguments
    ([server.hasArg] / [server.arg]). *)
Record Request := mkRequest {
  arg_path : option string;
  arg_name : option string;
  arg_file : option string
}.

Definition hasArg (a : option string) : bool :=
  match a with Some _ => true | None => false end.

Definition arg (a : option string) : string :=
  match a with Some s => s | None => "" end.

Inductive LoopCtl := Continue | Break.

Section Firmware.

Variable hw : Hw.

Definition millis : M Z := ask (fun n => wrap32 (hw_millis hw n)) EvMillis.

Definition delay (ms : Z) : M unit := emit (EvDelay ms).

Definition sd_end : M unit :=
  spi <- get usingSPIMode ;;
  if spi then emit (EvEnd SPI) else emit (EvEnd MMC).

(** [SD.open(path, mode)] / [SD_MMC.open(path, mode)] on the active mode. *)
Definition sd_open (path : string) (for_write : bool) : M File :=
  spi <- get usingSPIMode ;;
  if spi then ask (hw_open hw SPI path for_write) (EvOpen SPI path for_write)
  else ask (hw_open hw MMC path for_write) (EvOpen MMC path for_write).

Definition send (code : Z) (content_type body : string) : M unit :=
  emit (EvSend code content_type body).

(** *** sd_functions.h *)

(** [forceReinitializeSDCard], with the function it calls last abstracted. *)
Definition forceReinitializeSDCard_with (initializeSDCard : M bool) : M bool :=
  modify (with_sdCardInitialized false) ;;
  sd_end ;;
  delay 500 ;;
  initializeSDCard.

(** [checkSDCardStatus], with [forceReinitializeSDCard] abstracted. *)
Definition checkSDCardStatus_with (forceReinitializeSDCard : M bool) : M bool :=
  initialized <- get sdCardInitialized ;;
  if negb initialized then ret false
  else
    now <- millis ;;
    last <- get lastSDCheckTime ;;
    if SD_CHECK_INTERVAL <? wrap32 (now - last) then
      t <- millis ;;
      modify (with_lastSDCheckTime t) ;;
      spi <- get usingSPIMode ;;
      testFile <- (if spi then ask (hw_open hw SPI "/" false) (EvProbe SPI)
                   else ask (hw_open hw MMC "/" false) (EvProbe MMC)) ;;
      let isAccessible := file_ok testFile && isDirectory testFile in
      when (file_ok testFile) (emit EvClose) ;;
      if negb isAccessible then forceReinitializeSDCard else ret true
    else ret true.

(** One pass of the first [while] loop of [initializeSDCard]; [true]
    means the function returned [true] from inside the loop. *)
Definition mmcAttempt : M bool :=
  pins <- ask (hw_setPins hw) EvSetPins ;;
  if pins then
    began <- ask (hw_begin hw MMC) (EvBegin MMC) ;;
    if began then
      delay 100 ;;
      cardType <- ask (fun n => wrap8 (hw_cardType hw MMC n))
                      (EvCardType MMC) ;;
      if negb (cardType =? CARD_NONE) then
        root <- ask (hw_open hw MMC "/" false) (EvVerifyRoot MMC) ;;
        if file_ok root && isDirectory root then
          emit EvClose ;;
          modify (with_sdCardInitialized true) ;;
          modify (with_usingSPIMode false) ;;
          t <- millis ;;
          modify (with_lastSDCheckTime t) ;;
          ret true
        else
          when (file_ok root) (emit EvClose) ;;
          emit (EvEnd MMC) ;;
          ret false
      else
        emit (EvEnd MMC) ;;
        ret false
    else ret false
  else ret false.

(** One pass of the second [while] loop. *)
Definition spiAttempt : M bool :=
  emit EvSpiBegin ;;
  began <- ask (hw_begin hw SPI) (EvBegin SPI) ;;
  if began then
    delay 100 ;;
    cardType <- ask (fun n => wrap8 (hw_cardType hw SPI n)) (EvCardType SPI) ;;
    if negb (cardType =? CARD_NONE) then
      root <- ask (hw_open hw SPI "/" false) (EvVerifyRoot SPI) ;;
      if file_ok root && isDirectory root then
        emit EvClose ;;
        modify (with_sdCardInitialized true) ;;
        modify (with_usingSPIMode true) ;;
        t <- millis ;;
        modify (with_lastSDCheckTime t) ;;
        ret true
      else
        when (file_ok root) (emit EvClose) ;;
        emit (EvEnd SPI) ;;
        ret false
    else
      emit (EvEnd SPI) ;;
      ret false
  else ret false.

(** [while (retryCount > 0) { attempt; retryCount--; if (retryCount > 0)
    delay(1000); }] *)
Fixpoint retryLoop (attempt : M bool) (retryCount : nat) : M bool :=
  match retryCount with
  | O => ret false
  | S k =>
      ok <- attempt ;;
      if ok then ret true
      else
        when (0 <? k)%nat (delay 1000) ;;
        retryLoop attempt k
  end.

(** [initializeSDCard], [checkSDCardStatus] and [forceReinitializeSDCard]
    call each other; [fuel] bounds the depth of that recursion. *)
Fixpoint initializeSDCard (fuel : nat) : M bool :=
  match fuel with
  | O => fun _ => None
  | S f =>
      initialized <- get sdCardInitialized ;;
      healthy <- (if initialized
                  then checkSDCardStatus_with
                         (forceReinitializeSDCard_with (initializeSDCard f))
                  else ret false) ;;
      if healthy then ret true
      else
        modify (with_sdCardInitialized false) ;;
        mmc <- retryLoop mmcAttempt 3 ;;
        if mmc then ret true
        else
          spi <- retryLoop spiAttempt 3 ;;
          if spi then ret true else ret false
  end.

Definition forceReinitializeSDCard (fuel : nat) : M bool :=
  forceReinitializeSDCard_with (initializeSDCard fuel).

Definition checkSDCardStatus (fuel : nat) : M bool :=
  checkSDCardStatus_with (forceReinitializeSDCard fuel).

Definition generateImageFileName (prefix : string) : M string :=
  timestamp <- millis ;;
  ret (prefix ++ "_" ++ String_of_Z timestamp ++ ".jpg").

Definition saveImageToSD (fuel : nat) (buffer : list byte) (length : Z)
    (filepath : string) : M bool :=
  ok <- initializeSDCard fuel ;;
  if negb ok then ret false
  else
    file <- sd_open filepath true ;;
    if negb (file_ok file) then ret false
    else
      written <- ask (fun n => wrap32 (hw_write hw n length))
                     (EvFileWrite (firstn (Z.to_nat length) buffer) length) ;;
      emit EvClose ;;
      if written =? length then ret true else ret false.

(** *** camera_functions.h *)

(** The [for] loop of [handleCameraStream]; [fbBuf] is what the advancing
    pointer still has in front of it, [n] wraps as a [size_t]. *)
Fixpoint sendChunks (fuel : nat) (fbBuf : list byte) (n fbLen : Z) : M unit :=
  match fuel with
  | O => fun _ => None
  | S f =>
      if n <? fbLen then
        if wrap32 (n + 1024) <? fbLen then
          emit (EvClientWrite (firstn 1024 fbBuf)) ;;
          sendChunks f (skipn 1024 fbBuf) (wrap32 (n + 1024)) fbLen
        else if 0 <? fbLen mod 1024 then
          let remainder := fbLen mod 1024 in
          emit (EvClientWrite (firstn (Z.to_nat remainder) fbBuf)) ;;
          sendChunks f fbBuf (wrap32 (n + 1024)) fbLen
        else sendChunks f fbBuf (wrap32 (n + 1024)) fbLen
      else ret tt
  end.

(** The body of the [while (client.connected())] loop. *)
Definition streamBody (fuel : nat) : M LoopCtl :=
  fb <- ask (hw_fb_get hw) EvFbGet ;;
  match fb with
  | None =>
      delay 1000 ;;
      ret Continue
  | Some f =>
      emit (EvFbRead (fb_ptr f)) ;;
      (if 0 <? len f then
         emit (EvClientPrint ("--frame" ++ cr_lf)) ;;
         emit (EvClientPrint ("Content-Type: image/jpeg" ++ cr_lf
                 ++ "Content-Length: " ++ String_of_Z (len f)
                 ++ cr_lf ++ cr_lf)) ;;
         sendChunks fuel (buf f) 0 (len f) ;;
         emit (EvClientPrint cr_lf)
       else ret tt) ;;
      emit (EvFbReturn (fb_ptr f)) ;;
      connected <- ask (hw_connected hw) EvConnected ;;
      if negb connected then ret Break
      else
        delay 50 ;;
        ret Continue
  end.

(** At most [iterations] passes of the loop; the result says whether the
    loop was left ([true]) or is still running ([false]). *)
Fixpoint streamLoop (iterations fuel : nat) : M bool :=
  match iterations with
  | O => ret false
  | S k =>
      connected <- ask (hw_connected hw) EvConnected ;;
      if negb connected then ret true
      else
        ctl <- streamBody fuel ;;
        match ctl with
        | Break => ret true
        | Continue => streamLoop k fuel
        end
  end.

Definition handleCameraStream (iterations fuel : nat) : M bool :=
  emit (EvClientPrint ("HTTP/1.1 200 OK" ++ cr_lf
          ++ "Content-Type: multipart/x-mixed-replace; boundary=frame"
          ++ cr_lf ++ cr_lf)) ;;
  streamLoop iterations fuel.

End Firmware.

(** *** web_handlers.h *)

Section WebHandlers.

Variable hw : Hw.

Definition addCORSHeaders : M unit :=
  emit (EvSendHeader "Access-Control-Allow-Origin" "*") ;;
  emit (EvSendHeader "Access-Control-Allow-Methods" "GET, POST, OPTIONS") ;;
  emit (EvSendHeader "Access-Control-Allow-Headers" "Content-Type").

(** The guard [!initializeSDCard() || !checkSDCardStatus()], evaluated
    left to right with short circuit. *)
Definition sdNotAvailable (fuel : nat) : M bool :=
  ok <- initializeSDCard hw fuel ;;
  if negb ok then ret true
  else
    ok' <- checkSDCardStatus hw fuel ;;
    ret (negb ok').

Definition json_error (msg : string) : string :=
  "{" ++ dq ++ "success" ++ dq ++ ":false," ++ dq ++ "error" ++ dq ++ ":"
      ++ dq ++ msg ++ dq ++ "}".

Definition json_message (msg : string) : string :=
  "{" ++ dq ++ "success" ++ dq ++ ":true," ++ dq ++ "message" ++ dq ++ ":"
      ++ dq ++ msg ++ dq ++ "}".

Definition handleCapture (fuel : nat) : M unit :=
  addCORSHeaders ;;
  fb <- ask (hw_fb_get hw) EvFbGet ;;
  match fb with
  | None => send 500 "application/json" (json_error "Camera capture failed")
  | Some f =>
      unavailable <- sdNotAvailable fuel ;;
      proceed <- (if unavailable then
                    emit (EvFbReturn (fb_ptr f)) ;;
                    ok <- forceReinitializeSDCard hw fuel ;;
                    if negb ok then
                      send 500 "application/json"
                        (json_error "SD Card not available for saving image") ;;
                      ret false
                    else ret true
                  else ret true) ;;
      if negb proceed then ret tt
      else
        filename <- generateImageFileName hw "CAPTURE" ;;
        let filepath := "/" ++ filename in
        emit (EvFbRead (fb_ptr f)) ;;
        saved <- saveImageToSD hw fuel (buf f) (len f) filepath ;;
        emit (EvFbReturn (fb_ptr f)) ;;
        if saved then
          send 200 "application/json"
            ("{" ++ dq ++ "success" ++ dq ++ ":true," ++ dq ++ "filename" ++ dq
               ++ ":" ++ dq ++ filename ++ dq ++ "," ++ dq ++ "path" ++ dq
               ++ ":" ++ dq ++ filepath ++ dq ++ "}")
        else
          send 500 "application/json"
            (json_error "Failed to save image to SD card")
  end.

(** Path normalisation shared by the list and create-folder handlers. *)
Definition normalizePath (path : string) : string :=
  let path := if isEmpty path || String.eqb path "" then "/" else path in
  if negb (startsWith path "/") then "/" ++ path else path.

(** [while (retries > 0 && !root)] of [handleFileList]. *)
Fixpoint openDirRetry (fuel : nat) (path : string) (retries : nat) : M File :=
  match retries with
  | O => ret None
  | S k =>
      root <- sd_open hw path false ;;
      if file_ok root then ret root
      else
        when (0 <? k)%nat
          (delay 100 ;;
           _ <- forceReinitializeSDCard hw fuel ;;
           ret tt) ;;
        openDirRetry fuel path k
  end.

(** The state carried by the enumeration loop: [json], [first],
    [fileCount]. *)
Record ListState := mkListState {
  ls_json : string;
  ls_first : bool;
  ls_fileCount : Z
}.

Definition bareName (fileName : string) : string :=
  let lastSlash := lastIndexOf "/" fileName in
  if 0 <=? lastSlash then substring_from (lastSlash + 1) fileName
  else fileName.

Definition entryJson (fileName : string) (file : Entry) : string :=
  "{" ++ dq ++ "name" ++ dq ++ ":" ++ dq ++ fileName ++ dq ++ ","
    ++ dq ++ "isDir" ++ dq ++ ":" ++ String_of_bool_json (e_isDirectory file)
    ++ "," ++ dq ++ "size" ++ dq ++ ":" ++ String_of_Z (e_size file) ++ "}".

(** One pass of [while (file)]. *)
Definition listStep (st : ListState) (file : Entry) : ListState :=
  let json := if negb (ls_first st) then ls_json st ++ "," else ls_json st in
  let first := false in
  let fileCount := ls_fileCount st in
  let fileName := bareName (e_name file) in
  if negb (startsWith fileName ".") then
    mkListState (json ++ entryJson fileName file) first (fileCount + 1)
  else if negb first then
    mkListState (substring_to (Z.of_nat (String.length json) - 1) json)
                (fileCount =? 0) fileCount
  else mkListState json first fileCount.

Definition listHeader (path : string) : string :=
  "{" ++ dq ++ "success" ++ dq ++ ":true," ++ dq ++ "path" ++ dq ++ ":"
      ++ dq ++ path ++ dq ++ "," ++ dq ++ "files" ++ dq ++ ":[".

Definition listFooter (fileCount : Z) : string :=
  "]," ++ dq ++ "count" ++ dq ++ ":" ++ String_of_Z fileCount ++ "}".

(** Lines 240-282: the response body for an opened directory. *)
Definition listJson (path : string) (entries : list Entry) : string * Z :=
  let st := fold_left listStep entries (mkListState (listHeader path) true 0) in
  (ls_json st ++ listFooter (ls_fileCount st), ls_fileCount st).

Definition handleFileList (fuel : nat) (req : Request) : M unit :=
  addCORSHeaders ;;
  let path := if hasArg (arg_path req) then arg (arg_path req) else "/" in
  let path := normalizePath path in
  unavailable <- sdNotAvailable fuel ;;
  proceed <- (if unavailable then
                ok <- forceReinitializeSDCard hw fuel ;;
                if negb ok then
                  send 500 "application/json"
                    (json_error
                       "SD Card not available - please check SD card connection") ;;
                  ret false
                else ret true
              else ret true) ;;
  if negb proceed then ret tt
  else
    root <- openDirRetry fuel path 3 ;;
    match root with
    | None =>
        send 404 "application/json"
          (json_error "Directory not found or SD card error")
    | Some h =>
        if negb (h_isDirectory h) then
          emit EvClose ;;
          send 404 "application/json" (json_error "Path is not a directory")
        else
          let json := fst (listJson path (h_entries h)) in
          emit EvClose ;;
          send 200 "application/json" json
    end.

Definition contentTypeOf (filepath : string) : string :=
  let lowerPath := toLowerCase filepath in
  if endsWith lowerPath ".jpg" || endsWith lowerPath ".jpeg" then "image/jpeg"
  else if endsWith lowerPath ".png" then "image/png"
  else if endsWith lowerPath ".gif" then "image/gif"
  else if endsWith lowerPath ".txt" then "text/plain"
  else if endsWith lowerPath ".html" || endsWith lowerPath ".htm"
       then "text/html"
  else if endsWith lowerPath ".css" then "text/css"
  else if endsWith lowerPath ".js" then "application/javascript"
  else if endsWith lowerPath ".json" then "application/json"
  else "application/octet-stream".

(** Lines 301-305: the download handler's path normalisation. *)
Definition normalizeFilePath (filepath : string) : string :=
  if negb (startsWith filepath "/") then "/" ++ filepath else filepath.

Definition handleFileDownload (fuel : nat) (req : Request) : M unit :=
  addCORSHeaders ;;
  if negb (hasArg (arg_file req)) then
    send 400 "text/plain" "Missing file parameter"
  else
    let filepath := arg (arg_file req) in
    let filepath := normalizeFilePath filepath in
    ok <- initializeSDCard hw fuel ;;
    if negb ok then send 500 "text/plain" "SD Card not available"
    else
      file <- sd_open hw filepath false ;;
      match file with
      | None => send 404 "text/plain" "File not found"
      | Some h =>
          if h_isDirectory h then
            emit EvClose ;;
            send 400 "text/plain" "Cannot download directory"
          else
            let contentType := contentTypeOf filepath in
            let filename := bareName filepath in
            emit (EvSendHeader "Content-Disposition"
                    ("attachment; filename=" ++ dq ++ filename ++ dq)) ;;
            emit (EvStreamFile h contentType) ;;
            emit EvClose
      end.

Definition sd_mkdir (path : string) : M bool :=
  spi <- get usingSPIMode ;;
  if spi then ask (hw_mkdir hw SPI path) (EvMkdir SPI path)
  else ask (hw_mkdir hw MMC path) (EvMkdir MMC path).

Definition sd_remove (path : string) : M bool :=
  spi <- get usingSPIMode ;;
  if spi then ask (hw_remove hw SPI path) (EvRemove SPI path)
  else ask (hw_remove hw MMC path) (EvRemove MMC path).

Definition backslash : ascii := ascii_of_nat 92.

Definition joinPath (basePath folderName : string) : string :=
  let fullPath := basePath in
  let fullPath := if negb (endsWith fullPath "/") then fullPath ++ "/"
                  else fullPath in
  fullPath ++ folderName.

Definition handleCreateFolder (fuel : nat) (req : Request) : M unit :=
  addCORSHeaders ;;
  if negb (hasArg (arg_path req)) || negb (hasArg (arg_name req)) then
    send 400 "application/json" (json_error "Missing parameters")
  else
    let basePath := arg (arg_path req) in
    let folderName := arg (arg_name req) in
    if (0 <=? indexOf "/" folderName) || (0 <=? indexOf backslash folderName)
       || (Z.of_nat (String.length folderName) =? 0) then
      send 400 "application/json" (json_error "Invalid folder name")
    else
      let basePath := normalizePath basePath in
      unavailable <- sdNotAvailable fuel ;;
      proceed <- (if unavailable then
                    ok <- forceReinitializeSDCard hw fuel ;;
                    if negb ok then
                      send 500 "application/json"
                        (json_error "SD Card not available") ;;
                      ret false
                    else ret true
                  else ret true) ;;
      if negb proceed then ret tt
      else
        let fullPath := joinPath basePath folderName in
        success <- sd_mkdir fullPath ;;
        if success then
          send 200 "application/json"
            ("{" ++ dq ++ "success" ++ dq ++ ":true," ++ dq ++ "path" ++ dq
               ++ ":" ++ dq ++ fullPath ++ dq ++ "}")
        else
          send 500 "application/json" (json_error "Failed to create folder").

(** [while (retries > 0 && !uploadFile)] of the start phase. *)
Fixpoint uploadOpenRetry (fuel : nat) (retries : nat) : M unit :=
  match retries with
  | O => ret tt
  | S k =>
      current <- get uploadFile ;;
      if file_ok current then ret tt
      else
        path <- get uploadPath ;;
        f <- sd_open hw path true ;;
        modify (with_uploadFile f) ;;
        if negb (file_ok f) then
          (if (0 <? k)%nat then
             delay 100 ;;
             ok <- checkSDCardStatus hw fuel ;;
             if negb ok then
               _ <- forceReinitializeSDCard hw fuel ;;
               ret tt
             else ret tt
           else modify (with_uploadError true)) ;;
          uploadOpenRetry fuel k
        else ret tt
  end.

Definition cleanFilename (filename : string) : string :=
  let lastSlash := lastIndexOf "/" filename in
  let lastBackslash := lastIndexOf backslash filename in
  let lastSeparator := Z.max lastSlash lastBackslash in
  if 0 <=? lastSeparator then substring_from (lastSeparator + 1) filename
  else filename.

(** [handleFileUpload].  After a complete write the handler reads the
    clock, and reads it again to stamp [lastProgress] when more than a
    second has passed; the progress line itself is diagnostic output. *)
Definition handleFileUpload (fuel : nat) (req : Request) (upload : HTTPUpload)
    : M unit :=
  match status upload with
  | UPLOAD_FILE_START =>
      addCORSHeaders ;;
      modify (with_uploadError false) ;;
      unavailable <- sdNotAvailable fuel ;;
      proceed <- (if unavailable then
                    ok <- forceReinitializeSDCard hw fuel ;;
                    if negb ok then
                      modify (with_uploadError true) ;;
                      ret false
                    else ret true
                  else ret true) ;;
      if negb proceed then ret tt
      else
        let filename := cleanFilename (filename upload) in
        let currentDir :=
          if hasArg (arg_path req) then arg (arg_path req) else "/" in
        let currentDir :=
          if negb (String.eqb currentDir "/") && negb (endsWith currentDir "/")
          then currentDir ++ "/" else currentDir in
        modify (with_uploadPath (currentDir ++ filename)) ;;
        uploadOpenRetry fuel 3
  | UPLOAD_FILE_WRITE =>
      f <- get uploadFile ;;
      err <- get uploadError ;;
      if file_ok f && negb err then
        written <- ask (fun n => wrap32 (hw_write hw n (currentSize upload)))
                       (EvFileWrite
                          (firstn (Z.to_nat (currentSize upload))
                                  (upload_buf upload))
                          (currentSize upload)) ;;
        if negb (written =? currentSize upload)
        then modify (with_uploadError true)
        else
          now <- millis hw ;;
          last <- get lastProgress ;;
          if 1000 <? wrap32 (now - last) then
            t <- millis hw ;;
            modify (with_lastProgress t)
          else ret tt
      else ret tt
  | UPLOAD_FILE_END =>
      f <- get uploadFile ;;
      if file_ok f then
        emit EvFlush ;;
        emit EvClose ;;
        modify (with_uploadFile None) ;;
        err <- get uploadError ;;
        if negb err then
          path <- get uploadPath ;;
          verifyFile <- sd_open hw path false ;;
          (if file_ok verifyFile && (file_size verifyFile =? totalSize upload)
           then ret tt
           else modify (with_uploadError true)) ;;
          when (file_ok verifyFile) (emit EvClose)
        else ret tt
      else modify (with_uploadError true)
  | UPLOAD_FILE_ABORTED =>
      f <- get uploadFile ;;
      when (file_ok f) (emit EvClose ;; modify (with_uploadFile None)) ;;
      modify (with_uploadError true)
  end.

Definition handleFileUploadResponse (fuel : nat) : M unit :=
  addCORSHeaders ;;
  unavailable <- sdNotAvailable fuel ;;
  if unavailable then
    send 500 "application/json" (json_error "SD Card not available")
  else
    send 200 "application/json" (json_message "File uploaded successfully").

Definition handleFileDelete (fuel : nat) (req : Request) : M unit :=
  addCORSHeaders ;;
  if negb (hasArg (arg_file req)) then
    send 400 "application/json" (json_error "Missing file parameter")
  else
    let filepath := arg (arg_file req) in
    ok <- initializeSDCard hw fuel ;;
    if negb ok then
      send 500 "application/json" (json_error "SD Card not available")
    else
      success <- sd_remove filepath ;;
      if success then
        send 200 "application/json" (json_message "File deleted successfully")
      else
        send 500 "application/json" (json_error "Failed to delete file").

End WebHandlers.

(** * Specification vocabulary *)

Open Scope list_scope.

(** Events of a mount attempt: everything [initializeSDCard] does when
    it starts from the uninitialized state. *)
Definition mount_event (e : Event) : bool :=
  match e with
  | EvMillis _ | EvDelay _ | EvSetPins _ | EvSpiBegin | EvBegin _ _
  | EvCardType _ _ | EvVerifyRoot _ _ | EvEnd _ | EvClose => true
  | _ => false
  end.

Definition is_probe (e : Event) : bool :=
  match e with EvProbe _ _ => true | _ => false end.

(** Events of the transport layer: mount attempts and health probes. *)
Definition transport_event (e : Event) : bool := mount_event e || is_probe e.

Definition count_probes (evs : list Event) : nat :=
  List.length (filter is_probe evs).

(** [steps w w' evs]: [w'] follows [w] by the interactions [evs], and the
    upload session is untouched. *)
Definition steps (w w' : World) (evs : list Event) : Prop :=
  trace w' = trace w ++ evs /\
  uploadFile w' = uploadFile w /\
  uploadPath w' = uploadPath w /\
  uploadError w' = uploadError w.

(** How one mount attempt starts. *)
Definition attempt_start (m : Mode) : list Event :=
  match m with
  | MMC => [EvSetPins true]
  | SPI => [EvSpiBegin]
  end.

(** The interactions of one mount attempt in mode [m]; the outcome is
    [Some t] when the attempt succeeded and stamped time [t]. *)
Inductive attempt_trace : Mode -> option Z -> list Event -> Prop :=
| at_pins :
    attempt_trace MMC None [EvSetPins false]
| at_begin m :
    attempt_trace m None (attempt_start m ++ [EvBegin m false])
| at_nocard m :
    attempt_trace m None
      (attempt_start m ++
       [EvBegin m true; EvDelay 100; EvCardType m CARD_NONE; EvEnd m])
| at_noroot m ct :
    ct <> CARD_NONE ->
    attempt_trace m None
      (attempt_start m ++
       [EvBegin m true; EvDelay 100; EvCardType m ct; EvVerifyRoot m None;
        EvEnd m])
| at_notdir m ct h :
    ct <> CARD_NONE -> h_isDirectory h = false ->
    attempt_trace m None
      (attempt_start m ++
       [EvBegin m true; EvDelay 100; EvCardType m ct;
        EvVerifyRoot m (Some h); EvClose; EvEnd m])
| at_ok m ct h t :
    ct <> CARD_NONE -> h_isDirectory h = true ->
    attempt_trace m (Some t)
      (attempt_start m ++
       [EvBegin m true; EvDelay 100; EvCardType m ct;
        EvVerifyRoot m (Some h); EvClose; EvMillis t]).

(** The fixed pause between a failed attempt and the next one. *)
Definition backoff (left : nat) : list Event :=
  if (0 <? left)%nat then [EvDelay 1000] else [].

(** A retry loop in mode [m] entered with [retryCount] attempts left. *)
Inductive attempts (m : Mode) : nat -> option Z -> list Event -> Prop :=
| attempts_exhausted :
    attempts m 0 None []
| attempts_success n t evs :
    attempt_trace m (Some t) evs ->
    attempts m (S n) (Some t) evs
| attempts_retry n o evs rest :
    attempt_trace m None evs ->
    attempts m n o rest ->
    attempts m (S n) o (evs ++ backoff n ++ rest).

(** A whole initialization from the uninitialized state: which mode came
    up and when, or [None] when both modes ran out of attempts. *)
Inductive init_trace : option (Mode * Z) -> list Event -> Prop :=
| init_mmc t e :
    attempts MMC 3 (Some t) e ->
    init_trace (Some (MMC, t)) e
| init_spi t e1 e2 :
    attempts MMC 3 None e1 ->
    attempts SPI 3 (Some t) e2 ->
    init_trace (Some (SPI, t)) (e1 ++ e2)
| init_failed e1 e2 :
    attempts MMC 3 None e1 ->
    attempts SPI 3 None e2 ->
    init_trace None (e1 ++ e2).



Definition is_spi (m : Mode) : bool :=
  match m with SPI => true | MMC => false end.

Definition is_some {A} (o : option A) : bool :=
  match o with Some _ => true | None => false end.

Section TransportVocabulary.

Variable hw : Hw.

(** What a mount attempt, a retry loop or a whole initialization leaves
    in the transport state: on success the flag, the mode and the stamp;
    on failure nothing changes. *)
Definition mounted (w w' : World) (o : option (Mode * Z)) : Prop :=
  match o with
  | Some (m, t) => sdCardInitialized w' = true /\
                   usingSPIMode w' = is_spi m /\
                   lastSDCheckTime w' = t
  | None => sdCardInitialized w' = sdCardInitialized w /\
            usingSPIMode w' = usingSPIMode w /\
            lastSDCheckTime w' = lastSDCheckTime w
  end.

Definition tagged (m : Mode) (o : option Z) : option (Mode * Z) :=
  match o with Some t => Some (m, t) | None => None end.

Definition attempt_ok (m : Mode) (attempt : M bool) : Prop :=
  forall w, exists o w' evs,
    attempt w = Some (is_some o, w') /\
    steps w w' evs /\
    attempt_trace m o evs /\
    mounted w w' (tagged m o).

(** The state in which [forceReinitializeSDCard] calls
    [initializeSDCard]. *)
Definition torn_down (w : World) : World :=
  log (EvDelay 500)
    (log (EvEnd (activeMode w)) (with_sdCardInitialized false w)).

(** After a forced reinitialization the flag tells the result; on
    failure the mode and the stamp are the old ones. *)
Definition remounted (w w' : World) (o : option (Mode * Z)) : Prop :=
  match o with
  | Some (m, t) => sdCardInitialized w' = true /\
                   usingSPIMode w' = is_spi m /\
                   lastSDCheckTime w' = t
  | None => sdCardInitialized w' = false /\
            usingSPIMode w' = usingSPIMode w /\
            lastSDCheckTime w' = lastSDCheckTime w
  end.

Definition elapsed (w : World) : Z :=
  wrap32 (wrap32 (hw_millis hw (tick w)) - lastSDCheckTime w).

(** The state after the health check has read the clock twice, stamped
    the time and opened the root directory. *)
Definition probed (w : World) : World :=
  let now := wrap32 (hw_millis hw (tick w)) in
  let t := wrap32 (hw_millis hw (S (tick w))) in
  let r := hw_open hw (activeMode w) "/" false (S (S (tick w))) in
  let w2 := query (EvProbe (activeMode w) r)
              (with_lastSDCheckTime t
                 (query (EvMillis t) (query (EvMillis now) w))) in
  if file_ok r then log EvClose w2 else w2.

Definition probe_result (w : World) : File :=
  hw_open hw (activeMode w) "/" false (S (S (tick w))).

(** The part of [initializeSDCard] after the early exit. *)
Definition mountBothModes : M bool :=
  modify (with_sdCardInitialized false) ;;
  mmc <- retryLoop (mmcAttempt hw) 3 ;;
  if mmc then ret true
  else
    spi <- retryLoop (spiAttempt hw) 3 ;;
    if spi then ret true else ret false.

(** A run of a transport function: it returns, touches only the
    transport, and its result is the initialized flag it leaves. *)
Definition transport_run (c : M bool) (w : World) (r : bool) (w' : World)
    (evs : list Event) : Prop :=
  c w = Some (r, w') /\
  steps w w' evs /\
  forallb transport_event evs = true /\
  sdCardInitialized w' = r.

(** The tail of a failed initialization: both retry loops exhausted. *)
Definition both_exhausted (evs : list Event) : Prop :=
  exists pre e1 e2,
    evs = pre ++ e1 ++ e2 /\
    attempts MMC 3 None e1 /\ attempts SPI 3 None e2.

End TransportVocabulary.

(** ** Concrete scenarios *)

Definition rootDir : Handle := mkHandle "/" true 0 [].

(** A card that answers every query well; the clock starts at [clock0]
    and advances by one millisecond per query. *)
Definition hw_healthy (clock0 : Z) : Hw :=
  mkHw (fun n => clock0 + Z.of_nat n) (fun _ => true) (fun _ _ => true)
       (fun _ _ => 2) (fun _ _ _ _ => Some rootDir) (fun _ l => l)
       (fun _ _ _ => true) (fun _ _ _ => true) (fun _ => None)
       (fun _ => false).

(** The transport mounted in MMC mode at time 0, nothing else done. *)
Definition mounted_world : World :=
  mkWorld true false 0 None "" false 0 0 [].

(** The number a string of decimal digits denotes. *)
Definition digits_value (s : string) : option N :=
  option_map N.of_uint (NilEmpty.uint_of_string s).

Definition cors_headers : list Event :=
  [EvSendHeader "Access-Control-Allow-Origin" "*";
   EvSendHeader "Access-Control-Allow-Methods" "GET, POST, OPTIONS";
   EvSendHeader "Access-Control-Allow-Headers" "Content-Type"].

(** [contains c s]: the character [c] occurs in [s]. *)
Definition contains (c : ascii) (s : string) : Prop :=
  In c (list_ascii_of_string s).

(** The three ways [saveImageToSD] can go: the transport does not come
    up, the file does not open, or the frame is written. *)
Inductive save_trace (length : Z) (buffer : list byte) (filepath : string)
  : bool -> list Event -> Prop :=
| save_no_card pre :
    forallb transport_event pre = true ->
    save_trace length buffer filepath false pre
| save_no_file pre m :
    forallb transport_event pre = true ->
    save_trace length buffer filepath false
      (pre ++ [EvOpen m filepath true None])
| save_written pre m h written :
    forallb transport_event pre = true ->
    save_trace length buffer filepath (written =? length)
      (pre ++ [EvOpen m filepath true (Some h);
               EvFileWrite (firstn (Z.to_nat length) buffer) length written;
               EvClose]).

Definition json_created (fullPath : string) : string :=
  ("{" ++ dq ++ "success" ++ dq ++ ":true," ++ dq ++ "path" ++ dq
       ++ ":" ++ dq ++ fullPath ++ dq ++ "}")%string.

(** What [handleCreateFolder] does with an accepted request for
    [fullPath]: after the transport's own events, either the card is
    reported unavailable, or [mkdir] is called once on [fullPath] and its
    result decides the response. *)
Inductive mkdir_trace (fullPath : string) : list Event -> Prop :=
| mkdir_no_card pre :
    forallb transport_event pre = true ->
    mkdir_trace fullPath
      (cors_headers ++ pre ++
       [EvSend 500 "application/json" (json_error "SD Card not available")])
| mkdir_created pre m :
    forallb transport_event pre = true ->
    mkdir_trace fullPath
      (cors_headers ++ pre ++
       [EvMkdir m fullPath true;
        EvSend 200 "application/json" (json_created fullPath)])
| mkdir_failed pre m :
    forallb transport_event pre = true ->
    mkdir_trace fullPath
      (cors_headers ++ pre ++
       [EvMkdir m fullPath false;
        EvSend 500 "application/json" (json_error "Failed to create folder")]).

(** The state after [addCORSHeaders]. *)
Definition after_cors (w : World) : World :=
  log (EvSendHeader "Access-Control-Allow-Headers" "Content-Type")
    (log (EvSendHeader "Access-Control-Allow-Methods" "GET, POST, OPTIONS")
       (log (EvSendHeader "Access-Control-Allow-Origin" "*") w)).

(** What [handleFileDelete] does with the path it is given. *)
Inductive delete_trace (filepath : string) : list Event -> Prop :=
| delete_no_card pre :
    forallb transport_event pre = true ->
    delete_trace filepath
      (cors_headers ++ pre ++
       [EvSend 500 "application/json" (json_error "SD Card not available")])
| delete_done pre m :
    forallb transport_event pre = true ->
    delete_trace filepath
      (cors_headers ++ pre ++
       [EvRemove m filepath true;
        EvSend 200 "application/json"
          (json_message "File deleted successfully")])
| delete_failed pre m :
    forallb transport_event pre = true ->
    delete_trace filepath
      (cors_headers ++ pre ++
       [EvRemove m filepath false;
        EvSend 500 "application/json" (json_error "Failed to delete file")]).

(** What [handleFileDownload] does once it has settled on [target]. *)
Inductive download_trace (target : string) : list Event -> Prop :=
| download_no_card pre :
    forallb transport_event pre = true ->
    download_trace target
      (cors_headers ++ pre ++ [EvSend 500 "text/plain" "SD Card not available"])
| download_missing pre m :
    forallb transport_event pre = true ->
    download_trace target
      (cors_headers ++ pre ++
       [EvOpen m target false None; EvSend 404 "text/plain" "File not found"])
| download_directory pre m h :
    forallb transport_event pre = true ->
    h_isDirectory h = true ->
    download_trace target
      (cors_headers ++ pre ++
       [EvOpen m target false (Some h); EvClose;
        EvSend 400 "text/plain" "Cannot download directory"])
| download_streamed pre m h :
    forallb transport_event pre = true ->
    h_isDirectory h = false ->
    download_trace target
      (cors_headers ++ pre ++
       [EvOpen m target false (Some h);
        EvSendHeader "Content-Disposition"
          ("attachment; filename=" ++ dq ++ bareName target ++ dq)%string;
        EvStreamFile h (contentTypeOf target); EvClose]).

(** ** Frame-buffer discipline *)

Definition is_fb (e : Event) : bool :=
  match e with
  | EvFbGet _ | EvFbRead _ | EvFbReturn _ => true
  | _ => false
  end.

Definition no_fb (e : Event) : bool := negb (is_fb e).

(** Replays a trace against the ownership rule of [camera_fb_t]: a frame
    is acquired only when none is held, read and returned only while it
    is held, and returned once.  [held] is the frame owned on entry; the
    result is the frame owned at the end, or [None] when the rule is
    broken. *)
Fixpoint fb_run (held : option N) (evs : list Event) : option (option N) :=
  match evs with
  | [] => Some held
  | EvFbGet None :: rest => fb_run held rest
  | EvFbGet (Some f) :: rest =>
      match held with
      | None => fb_run (Some (fb_ptr f)) rest
      | Some _ => None
      end
  | EvFbRead p :: rest =>
      match held with
      | Some q => if N.eqb p q then fb_run held rest else None
      | None => None
      end
  | EvFbReturn p :: rest =>
      match held with
      | Some q => if N.eqb p q then fb_run None rest else None
      | None => None
      end
  | _ :: rest => fb_run held rest
  end.

(** The bytes a trace sends to the streaming client. *)
Fixpoint payload (evs : list Event) : list byte :=
  match evs with
  | [] => []
  | EvClientWrite data :: rest => data ++ payload rest
  | _ :: rest => payload rest
  end.

Definition is_client_write (e : Event) : bool :=
  match e with EvClientWrite _ => true | _ => false end.

(** How many of the [fbLen] bytes the chunk loop sends when it is entered
    at offset [n]. *)
Definition sent (n fbLen : Z) : Z :=
  if n <? fbLen then
    if fbLen mod 1024 =? 0 then fbLen - n - 1024 else fbLen - n
  else 0.

(** Every frame the camera hands out is short enough for [n + 1024] not
    to wrap, and [fuel] covers its chunk loop. *)
Definition frames_fit (hw : Hw) (fuel : nat) : Prop :=
  forall n f, hw_fb_get hw n = Some f ->
    len f + 1024 <= 2 ^ 32 /\ len f + 1024 <= 1024 * Z.of_nat fuel.

(** A camera that hands out the frame [f] on every request, and a client
    that stays connected for the first [polls] queries. *)
Definition hw_camera (f : camera_fb_t) (polls : nat) : Hw :=
  mkHw (fun n => Z.of_nat n) (fun _ => true) (fun _ _ => true)
       (fun _ _ => 2) (fun _ _ _ _ => Some rootDir) (fun _ l => l)
       (fun _ _ _ => true) (fun _ _ _ => true) (fun _ => Some f)
       (fun n => (n <? polls)%nat).

Definition frame3 : camera_fb_t :=
  mkFb 7 [x01; x02; x03] 3 640 480 PIXFORMAT_JPEG.

Definition frame0 : camera_fb_t := mkFb 7 [] 0 640 480 PIXFORMAT_JPEG.

(** A frame whose encoded length is exactly one chunk. *)
Definition frame1024 : camera_fb_t :=
  mkFb 7 (repeat x2a 1024) 1024 640 480 PIXFORMAT_JPEG.

(** A frame of exactly two chunks. *)
Definition frame2048 : camera_fb_t :=
  mkFb 7 (repeat x2a 1024 ++ repeat x3c 1024) 2048 640 480 PIXFORMAT_JPEG.

(** ** Directory listings, as the specification words them *)

Definition hidden (e : Entry) : bool := startsWith (bareName (e_name e)) ".".

Definition visible (entries : list Entry) : list Entry :=
  filter (fun e => negb (hidden e)) entries.

Definition renderEntry (e : Entry) : string :=
  entryJson (bareName (e_name e)) e.

(** The entries' JSON objects separated by commas. *)
Fixpoint commaSeparated (items : list string) : string :=
  match items with
  | [] => ""
  | [x] => x
  | x :: rest => x ++ "," ++ commaSeparated rest
  end.

(** The well-formed response: the non-hidden entries in order, and their
    number as the count. *)
Definition expectedListJson (path : string) (entries : list Entry) : string :=
  (listHeader path ++ commaSeparated (map renderEntry (visible entries))
     ++ listFooter (Z.of_nat (List.length (visible entries))))%string.

(** Number of hidden entries that come before the first visible one. *)
Fixpoint leadingHidden (entries : list Entry) : nat :=
  match entries with
  | [] => 0
  | e :: rest => if hidden e then S (leadingHidden rest) else 0
  end.

(** A card whose every directory lists [entries]. *)
Definition hw_listing (entries : list Entry) : Hw :=
  mkHw (fun n => Z.of_nat n) (fun _ => true) (fun _ _ => true)
       (fun _ _ => 2)
       (fun _ _ _ _ => Some (mkHandle "/" true 0 entries))
       (fun _ l => l) (fun _ _ _ => true) (fun _ _ _ => true)
       (fun _ => None) (fun _ => false).

(** The body of the last response sent in a trace. *)
Fixpoint lastBody (evs : list Event) : option (Z * string) :=
  match evs with
  | [] => None
  | e :: rest =>
      match lastBody rest with
      | Some r => Some r
      | None => match e with
                | EvSend code _ body => Some (code, body)
                | _ => None
                end
      end
  end.

(** The commas the loop puts in front of every entry but the first. *)
Definition moreEntries (es : list Entry) : string :=
  fold_right (fun e acc => ("," ++ renderEntry e ++ acc)%string) ""%string es.

(** A directory whose first entry is hidden, and one with hidden entries
    only. *)
Definition hiddenFirst : list Entry :=
  [mkEntry ".Trash" true 0; mkEntry "a.jpg" false 5].

Definition allHidden : list Entry :=
  [mkEntry ".Trash" true 0; mkEntry ".cache" true 0].

(** ** Capture *)

Definition captureOk (filename : string) : string :=
  ("{" ++ dq ++ "success" ++ dq ++ ":true," ++ dq ++ "filename" ++ dq
       ++ ":" ++ dq ++ filename ++ dq ++ "," ++ dq ++ "path" ++ dq
       ++ ":" ++ dq ++ ("/" ++ filename) ++ dq ++ "}")%string.

Definition captureName (t : Z) : string :=
  ("CAPTURE" ++ "_" ++ String_of_Z t ++ ".jpg")%string.

Definition captureResponse (saved : bool) (t : Z) : Event :=
  if saved then EvSend 200 "application/json" (captureOk (captureName t))
  else EvSend 500 "application/json"
         (json_error "Failed to save image to SD card").

(** The runs of [handleCapture] once a frame [f] has been acquired.  The
    boolean tells whether the run takes the path on which the storage
    guard passes at once or the reconnection fails ([true]), or the path
    on which the guard fails and the forced reinitialization succeeds
    ([false]). *)
Inductive capture_trace (f : camera_fb_t) : bool -> list Event -> Prop :=
| capture_direct pre t save saved :
    forallb transport_event pre = true ->
    save_trace (len f) (buf f) ("/" ++ captureName t)%string saved save ->
    capture_trace f true
      (cors_headers ++ [EvFbGet (Some f)] ++ pre ++
       [EvMillis t; EvFbRead (fb_ptr f)] ++ save ++
       [EvFbReturn (fb_ptr f); captureResponse saved t])
| capture_no_card pre1 pre2 :
    forallb transport_event pre1 = true ->
    forallb transport_event pre2 = true ->
    capture_trace f true
      (cors_headers ++ [EvFbGet (Some f)] ++ pre1 ++
       [EvFbReturn (fb_ptr f)] ++ pre2 ++
       [EvSend 500 "application/json"
          (json_error "SD Card not available for saving image")])
| capture_reconnected pre1 pre2 t save saved :
    forallb transport_event pre1 = true ->
    forallb transport_event pre2 = true ->
    save_trace (len f) (buf f) ("/" ++ captureName t)%string saved save ->
    capture_trace f false
      (cors_headers ++ [EvFbGet (Some f)] ++ pre1 ++
       [EvFbReturn (fb_ptr f)] ++ pre2 ++
       [EvMillis t; EvFbRead (fb_ptr f)] ++ save ++
       [EvFbReturn (fb_ptr f); captureResponse saved t]).

(** A card that fails every mount query before query number [ready] and
    answers well from then on, with a camera that hands out [f]. *)
Definition hw_late_card (f : camera_fb_t) (ready : nat) : Hw :=
  mkHw (fun n => Z.of_nat n) (fun n => (ready <=? n)%nat)
       (fun _ n => (ready <=? n)%nat) (fun _ _ => 2)
       (fun _ _ _ _ => Some rootDir) (fun _ l => l)
       (fun _ _ _ => true) (fun _ _ _ => true) (fun _ => Some f)
       (fun _ => false).

Definition count_returns (ptr : N) (evs : list Event) : nat :=
  List.length
    (filter (fun e => match e with
                      | EvFbReturn p => N.eqb p ptr
                      | _ => false
                      end) evs).

(** ** Upload sessions *)

Section UploadProtocol.

Variable hw : Hw.

(** The HTTP collaborator delivers the phases of one upload to
    [handleFileUpload] in order and then asks [handleFileUploadResponse]
    for the answer. *)
Fixpoint deliverPhases (fuel : nat) (req : Request) (phases : list HTTPUpload)
    : M unit :=
  match phases with
  | [] => ret tt
  | u :: rest =>
      handleFileUpload hw fuel req u ;;
      deliverPhases fuel req rest
  end.

Definition uploadRequest (fuel : nat) (req : Request)
    (phases : list HTTPUpload) : M unit :=
  deliverPhases fuel req phases ;;
  handleFileUploadResponse hw fuel.

End UploadProtocol.

(** A healthy card whose file writes come back one byte short. *)
Definition hw_short_write : Hw :=
  mkHw (fun n => Z.of_nat n) (fun _ => true) (fun _ _ => true)
       (fun _ _ => 2) (fun _ _ _ _ => Some rootDir) (fun _ l => l - 1)
       (fun _ _ _ => true) (fun _ _ _ => true) (fun _ => None)
       (fun _ => false).

(** The same card with a camera that hands out the frame [f]. *)
Definition hw_camera_short_write (f : camera_fb_t) : Hw :=
  mkHw (fun n => Z.of_nat n) (fun _ => true) (fun _ _ => true)
       (fun _ _ => 2) (fun _ _ _ _ => Some rootDir) (fun _ l => l - 1)
       (fun _ _ _ => true) (fun _ _ _ => true) (fun _ => Some f)
       (fun _ => false).

(** A healthy card on which no file can be opened for writing. *)
Definition hw_read_only : Hw :=
  mkHw (fun n => Z.of_nat n) (fun _ => true) (fun _ _ => true)
       (fun _ _ => 2)
       (fun _ _ for_write _ => if for_write then None else Some rootDir)
       (fun _ l => l) (fun _ _ _ => true) (fun _ _ _ => true)
       (fun _ => None) (fun _ => false).

(** An upload of the four bytes in one chunk. *)
Definition fourBytes : list HTTPUpload :=
  [mkUpload UPLOAD_FILE_START "a.bin" 0 0 [];
   mkUpload UPLOAD_FILE_WRITE "a.bin" 4 4 [x01; x02; x03; x04];
   mkUpload UPLOAD_FILE_END "a.bin" 4 0 []].

Definition uploadOk : string := json_message "File uploaded successfully".

(** Number of failed attempts to open a file for writing. *)
Definition count_occ_open_failures (evs : list Event) : nat :=
  List.length
    (filter (fun e => match e with
                      | EvOpen _ _ true None => true
                      | _ => false
                      end) evs).

(** The tries of [handleFileList] to open the directory: every failed
    open is followed by whatever the forced reinitialization does. *)
Inductive open_attempts (path : string) : File -> list Event -> Prop :=
| open_gave_up :
    open_attempts path None []
| open_succeeded m h :
    open_attempts path (Some h) [EvOpen m path false (Some h)]
| open_retried m pre root rest :
    forallb transport_event pre = true ->
    open_attempts path root rest ->
    open_attempts path root (EvOpen m path false None :: pre ++ rest).

(** The runs of [handleFileList] on the normalised [path]. *)
Inductive list_trace (path : string) : list Event -> Prop :=
| list_no_card pre :
    forallb transport_event pre = true ->
    list_trace path
      (cors_headers ++ pre ++
       [EvSend 500 "application/json"
          (json_error
             "SD Card not available - please check SD card connection")])
| list_not_found pre opens :
    forallb transport_event pre = true ->
    open_attempts path None opens ->
    list_trace path
      (cors_headers ++ pre ++ opens ++
       [EvSend 404 "application/json"
          (json_error "Directory not found or SD card error")])
| list_not_directory pre opens h :
    forallb transport_event pre = true ->
    open_attempts path (Some h) opens ->
    h_isDirectory h = false ->
    list_trace path
      (cors_headers ++ pre ++ opens ++
       [EvClose;
        EvSend 404 "application/json" (json_error "Path is not a directory")])
| list_listed pre opens h :
    forallb transport_event pre = true ->
    open_attempts path (Some h) opens ->
    h_isDirectory h = true ->
    list_trace path
      (cors_headers ++ pre ++ opens ++
       [EvClose;
        EvSend 200 "application/json" (fst (listJson path (h_entries h)))]).

Definition requestedPath (req : Request) : string :=
  normalizePath (if hasArg (arg_path req) then arg (arg_path req) else "/").

(** ** The functions the handlers above do not reach *)

(** [int] is 32 bits wide and signed; [String(int)] prints a sign. *)
Definition wrap_int32 (z : Z) : Z := (z + 2 ^ 31) mod 2 ^ 32 - 2 ^ 31.

Definition String_of_int (z : Z) : string :=
  if z <? 0 then ("-" ++ String_of_Z (- z))%string else String_of_Z z.

(** Readings of the chip, the wireless stack and the card that
    [handleSystemInfo] puts into its answer. *)
Record SystemReadings := mkReadings {
  freeHeap : Z;
  heapSize : Z;
  chipModel : string;
  cpuFreqMHz : Z;
  flashChipSize : Z;
  wifiModeIsAP : bool;
  softAPIP : string;
  softAPStationNum : Z;
  cardSize : Mode -> Z;
  usedBytes : Mode -> Z
}.

Definition lf : string := String (ascii_of_nat 10) EmptyString.

Section MoreFirmware.

Variable hw : Hw.

(** *** sd_functions.h *)

Definition isSDCardAvailable (fuel : nat) : M bool :=
  initializeSDCard hw fuel.

(** *** camera_functions.h *)

Definition captureImage : M (option camera_fb_t) :=
  fb <- ask (hw_fb_get hw) EvFbGet ;;
  match fb with
  | None => ret None
  | Some f => ret (Some f)
  end.

Definition releaseFrameBuffer (fb : option camera_fb_t) : M unit :=
  match fb with
  | Some f => emit (EvFbReturn (fb_ptr f))
  | None => ret tt
  end.

(** *** web_handlers.h *)

Definition systemInfoText (sys : SystemReadings) (available spi : bool)
    : string :=
  let info := ("ESP32-S3 Camera System" ++ lf)%string in
  let info := (info ++ "Free Heap: " ++ String_of_Z (freeHeap sys)
                 ++ " bytes" ++ lf)%string in
  let info := (info ++ "Total Heap: " ++ String_of_Z (heapSize sys)
                 ++ " bytes" ++ lf)%string in
  let info := (info ++ "Chip Model: " ++ chipModel sys ++ lf)%string in
  let info := (info ++ "CPU Frequency: " ++ String_of_Z (cpuFreqMHz sys)
                 ++ " MHz" ++ lf)%string in
  let info := (info ++ "Flash Size: " ++ String_of_Z (flashChipSize sys)
                 ++ " bytes" ++ lf)%string in
  let info := (info ++ "WiFi Status: "
                 ++ (if wifiModeIsAP sys then "Access Point Active"
                     else "Disconnected") ++ lf)%string in
  let info := (info ++ "AP IP Address: " ++ softAPIP sys ++ lf)%string in
  let info := (info ++ "Connected Clients: "
                 ++ String_of_Z (softAPStationNum sys) ++ lf)%string in
  let info := (info ++ "SD Card: ")%string in
  if available then
    let info := (info ++ "Available ("
                   ++ (if spi then "SPI" else "MMC") ++ " mode)" ++ lf)%string in
    if spi then
      let info := (info ++ "SD Card Size: "
                     ++ String_of_Z (cardSize sys SPI / (1024 * 1024))
                     ++ " MB" ++ lf)%string in
      (info ++ "SD Card Used: "
         ++ String_of_Z (usedBytes sys SPI / (1024 * 1024))
         ++ " MB" ++ lf)%string
    else
      let info := (info ++ "SD Card Size: "
                     ++ String_of_Z (cardSize sys MMC / (1024 * 1024))
                     ++ " MB" ++ lf)%string in
      (info ++ "SD Card Used: "
         ++ String_of_Z (usedBytes sys MMC / (1024 * 1024))
         ++ " MB" ++ lf)%string
  else (info ++ "Not Available" ++ lf)%string.

Definition handleSystemInfo (fuel : nat) (sys : SystemReadings) : M unit :=
  addCORSHeaders ;;
  available <- checkSDCardStatus hw fuel ;;
  spi <- get usingSPIMode ;;
  send 200 "text/plain" (systemInfoText sys available spi).

Definition reconnectOk (spi : bool) : string :=
  ("{" ++ dq ++ "success" ++ dq ++ ":true," ++ dq ++ "message" ++ dq ++ ":"
       ++ dq ++ "SD card reconnected successfully" ++ dq ++ ","
       ++ dq ++ "mode" ++ dq ++ ":" ++ dq
       ++ (if spi then "SPI" else "MMC") ++ dq ++ "}")%string.

Definition handleSDCardReconnect (fuel : nat) : M unit :=
  addCORSHeaders ;;
  success <- forceReinitializeSDCard hw fuel ;;
  if success then
    spi <- get usingSPIMode ;;
    send 200 "application/json" (reconnectOk spi)
  else
    send 500 "application/json" (json_error "Failed to reconnect SD card").

Definition cameraTestOk (width height size : Z) (isJpeg : bool) : string :=
  ("{" ++ dq ++ "success" ++ dq ++ ":true,"
       ++ dq ++ "width" ++ dq ++ ":" ++ String_of_int width ++ ","
       ++ dq ++ "height" ++ dq ++ ":" ++ String_of_int height ++ ","
       ++ dq ++ "size" ++ dq ++ ":" ++ String_of_Z size ++ ","
       ++ dq ++ "format" ++ dq ++ ":" ++ dq
       ++ (if isJpeg then "JPEG" else "Unknown") ++ dq ++ "}")%string.

Definition handleCameraTest : M unit :=
  addCORSHeaders ;;
  fb <- ask (hw_fb_get hw) EvFbGet ;;
  match fb with
  | None =>
      send 500 "application/json"
        (json_error "Camera test failed - no frame buffer")
  | Some f =>
      emit (EvFbRead (fb_ptr f)) ;;
      let width := wrap_int32 (width f) in
      let height := wrap_int32 (height f) in
      let size := len f in
      let isJpeg := format f =? PIXFORMAT_JPEG in
      emit (EvFbReturn (fb_ptr f)) ;;
      send 200 "application/json" (cameraTestOk width height size isJpeg)
  end.

Definition handleOptions : M unit :=
  addCORSHeaders ;;
  send 200 "text/plain" "".

End MoreFirmware.

(** ** Which modes are mounted *)

(** Replays a trace against the card drivers: [begin] returning [true]
    mounts a mode, [end] unmounts it.  The state is (MMC mounted, SPI
    mounted); the result is [None] when a mode is mounted while either
    mode is still mounted. *)
Fixpoint replay_mounts (st : bool * bool) (evs : list Event)
    : option (bool * bool) :=
  match evs with
  | [] => Some st
  | EvBegin MMC true :: rest =>
      if fst st || snd st then None else replay_mounts (true, false) rest
  | EvBegin SPI true :: rest =>
      if fst st || snd st then None else replay_mounts (false, true) rest
  | EvEnd MMC :: rest => replay_mounts (false, snd st) rest
  | EvEnd SPI :: rest => replay_mounts (fst st, false) rest
  | _ :: rest => replay_mounts st rest
  end.

(** What the globals say is mounted. *)
Definition mounts_of (w : World) : bool * bool :=
  (sdCardInitialized w && negb (usingSPIMode w),
   sdCardInitialized w && usingSPIMode w).

Definition mounted_as (o : option (Mode * Z)) : bool * bool :=
  match o with
  | Some (m, _) => (negb (is_spi m), is_spi m)
  | None => (false, false)
  end.

(** Events outside the storage transport's business: the frame pool,
    file contents and names, the HTTP client. *)
Definition outside_transport (e : Event) : bool :=
  match e with
  | EvOpen _ _ _ _ | EvFlush | EvFileWrite _ _ _ | EvRemove _ _ _
  | EvMkdir _ _ _ | EvFbGet _ | EvFbRead _ | EvFbReturn _ | EvConnected _
  | EvClientPrint _ | EvClientWrite _ | EvSendHeader _ _ | EvSend _ _ _
  | EvStreamFile _ _ => true
  | _ => false
  end.

(** ** Answers *)

(** What answers a request: [server.send] and [server.streamFile]. *)
Definition is_response (e : Event) : bool :=
  match e with
  | EvSend _ _ _ | EvStreamFile _ _ => true
  | _ => false
  end.

Definition responses (evs : list Event) : list Event :=
  filter is_response evs.

(** One request served by [c]: it returns, it has sent the three CORS
    headers before anything else, and it has answered exactly once. *)
Definition answered_once (c : M unit) (w : World) : Prop :=
  exists w' evs,
    c w = Some (tt, w') /\
    trace w' = trace w ++ cors_headers ++ evs /\
    List.length (responses evs) = 1%nat.


(** ** What is on the card *)

(** Events that change what is stored: a file opened for writing,
    written, flushed or removed, a directory made. *)
Definition touches_files (e : Event) : bool :=
  match e with
  | EvFileWrite _ _ _ | EvRemove _ _ _ | EvMkdir _ _ _ | EvFlush
  | EvOpen _ _ true _ => true
  | _ => false
  end.

(** [c] returns, and changes neither what is stored nor the upload
    session. *)
Definition leaves_files_alone (c : M unit) (w : World) : Prop :=
  exists w' evs,
    c w = Some (tt, w') /\
    steps w w' evs /\
    forallb (fun e => negb (touches_files e)) evs = true.


(** [occurs s t]: the text [s] occurs in [t]. *)
Definition occurs (s t : string) : Prop :=
  exists a b, t = (a ++ s ++ b)%string.

Definition modeName (m : Mode) : string :=
  match m with SPI => "SPI" | MMC => "MMC" end.

Definition MB : Z := 1024 * 1024.


(** ** Upload sessions, phase by phase *)

Definition is_file_write (e : Event) : bool :=
  match e with EvFileWrite _ _ _ | EvFlush => true | _ => false end.

(** The write of the chunk [u] that comes back complete. *)
Definition chunk_written (u : HTTPUpload) : Event :=
  EvFileWrite (firstn (Z.to_nat (currentSize u)) (upload_buf u))
    (currentSize u) (currentSize u).

(** Where an upload goes: the [path] argument with a slash at its end,
    then the cleaned file name. *)
Definition uploadTarget (req : Request) (u : HTTPUpload) : string :=
  let currentDir :=
    if hasArg (arg_path req) then arg (arg_path req) else "/" in
  let currentDir :=
    if negb (String.eqb currentDir "/") && negb (endsWith currentDir "/")
    then (currentDir ++ "/")%string else currentDir in
  (currentDir ++ cleanFilename (filename u))%string.

(** A card that takes everything: files open, writes are complete, and
    a file opened for reading has [size] bytes. *)
Definition hw_storing (size : Z) : Hw :=
  mkHw (fun n => Z.of_nat n) (fun _ => true) (fun _ _ => true)
       (fun _ _ => 2)
       (fun _ path for_write _ =>
          if String.eqb path "/" then Some rootDir
          else Some (mkHandle path false (if for_write then 0 else size) []))
       (fun _ l => l) (fun _ _ _ => true) (fun _ _ _ => true)
       (fun _ => None) (fun _ => false).


Definition writes_nothing (evs : list Event) : Prop :=
  forallb (fun e => negb (is_file_write e)) evs = true.


(** ** Counting what a retry loop costs *)

Definition is_open (e : Event) : bool :=
  match e with EvOpen _ _ _ _ => true | _ => false end.

Definition count_opens (evs : list Event) : nat :=
  List.length (filter is_open evs).

(** The 500 ms pause is made by [forceReinitializeSDCard] and by nothing
    else, so it counts the forced reinitializations. *)
Definition is_reconnect (e : Event) : bool :=
  match e with EvDelay ms => ms =? 500 | _ => false end.

Definition count_reconnects (evs : list Event) : nat :=
  List.length (filter is_reconnect evs).


(** ** What the stream may do *)

(** The camera's frame pool, the streaming client and time. *)
Definition stream_event (e : Event) : bool :=
  match e with
  | EvClientPrint _ | EvClientWrite _ | EvFbGet _ | EvFbRead _
  | EvFbReturn _ | EvConnected _ | EvDelay _ => true
  | _ => false
  end.

Definition is_fb_get (e : Event) : bool :=
  match e with EvFbGet _ => true | _ => false end.

(** Passes of the streaming loop: each asks the camera once. *)
Definition count_passes (evs : list Event) : nat :=
  List.length (filter is_fb_get evs).


(** ** Open file handles *)

(** Replays a trace against the card's table of open files, entered
    with [n] handles open: a successful [open] takes a handle, [close]
    gives one back.  The result is [None] when a handle is closed that
    is not open. *)
Fixpoint open_handles (n : nat) (evs : list Event) : option nat :=
  match evs with
  | [] => Some n
  | EvOpen _ _ _ (Some _) :: rest
  | EvVerifyRoot _ (Some _) :: rest
  | EvProbe _ (Some _) :: rest => open_handles (S n) rest
  | EvClose :: rest =>
      match n with
      | O => None
      | S k => open_handles k rest
      end
  | _ :: rest => open_handles n rest
  end.


(** What the write phases of an upload leave in the trace when every
    chunk is written in full: each write is followed by a reading of the
    clock, and by a second one, which becomes [lastProgress], when more
    than a second has passed since [lastProgress].  The first index is
    [lastProgress] on entry, the last one [lastProgress] at the end. *)
Inductive chunk_trace : Z -> list HTTPUpload -> list Event -> Z -> Prop :=
| chunks_done last :
    chunk_trace last [] [] last
| chunk_quiet last u us now rest last' :
    wrap32 (now - last) <= 1000 ->
    chunk_trace last us rest last' ->
    chunk_trace last (u :: us) (chunk_written u :: EvMillis now :: rest) last'
| chunk_progress last u us now t rest last' :
    1000 < wrap32 (now - last) ->
    chunk_trace t us rest last' ->
    chunk_trace last (u :: us)
      (chunk_written u :: EvMillis now :: EvMillis t :: rest) last'.


(** The tries of the list handler's retry loop entered with a number of
    tries left, as they follow each other: a try that opens the path
    ends the loop; a failed try that is not the last is followed by the
    100 ms pause and by a forced reinitialization (the active mode
    ended, 500 ms, the whole mount procedure); after the last failed try
    nothing follows. *)
Inductive retry_trace (path : string) : nat -> File -> list Event -> Prop :=
| retry_spent :
    retry_trace path 0 None []
| retry_opened k m h :
    retry_trace path (S k) (Some h) [EvOpen m path false (Some h)]
| retry_last m :
    retry_trace path 1 None [EvOpen m path false None]
| retry_again k m o mount root rest :
    init_trace o mount ->
    retry_trace path (S k) root rest ->
    retry_trace path (S (S k)) root
      (EvOpen m path false None :: EvDelay 100 :: EvEnd m :: EvDelay 500
         :: mount ++ rest).


(** ** What the handlers do once the storage guard has answered *)

(** [handleCreateFolder] past the guard, in the state [w1] the guard
    left: one [mkdir] on the active mode, and the answer its result
    decides. *)
Definition mkdirOutcome (hw : Hw) (fullPath : string) (w1 : World) : World :=
  let ok := hw_mkdir hw (activeMode w1) fullPath (tick w1) in
  log (if ok then EvSend 200 "application/json" (json_created fullPath)
       else EvSend 500 "application/json"
              (json_error "Failed to create folder"))
    (query (EvMkdir (activeMode w1) fullPath ok) w1).




(** [saveImageToSD] once [initializeSDCard] has returned [true] in state
    [w1]: the file is opened for writing on the active mode; if that
    works, [length] bytes are written and the file is closed, and the
    result tells whether the write came back complete. *)
Definition saveOutcome (hw : Hw) (buffer : list byte) (length : Z)
    (filepath : string) (w1 : World) : bool * World :=
  let file := hw_open hw (activeMode w1) filepath true (tick w1) in
  let w2 := query (EvOpen (activeMode w1) filepath true file) w1 in
  match file with
  | None => (false, w2)
  | Some _ =>
      let written := wrap32 (hw_write hw (tick w2) length) in
      (written =? length,
       log EvClose
         (query (EvFileWrite (firstn (Z.to_nat length) buffer) length written)
            w2))
  end.

(** ** Separators at the end of a path *)

Fixpoint all_slashes (s : string) : bool :=
  match s with
  | EmptyString => true
  | String c r => Ascii.eqb c "/" && all_slashes r
  end.

(** The number of slashes [s] ends in. *)
Fixpoint trailing_slashes (s : string) : nat :=
  match s with
  | EmptyString => O
  | String c r =>
      if all_slashes (String c r) then S (String.length r)
      else trailing_slashes r
  end.


(** * Proofs *)

Lemma append_assoc (a b c : string) :
  ((a ++ b) ++ c = a ++ b ++ c)%string.
Proof. induction a as [|x a IH]; cbn; [reflexivity|now rewrite IH]. Qed.

Lemma append_nil_r (a : string) : (a ++ "" = a)%string.
Proof. induction a as [|x a IH]; cbn; [reflexivity|now rewrite IH]. Qed.

Lemma take_length_app (s t : string) :
  take (String.length s) (s ++ t) = s.
Proof. induction s as [|a s IH]; cbn; [now destruct t|now rewrite IH]. Qed.

Lemma length_append (s t : string) :
  String.length (s ++ t) = (String.length s + String.length t)%nat.
Proof. induction s as [|a s IH]; cbn; [reflexivity|now rewrite IH]. Qed.

Lemma append_cons (a : ascii) (s t : string) :
  (String a s ++ t)%string = String a (s ++ t)%string.
Proof. reflexivity. Qed.

Lemma append_nil_l (t : string) : ("" ++ t)%string = t.
Proof. reflexivity. Qed.

Lemma append_cancel_l (p a b : string) :
  (p ++ a)%string = (p ++ b)%string -> a = b.
Proof.
  induction p as [|c p IH]; rewrite ?append_nil_l; [auto|].
  rewrite !append_cons. intros H. injection H as H. auto.
Qed.

Lemma append_cancel_r (a b c : string) :
  (a ++ c)%string = (b ++ c)%string -> a = b.
Proof.
  revert b. induction a as [|x a IH]; intros [|y b] H.
  - reflexivity.
  - apply (f_equal String.length) in H. rewrite !length_append in H.
    cbn [String.length] in H. lia.
  - apply (f_equal String.length) in H. rewrite !length_append in H.
    cbn [String.length] in H. lia.
  - rewrite !append_cons in H. injection H as -> H. f_equal. auto.
Qed.

Lemma take_take (a b : nat) (s : string) :
  take a (take b s) = take (Nat.min a b) s.
Proof.
  revert b s. induction a as [|a IH]; intros b s; [reflexivity|].
  destruct b as [|b]; [reflexivity|].
  destruct s as [|c s]; [reflexivity|]. cbn. now rewrite IH.
Qed.

Lemma length_take (a : nat) (s : string) :
  String.length (take a s) = Nat.min a (String.length s).
Proof.
  revert s. induction a as [|a IH]; intros s; [reflexivity|].
  destruct s as [|c s]; [reflexivity|]. cbn. now rewrite IH.
Qed.


Lemma steps_refl w : steps w w [].
Proof. unfold steps. rewrite app_nil_r. auto. Qed.

Lemma steps_trans w1 w2 w3 e1 e2 :
  steps w1 w2 e1 -> steps w2 w3 e2 -> steps w1 w3 (e1 ++ e2).
Proof.
  unfold steps. intros (T1 & A1 & B1 & C1) (T2 & A2 & B2 & C2).
  rewrite T2, T1, app_assoc. repeat split; congruence.
Qed.

Lemma steps_eq w w' e e' : steps w w' e -> e = e' -> steps w w' e'.
Proof. now intros H <-. Qed.

Lemma steps_log w e : steps w (log e w) [e].
Proof. unfold steps. simpl. auto. Qed.

Lemma steps_query w e : steps w (query e w) [e].
Proof. unfold steps. simpl. auto. Qed.

#[local] Arguments wrap32 : simpl never.
#[local] Arguments wrap8 : simpl never.
#[local] Arguments String.append : simpl never.

Ltac run :=
  cbv [bind ret get modify emit ask when delay millis sd_end sd_open send];
  cbn.

Ltac list_norm := repeat rewrite <- app_assoc; cbn [app].

Section TransportProofs.

Variable hw : Hw.

Lemma mmcAttempt_spec w :
  exists o w' evs,
    mmcAttempt hw w = Some (is_some o, w') /\
    steps w w' evs /\
    attempt_trace MMC o evs /\
    match o with
    | Some t => sdCardInitialized w' = true /\ usingSPIMode w' = false /\
                lastSDCheckTime w' = t
    | None => sdCardInitialized w' = sdCardInitialized w /\
              usingSPIMode w' = usingSPIMode w /\
              lastSDCheckTime w' = lastSDCheckTime w
    end.
Proof.
  unfold mmcAttempt. run.
  destruct (hw_setPins hw (tick w)) eqn:Hp; cbn.
  2:{ exists None. eexists. eexists. split; [reflexivity|].
      split; [apply steps_query|]. split; [constructor|]. cbn. auto. }
  destruct (hw_begin hw MMC (S (tick w))) eqn:Hb; cbn.
  2:{ exists None. eexists. exists (attempt_start MMC ++ [EvBegin MMC false]).
      split; [reflexivity|].
      split; [unfold steps; cbn; list_norm; auto|].
      split; [constructor|]. cbn. auto. }
  destruct (Z.eqb_spec (wrap8 (hw_cardType hw MMC (S (S (tick w))))) CARD_NONE)
    as [Hc|Hc]; cbn.
  { exists None. eexists. eexists.
    split; [reflexivity|].
    split; [unfold steps; cbn; list_norm; split; [reflexivity|auto]|].
    rewrite Hc. split; [apply (at_nocard MMC)|]. cbn. auto. }
  destruct (hw_open hw MMC "/" false (S (S (S (tick w))))) as [h|] eqn:Ho; cbn.
  2:{ exists None. eexists. eexists.
      split; [reflexivity|].
      split; [unfold steps; cbn; list_norm; split; [reflexivity|auto]|].
      split; [apply (at_noroot MMC); exact Hc|]. cbn. auto. }
  destruct (h_isDirectory h) eqn:Hd; cbn.
  - eexists (Some _). eexists. eexists.
    split; [reflexivity|].
    split; [unfold steps; cbn; list_norm; split; [reflexivity|auto]|].
    split; [apply (at_ok MMC); eassumption|]. cbn. auto.
  - exists None. eexists. eexists.
    split; [reflexivity|].
    split; [unfold steps; cbn; list_norm; split; [reflexivity|auto]|].
    split; [apply (at_notdir MMC); eassumption|]. cbn. auto.
Qed.

Lemma spiAttempt_spec w :
  exists o w' evs,
    spiAttempt hw w = Some (is_some o, w') /\
    steps w w' evs /\
    attempt_trace SPI o evs /\
    match o with
    | Some t => sdCardInitialized w' = true /\ usingSPIMode w' = true /\
                lastSDCheckTime w' = t
    | None => sdCardInitialized w' = sdCardInitialized w /\
              usingSPIMode w' = usingSPIMode w /\
              lastSDCheckTime w' = lastSDCheckTime w
    end.
Proof.
  unfold spiAttempt. run.
  destruct (hw_begin hw SPI (tick w)) eqn:Hb; cbn.
  2:{ exists None. eexists. exists (attempt_start SPI ++ [EvBegin SPI false]).
      split; [reflexivity|].
      split; [unfold steps; cbn; list_norm; auto|].
      split; [constructor|]. cbn. auto. }
  destruct (Z.eqb_spec (wrap8 (hw_cardType hw SPI (S (tick w)))) CARD_NONE)
    as [Hc|Hc]; cbn.
  { exists None. eexists. eexists.
    split; [reflexivity|].
    split; [unfold steps; cbn; list_norm; split; [reflexivity|auto]|].
    rewrite Hc. split; [apply (at_nocard SPI)|]. cbn. auto. }
  destruct (hw_open hw SPI "/" false (S (S (tick w)))) as [h|] eqn:Ho; cbn.
  2:{ exists None. eexists. eexists.
      split; [reflexivity|].
      split; [unfold steps; cbn; list_norm; split; [reflexivity|auto]|].
      split; [apply (at_noroot SPI); exact Hc|]. cbn. auto. }
  destruct (h_isDirectory h) eqn:Hd; cbn.
  - eexists (Some _). eexists. eexists.
    split; [reflexivity|].
    split; [unfold steps; cbn; list_norm; split; [reflexivity|auto]|].
    split; [apply (at_ok SPI); eassumption|]. cbn. auto.
  - exists None. eexists. eexists.
    split; [reflexivity|].
    split; [unfold steps; cbn; list_norm; split; [reflexivity|auto]|].
    split; [apply (at_notdir SPI); eassumption|]. cbn. auto.
Qed.

Lemma mmcAttempt_ok : attempt_ok MMC (mmcAttempt hw).
Proof.
  intros w. destruct (mmcAttempt_spec w) as (o & w' & evs & E & S & T & P).
  exists o, w', evs. split; [exact E|]. split; [exact S|]. split; [exact T|].
  destruct o; exact P.
Qed.

Lemma spiAttempt_ok : attempt_ok SPI (spiAttempt hw).
Proof.
  intros w. destruct (spiAttempt_spec w) as (o & w' & evs & E & S & T & P).
  exists o, w', evs. split; [exact E|]. split; [exact S|]. split; [exact T|].
  destruct o; exact P.
Qed.

Lemma retryLoop_spec m attempt (A : attempt_ok m attempt) n :
  forall w, exists o w' evs,
    retryLoop attempt n w = Some (is_some o, w') /\
    steps w w' evs /\
    attempts m n o evs /\
    mounted w w' (tagged m o).
Proof.
  induction n as [|n IH]; intros w.
  - exists None, w, []. cbn. split; [reflexivity|].
    split; [apply steps_refl|]. split; [constructor|]. auto.
  - cbn [retryLoop]. unfold bind at 1.
    destruct (A w) as (o & w1 & e1 & E1 & S1 & T1 & P1). rewrite E1.
    destruct o as [t|]; cbn [is_some].
    + exists (Some t), w1, e1. split; [reflexivity|]. split; [exact S1|].
      split; [now constructor|]. exact P1.
    + assert (exists w2, (when (0 <? n)%nat (delay 1000)) w1 = Some (tt, w2)
                         /\ steps w1 w2 (backoff n)
                         /\ mounted w1 w2 None) as (w2 & E2 & S2 & P2).
      { unfold backoff. destruct (0 <? n)%nat; run.
        - eexists. split; [reflexivity|]. split; [apply steps_log|].
          cbn. auto.
        - eexists. split; [reflexivity|]. split; [apply steps_refl|].
          cbn. auto. }
      unfold bind. rewrite E2.
      destruct (IH w2) as (o & w3 & e3 & E3 & S3 & T3 & P3).
      exists o, w3, (e1 ++ backoff n ++ e3).
      split; [exact E3|].
      split; [eapply steps_trans; [exact S1|eapply steps_trans; eauto]|].
      split; [now constructor|].
      cbn in P1, P2. destruct o as [t|]; cbn in *; intuition congruence.
Qed.

Lemma initializeSDCard_fresh fuel w :
  sdCardInitialized w = false ->
  exists o w' evs,
    initializeSDCard hw (S fuel) w = Some (is_some o, w') /\
    steps w w' evs /\
    init_trace o evs /\
    mounted w w' o.
Proof.
  intros Hu. cbn [initializeSDCard]. unfold bind at 1, get at 1.
  rewrite Hu. unfold bind at 1, ret at 1. cbn [negb].
  unfold bind at 1, modify at 1.
  set (w0 := with_sdCardInitialized false w).
  unfold bind at 1.
  destruct (retryLoop_spec MMC _ mmcAttempt_ok 3 w0)
    as (o1 & w1 & e1 & E1 & S1 & T1 & P1).
  rewrite E1. destruct o1 as [t|]; cbn [is_some].
  - exists (Some (MMC, t)), w1, e1. split; [reflexivity|].
    split; [exact S1|]. split; [now constructor|]. exact P1.
  - unfold bind at 1.
    destruct (retryLoop_spec SPI _ spiAttempt_ok 3 w1)
      as (o2 & w2 & e2 & E2 & S2 & T2 & P2).
    rewrite E2. destruct o2 as [t|]; cbn [is_some].
    + exists (Some (SPI, t)), w2, (e1 ++ e2). split; [reflexivity|].
      split; [eapply steps_trans; [exact S1|exact S2]|].
      split; [now constructor|]. exact P2.
    + exists None, w2, (e1 ++ e2). split; [reflexivity|].
      split; [eapply steps_trans; [exact S1|exact S2]|].
      split; [now constructor|].
      cbn in *. subst w0. cbn in *. intuition congruence.
Qed.

(** Mount attempts consist of mount events only. *)
Lemma attempt_trace_mount m o evs :
  attempt_trace m o evs -> forallb mount_event evs = true.
Proof.
  intros H; destruct H;
    try match goal with m : Mode |- _ => destruct m end; reflexivity.
Qed.

Lemma attempts_mount m n o evs :
  attempts m n o evs -> forallb mount_event evs = true.
Proof.
  induction 1 as [|n t evs H|n o evs rest H _ IH].
  - reflexivity.
  - eapply attempt_trace_mount; eauto.
  - rewrite !forallb_app, IH, (attempt_trace_mount _ _ _ H).
    unfold backoff. destruct (0 <? n)%nat; reflexivity.
Qed.

Lemma init_trace_mount o evs :
  init_trace o evs -> forallb mount_event evs = true.
Proof.
  intros H; destruct H; rewrite ?forallb_app;
    repeat match goal with
           | H : attempts _ _ _ _ |- _ =>
               rewrite (attempts_mount _ _ _ _ H); clear H
           end; reflexivity.
Qed.

Lemma mount_is_transport evs :
  forallb mount_event evs = true -> forallb transport_event evs = true.
Proof.
  induction evs as [|e evs IH]; cbn; [auto|].
  intros H. apply andb_true_iff in H as [H1 H2].
  unfold transport_event at 1. rewrite H1. cbn. auto.
Qed.

Lemma mount_no_probe evs :
  forallb mount_event evs = true -> count_probes evs = 0%nat.
Proof.
  unfold count_probes.
  induction evs as [|e evs IH]; cbn; [auto|].
  intros H. apply andb_true_iff in H as [H1 H2].
  destruct e; cbn in *; try discriminate; auto.
Qed.

Lemma forceReinitializeSDCard_unfold fuel w :
  forceReinitializeSDCard hw fuel w = initializeSDCard hw fuel (torn_down w).
Proof.
  unfold forceReinitializeSDCard, forceReinitializeSDCard_with, torn_down,
    activeMode.
  run. destruct (usingSPIMode w); reflexivity.
Qed.

Lemma forceReinitializeSDCard_spec fuel w :
  exists o w' evs,
    forceReinitializeSDCard hw (S fuel) w = Some (is_some o, w') /\
    steps w w' ([EvEnd (activeMode w); EvDelay 500] ++ evs) /\
    init_trace o evs /\
    remounted w w' o.
Proof.
  rewrite forceReinitializeSDCard_unfold.
  destruct (initializeSDCard_fresh fuel (torn_down w) eq_refl)
    as (o & w' & evs & E & S & T & P).
  exists o, w', evs. split; [exact E|].
  split.
  { eapply steps_trans; [|exact S]. unfold steps, torn_down. cbn.
    list_norm. auto. }
  split; [exact T|].
  destruct o as [[m t]|]; cbn in *; intuition.
Qed.

Lemma checkSDCardStatus_uninitialized fuel w :
  sdCardInitialized w = false ->
  checkSDCardStatus hw fuel w = Some (false, w).
Proof.
  intros H. unfold checkSDCardStatus, checkSDCardStatus_with. run.
  rewrite H. reflexivity.
Qed.

Lemma checkSDCardStatus_throttled fuel w :
  sdCardInitialized w = true ->
  elapsed hw w <= SD_CHECK_INTERVAL ->
  checkSDCardStatus hw fuel w =
  Some (true, query (EvMillis (wrap32 (hw_millis hw (tick w)))) w).
Proof.
  intros H L. unfold checkSDCardStatus, checkSDCardStatus_with. run.
  rewrite H. cbn. unfold elapsed in L.
  destruct (Z.ltb_spec SD_CHECK_INTERVAL
              (wrap32 (wrap32 (hw_millis hw (tick w)) - lastSDCheckTime w)));
    [lia|reflexivity].
Qed.

Lemma checkSDCardStatus_probing fuel w :
  sdCardInitialized w = true ->
  SD_CHECK_INTERVAL < elapsed hw w ->
  checkSDCardStatus hw fuel w =
  if isDirectory (probe_result hw w) then Some (true, probed hw w)
  else forceReinitializeSDCard hw fuel (probed hw w).
Proof.
  intros H L. unfold checkSDCardStatus, checkSDCardStatus_with. run.
  rewrite H. cbn. unfold elapsed in L.
  destruct (Z.ltb_spec SD_CHECK_INTERVAL
              (wrap32 (wrap32 (hw_millis hw (tick w)) - lastSDCheckTime w)));
    [|lia].
  cbn. unfold probed, probe_result, activeMode.
  destruct (usingSPIMode w); cbn;
    match goal with
    | |- context [hw_open hw ?m "/" false ?n] =>
        destruct (hw_open hw m "/" false n) as [h|]; cbn;
          [destruct (h_isDirectory h)|]; reflexivity
    end.
Qed.

Lemma initializeSDCard_unfold fuel w :
  initializeSDCard hw (S fuel) w =
  if sdCardInitialized w then
    match checkSDCardStatus hw fuel w with
    | Some (true, w') => Some (true, w')
    | Some (false, w') => mountBothModes hw w'
    | None => None
    end
  else mountBothModes hw w.
Proof.
  cbn [initializeSDCard]. unfold bind at 1, get at 1.
  destruct (sdCardInitialized w).
  - unfold bind at 1. fold (forceReinitializeSDCard hw fuel).
    fold (checkSDCardStatus hw fuel).
    destruct (checkSDCardStatus hw fuel w) as [[[|] w']|]; reflexivity.
  - reflexivity.
Qed.

Lemma mountBothModes_spec w :
  exists o w' evs,
    mountBothModes hw w = Some (is_some o, w') /\
    steps w w' evs /\
    init_trace o evs /\
    remounted w w' o.
Proof.
  destruct (initializeSDCard_fresh 0 (with_sdCardInitialized false w) eq_refl)
    as (o & w' & evs & E & S & T & P).
  rewrite initializeSDCard_unfold in E.
  cbn [sdCardInitialized with_sdCardInitialized] in E.
  exists o, w', evs.
  split.
  { rewrite <- E. unfold mountBothModes, bind, modify. reflexivity. }
  split; [exact S|]. split; [exact T|].
  destruct o as [[m t]|]; cbn in *; intuition.
Qed.

Lemma remounted_flag w w' o :
  remounted w w' o -> sdCardInitialized w' = is_some o.
Proof. destruct o as [[m t]|]; cbn; intuition. Qed.

Lemma forceReinitializeSDCard_run fuel w :
  (1 <= fuel)%nat ->
  exists r w' evs,
    transport_run (forceReinitializeSDCard hw fuel) w r w' evs /\
    count_probes evs = 0%nat.
Proof.
  intros Hf. destruct fuel as [|fuel]; [lia|].
  destruct (forceReinitializeSDCard_spec fuel w)
    as (o & w' & evs & E & S & T & P).
  exists (is_some o), w', ([EvEnd (activeMode w); EvDelay 500] ++ evs).
  assert (M : forallb mount_event
                ([EvEnd (activeMode w); EvDelay 500] ++ evs) = true).
  { cbn. eapply init_trace_mount; eauto. }
  split; [|apply mount_no_probe; exact M].
  split; [exact E|]. split; [exact S|].
  split; [apply mount_is_transport; exact M|].
  eapply remounted_flag; eauto.
Qed.

Lemma count_probes_app e1 e2 :
  count_probes (e1 ++ e2) = (count_probes e1 + count_probes e2)%nat.
Proof. unfold count_probes. now rewrite filter_app, length_app. Qed.

Lemma probed_steps w :
  exists evs,
    steps w (probed hw w) evs /\
    forallb transport_event evs = true /\
    count_probes evs = 1%nat /\
    sdCardInitialized (probed hw w) = sdCardInitialized w.
Proof.
  unfold probed. destruct (file_ok _).
  - eexists. split; [unfold steps; cbn; list_norm; split; [reflexivity|auto]|].
    cbn. auto.
  - eexists. split; [unfold steps; cbn; list_norm; split; [reflexivity|auto]|].
    cbn. auto.
Qed.

Lemma checkSDCardStatus_run fuel w :
  (1 <= fuel)%nat ->
  exists r w' evs,
    transport_run (checkSDCardStatus hw fuel) w r w' evs /\
    (count_probes evs <= 1)%nat.
Proof.
  intros Hf. destruct (sdCardInitialized w) eqn:Hi.
  2:{ exists false, w, []. split; [|cbn; lia].
      split; [now apply checkSDCardStatus_uninitialized|].
      split; [apply steps_refl|]. auto. }
  destruct (Z.le_gt_cases (elapsed hw w) SD_CHECK_INTERVAL) as [L|L].
  { eexists. eexists. eexists. split; [|shelve].
    split; [now apply checkSDCardStatus_throttled|].
    split; [apply steps_query|]. cbn. auto.
    Unshelve. cbn. lia. }
  unfold transport_run. rewrite (checkSDCardStatus_probing fuel w Hi L).
  destruct (probed_steps w) as (e0 & S0 & T0 & C0 & I0).
  destruct (isDirectory (probe_result hw w)).
  - exists true, (probed hw w), e0. split; [|lia].
    split; [reflexivity|]. split; [exact S0|]. split; [exact T0|]. congruence.
  - destruct (forceReinitializeSDCard_run fuel (probed hw w) Hf)
      as (r & w' & e1 & (E1 & S1 & T1 & I1) & C1).
    exists r, w', (e0 ++ e1). split; [|rewrite count_probes_app; lia].
    split; [exact E1|]. split; [eapply steps_trans; eauto|].
    split; [rewrite forallb_app, T0, T1; reflexivity|exact I1].
Qed.

Lemma initializeSDCard_run fuel w :
  (2 <= fuel)%nat ->
  exists r w' evs,
    transport_run (initializeSDCard hw fuel) w r w' evs /\
    (r = false -> both_exhausted evs).
Proof.
  intros Hf. destruct fuel as [|fuel]; [lia|].
  unfold transport_run. rewrite initializeSDCard_unfold.
  assert (B : forall w0, exists r w' evs,
               (mountBothModes hw w0 = Some (r, w') /\ steps w0 w' evs /\
                forallb transport_event evs = true /\
                sdCardInitialized w' = r) /\
               (r = false -> exists e1 e2, evs = e1 ++ e2 /\
                   attempts MMC 3 None e1 /\ attempts SPI 3 None e2)).
  { intros w0. destruct (mountBothModes_spec w0)
      as (o & w' & evs & E & S & T & P).
    exists (is_some o), w', evs. split.
    - split; [exact E|]. split; [exact S|].
      split; [apply mount_is_transport; eapply init_trace_mount; eauto|].
      eapply remounted_flag; eauto.
    - intros Ho. destruct T; try discriminate. eauto. }
  destruct (sdCardInitialized w) eqn:Hi.
  2:{ destruct (B w) as (r & w' & evs & R & F). exists r, w', evs.
      split; [exact R|]. intros Hr. destruct (F Hr) as (e1 & e2 & -> & A1 & A2).
      exists [], e1, e2. auto. }
  destruct (checkSDCardStatus_run fuel w ltac:(lia))
    as (r0 & w0 & e0 & (E0 & S0 & T0 & I0) & _).
  rewrite E0. destruct r0.
  - exists true, w0, e0. split; [auto|discriminate].
  - destruct (B w0) as (r & w' & evs & (E & S & T & I) & F).
    exists r, w', (e0 ++ evs). split.
    + split; [exact E|]. split; [eapply steps_trans; eauto|].
      split; [rewrite forallb_app, T0, T; reflexivity|exact I].
    + intros Hr. destruct (F Hr) as (e1 & e2 & -> & A1 & A2).
      exists e0, e1, e2. auto.
Qed.

(** More fuel than the recursion needs changes nothing. *)
Lemma initializeSDCard_uninitialized fuel w :
  sdCardInitialized w = false ->
  initializeSDCard hw (S fuel) w = mountBothModes hw w.
Proof. intros H. now rewrite initializeSDCard_unfold, H. Qed.

Lemma forceReinitializeSDCard_fuel fuel w :
  forceReinitializeSDCard hw (S fuel) w = mountBothModes hw (torn_down w).
Proof.
  rewrite forceReinitializeSDCard_unfold.
  now apply initializeSDCard_uninitialized.
Qed.

Lemma checkSDCardStatus_fuel fuel w :
  checkSDCardStatus hw (S fuel) w = checkSDCardStatus hw 1 w.
Proof.
  destruct (sdCardInitialized w) eqn:Hi.
  2:{ now rewrite !checkSDCardStatus_uninitialized. }
  destruct (Z.le_gt_cases (elapsed hw w) SD_CHECK_INTERVAL) as [L|L].
  - now rewrite !checkSDCardStatus_throttled.
  - rewrite !checkSDCardStatus_probing by (auto; lia).
    now rewrite !forceReinitializeSDCard_fuel.
Qed.

Lemma initializeSDCard_fuel fuel w :
  initializeSDCard hw (S (S fuel)) w = initializeSDCard hw 2 w.
Proof.
  rewrite !initializeSDCard_unfold. now rewrite checkSDCardStatus_fuel.
Qed.









End TransportProofs.

(** ** Storage transport *)

(** C5: the health check fails at once when the transport is
    uninitialized; inside the 5-second window it answers healthy after
    reading the clock only; once the window has elapsed it stamps the
    time, opens the root directory on the active mode, answers healthy
    when that is a directory, and otherwise returns what the forced
    reinitialization returns.  Any call performs at most one probe, and a
    second call made while the transport is uninitialized or inside the
    window of the state the first call left touches nothing but the clock
    and returns the first call's answer. *)
Theorem checkSDCardStatus_throttle (hw : Hw) (fuel : nat) (w : World) :
  (1 <= fuel)%nat ->
  (sdCardInitialized w = false ->
   checkSDCardStatus hw fuel w = Some (false, w)) /\
  (sdCardInitialized w = true -> elapsed hw w <= SD_CHECK_INTERVAL ->
   checkSDCardStatus hw fuel w =
   Some (true, query (EvMillis (wrap32 (hw_millis hw (tick w)))) w)) /\
  (sdCardInitialized w = true -> SD_CHECK_INTERVAL < elapsed hw w ->
   lastSDCheckTime (probed hw w) = wrap32 (hw_millis hw (S (tick w))) /\
   (exists evs,
       steps w (probed hw w) evs /\
       In (EvProbe (activeMode w) (probe_result hw w)) evs /\
       count_probes evs = 1%nat) /\
   (isDirectory (probe_result hw w) = true ->
    checkSDCardStatus hw fuel w = Some (true, probed hw w)) /\
   (isDirectory (probe_result hw w) = false ->
    checkSDCardStatus hw fuel w =
    forceReinitializeSDCard hw fuel (probed hw w))) /\
  (exists r1 w1 e1,
      transport_run (checkSDCardStatus hw fuel) w r1 w1 e1 /\
      (count_probes e1 <= 1)%nat /\
      (sdCardInitialized w1 = false \/ elapsed hw w1 <= SD_CHECK_INTERVAL ->
       exists w2 e2,
         checkSDCardStatus hw fuel w1 = Some (r1, w2) /\
         steps w1 w2 e2 /\
         (e2 = [] \/ e2 = [EvMillis (wrap32 (hw_millis hw (tick w1)))]) /\
         count_probes e2 = 0%nat)).
Proof.
  intros Hf.
  split; [apply checkSDCardStatus_uninitialized|].
  split; [apply checkSDCardStatus_throttled|].
  split.
  { intros Hi L. split.
    { unfold probed. destruct (file_ok _); reflexivity. }
    split.
    { unfold probed, probe_result.
      destruct (file_ok _); eexists;
        (split; [unfold steps; cbn; list_norm; split; [reflexivity|auto]|]);
        cbn; auto. }
    rewrite (checkSDCardStatus_probing hw fuel w Hi L).
    split; intros ->; reflexivity. }
  destruct (checkSDCardStatus_run hw fuel w Hf)
    as (r1 & w1 & e1 & R & C).
  exists r1, w1, e1. split; [exact R|]. split; [exact C|].
  destruct R as (_ & _ & _ & I).
  intros [U|L].
  - exists w1, []. rewrite <- I, U.
    split; [now apply checkSDCardStatus_uninitialized|].
    split; [apply steps_refl|]. split; [now left|reflexivity].
  - destruct r1.
    + eexists. eexists.
      split; [now apply checkSDCardStatus_throttled|].
      split; [apply steps_query|]. split; [now right|reflexivity].
    + exists w1, [].
      split; [now apply checkSDCardStatus_uninitialized|].
      split; [apply steps_refl|]. split; [now left|reflexivity].
Qed.

Lemma checkSDCardStatus_throttle_witness :
  (1 <= 1)%nat /\
  checkSDCardStatus (hw_healthy 1000) 1 boot = Some (false, boot) /\
  checkSDCardStatus (hw_healthy 1000) 1 mounted_world =
    Some (true, query (EvMillis 1000) mounted_world) /\
  checkSDCardStatus (hw_healthy 6000) 1 mounted_world =
    Some (true, probed (hw_healthy 6000) mounted_world).
Proof.
  split; [lia|].
  split.
  { apply (checkSDCardStatus_throttle (hw_healthy 1000) 1 boot); [lia|].
    reflexivity. }
  split.
  { apply (checkSDCardStatus_throttle (hw_healthy 1000) 1 mounted_world);
      [lia|reflexivity|vm_compute; discriminate]. }
  apply (checkSDCardStatus_throttle (hw_healthy 6000) 1 mounted_world);
    [lia|reflexivity|vm_compute; reflexivity|reflexivity].
Defined.



(** ** Strings *)

Lemma string_of_uint_digits d :
  all_digits (NilEmpty.string_of_uint d) = true.
Proof. induction d; cbn; auto. Qed.

Lemma String_of_Z_digits z : all_digits (String_of_Z z) = true.
Proof. apply string_of_uint_digits. Qed.

Lemma String_of_Z_value z :
  digits_value (String_of_Z z) = Some (Z.to_N z).
Proof.
  unfold digits_value, String_of_Z. rewrite NilEmpty.usu. cbn.
  now rewrite DecimalN.Unsigned.of_to.
Qed.

Lemma String_of_Z_nonempty z : String_of_Z z <> ""%string.
Proof.
  unfold String_of_Z. intros H.
  assert (E : N.to_uint (Z.to_N z) = Nil).
  { destruct (N.to_uint (Z.to_N z)); cbn in H; try discriminate.
    reflexivity. }
  assert (Z0 : Z.to_N z = 0%N).
  { rewrite <- (DecimalN.Unsigned.of_to (Z.to_N z)), E. reflexivity. }
  rewrite Z0 in E. discriminate.
Qed.

Lemma endsWith_split s suf :
  endsWith s suf = true -> exists b, s = (b ++ suf)%string.
Proof.
  induction s as [|a s IH]; cbn [endsWith].
  - destruct (String.eqb_spec ""%string suf) as [<-|]; [|discriminate].
    now exists ""%string.
  - destruct (String.eqb_spec (String a s) suf) as [<-|].
    + now exists ""%string.
    + intros H. destruct (IH H) as (b & ->). now exists (String a b).
Qed.

Lemma indexOf_from_contains c s i :
  0 <= i -> (0 <= indexOf_from c s i <-> contains c s).
Proof.
  unfold contains. revert i. induction s as [|a s IH]; intros i Hi; cbn.
  - split; [lia|tauto].
  - destruct (Ascii.eqb_spec a c) as [->|N].
    + split; auto.
    + rewrite IH by lia. split; [auto|]. intros [E|H]; [congruence|auto].
Qed.

Lemma indexOf_contains c s : 0 <= indexOf c s <-> contains c s.
Proof. apply indexOf_from_contains. lia. Qed.

Lemma startsWith_normalizePath p : startsWith (normalizePath p) "/" = true.
Proof.
  unfold normalizePath.
  set (q := if isEmpty p || String.eqb p "" then "/"%string else p).
  destruct (startsWith q "/") eqn:E; cbn [negb]; [exact E|].
  unfold startsWith. cbn. destruct q; reflexivity.
Qed.

(** ** Events the transport never produces *)

Lemma transport_not_in evs e :
  forallb transport_event evs = true -> transport_event e = false ->
  ~ In e evs.
Proof.
  intros H N I. rewrite forallb_forall in H. specialize (H e I). congruence.
Qed.

Ltac not_transport :=
  exfalso;
  match goal with
  | T : forallb transport_event ?l = true, I : In ?e ?l |- _ =>
      exact (transport_not_in l e T eq_refl I)
  end.

(** ** Saving a frame *)

Section CaptureProofs.

Variable hw : Hw.

Lemma sd_open_spec path for_write w :
  sd_open hw path for_write w =
  Some (hw_open hw (activeMode w) path for_write (tick w),
        query (EvOpen (activeMode w) path for_write
                 (hw_open hw (activeMode w) path for_write (tick w))) w).
Proof.
  unfold sd_open, activeMode. run. destruct (usingSPIMode w); reflexivity.
Qed.

Lemma saveImageToSD_run fuel buffer length filepath w :
  (2 <= fuel)%nat ->
  exists r w' evs,
    saveImageToSD hw fuel buffer length filepath w = Some (r, w') /\
    steps w w' evs /\
    save_trace length buffer filepath r evs.
Proof.
  intros Hf. unfold saveImageToSD. unfold bind at 1.
  destruct (initializeSDCard_run hw fuel w Hf)
    as (r0 & w0 & e0 & (E0 & S0 & T0 & I0) & _).
  rewrite E0. destruct r0; cbn [negb].
  2:{ exists false, w0, e0. split; [reflexivity|]. split; [exact S0|].
      now constructor. }
  unfold bind at 1. rewrite sd_open_spec.
  destruct (hw_open hw (activeMode w0) filepath true (tick w0)) as [h|]; cbn.
  - run. exists (wrap32 (hw_write hw (S (tick w0)) length) =? length).
    eexists. eexists (e0 ++ [_; _; _]).
    split; [destruct (_ =? _); reflexivity|].
    split; [eapply steps_trans; [exact S0|];
            unfold steps; cbn; list_norm; split; [reflexivity|auto]|].
    now constructor.
  - run. exists false. eexists. eexists (e0 ++ [_]).
    split; [reflexivity|].
    split; [eapply steps_trans; [exact S0|]; apply steps_query|].
    now constructor.
Qed.

Lemma save_trace_writes length buffer filepath r evs :
  save_trace length buffer filepath r evs ->
  (r = true -> exists data written,
      In (EvFileWrite data length written) evs /\ written = length) /\
  (forall data requested written,
      In (EvFileWrite data requested written) evs ->
      data = firstn (Z.to_nat length) buffer /\ requested = length /\
      r = (written =? length)).
Proof.
  intros H; destruct H as [pre T|pre m T|pre m h written T].
  - split; [discriminate|]. intros d q x I.
    not_transport.
  - split; [discriminate|]. intros d q x I.
    apply in_app_or in I as [I|[I|[]]]; [|discriminate].
    not_transport.
  - split.
    + intros E. apply Z.eqb_eq in E.
      exists (firstn (Z.to_nat length) buffer), written.
      split; [|exact E]. apply in_or_app. right. cbn. auto.
    + intros d q x I.
      apply in_app_or in I as [I|[I|[I|[I|[]]]]]; try discriminate.
      * not_transport.
      * inversion I; subst. auto.
Qed.

End CaptureProofs.

(** ** File manager *)

#[local] Arguments initializeSDCard : simpl never.
#[local] Arguments checkSDCardStatus : simpl never.
#[local] Arguments forceReinitializeSDCard : simpl never.
#[local] Arguments sdNotAvailable : simpl never.
#[local] Arguments saveImageToSD : simpl never.
#[local] Arguments generateImageFileName : simpl never.
#[local] Arguments normalizePath : simpl never.
#[local] Arguments joinPath : simpl never.
#[local] Arguments json_error : simpl never.
#[local] Arguments json_message : simpl never.

Section FileManagerProofs.

Variable hw : Hw.

Lemma sdNotAvailable_run fuel w :
  (2 <= fuel)%nat ->
  exists b w' evs,
    sdNotAvailable hw fuel w = Some (b, w') /\
    steps w w' evs /\
    forallb transport_event evs = true /\
    sdCardInitialized w' = negb b.
Proof.
  intros Hf. unfold sdNotAvailable. unfold bind at 1.
  destruct (initializeSDCard_run hw fuel w Hf)
    as (r0 & w0 & e0 & (E0 & S0 & T0 & I0) & _).
  rewrite E0. destruct r0; cbn [negb].
  - unfold bind at 1.
    destruct (checkSDCardStatus_run hw fuel w0 ltac:(lia))
      as (r1 & w1 & e1 & (E1 & S1 & T1 & I1) & _).
    rewrite E1. exists (negb r1), w1, (e0 ++ e1).
    split; [reflexivity|]. split; [eapply steps_trans; eauto|].
    split; [rewrite forallb_app, T0, T1; reflexivity|].
    now rewrite negb_involutive.
  - exists true, w0, e0. split; [reflexivity|]. split; [exact S0|]. auto.
Qed.

Lemma sd_mkdir_spec path w :
  sd_mkdir hw path w =
  Some (hw_mkdir hw (activeMode w) path (tick w),
        query (EvMkdir (activeMode w) path
                 (hw_mkdir hw (activeMode w) path (tick w))) w).
Proof.
  unfold sd_mkdir, activeMode. run. destruct (usingSPIMode w); reflexivity.
Qed.

Lemma sd_remove_spec path w :
  sd_remove hw path w =
  Some (hw_remove hw (activeMode w) path (tick w),
        query (EvRemove (activeMode w) path
                 (hw_remove hw (activeMode w) path (tick w))) w).
Proof.
  unfold sd_remove, activeMode. run. destruct (usingSPIMode w); reflexivity.
Qed.

Lemma cors_steps w :
  addCORSHeaders w =
  Some (tt, log (EvSendHeader "Access-Control-Allow-Headers" "Content-Type")
              (log (EvSendHeader "Access-Control-Allow-Methods"
                      "GET, POST, OPTIONS")
                 (log (EvSendHeader "Access-Control-Allow-Origin" "*") w))).
Proof. reflexivity. Qed.

Lemma after_cors_steps w : steps w (after_cors w) cors_headers.
Proof. unfold steps, after_cors, cors_headers. cbn. list_norm. auto. Qed.

Lemma name_check name :
  (0 <=? indexOf "/" name) || (0 <=? indexOf backslash name)
    || (Z.of_nat (String.length name) =? 0) = true <->
  name = ""%string \/ contains "/" name \/ contains backslash name.
Proof.
  rewrite !orb_true_iff, !Z.leb_le, !indexOf_contains, Z.eqb_eq.
  split.
  - intros [[H|H]|H]; auto. left.
    destruct name; [reflexivity|cbn in H; lia].
  - intros [->|[H|H]]; auto.
Qed.

Lemma handleCreateFolder_rejects fuel basePath name file w :
  name = ""%string \/ contains "/" name \/ contains backslash name ->
  handleCreateFolder hw fuel (mkRequest (Some basePath) (Some name) file) w =
  Some (tt, log (EvSend 400 "application/json"
                   (json_error "Invalid folder name")) (after_cors w)).
Proof.
  intros H. apply name_check in H.
  unfold handleCreateFolder. unfold bind at 1. rewrite cors_steps.
  cbn [hasArg arg arg_path arg_name negb orb]. rewrite H. reflexivity.
Qed.

Lemma handleCreateFolder_accepts fuel basePath name file w :
  (2 <= fuel)%nat ->
  name <> ""%string -> ~ contains "/" name -> ~ contains backslash name ->
  exists w' evs,
    handleCreateFolder hw fuel (mkRequest (Some basePath) (Some name) file) w
    = Some (tt, w') /\
    steps w w' evs /\
    mkdir_trace (joinPath (normalizePath basePath) name) evs.
Proof.
  intros Hf N1 N2 N3.
  assert (C : (0 <=? indexOf "/" name) || (0 <=? indexOf backslash name)
                || (Z.of_nat (String.length name) =? 0) = false).
  { destruct (_ || _ || _) eqn:E; [|reflexivity].
    apply name_check in E. tauto. }
  unfold handleCreateFolder. unfold bind at 1. rewrite cors_steps.
  fold (after_cors w).
  cbn [hasArg arg arg_path arg_name negb orb]. rewrite C.
  unfold bind at 1.
  destruct (sdNotAvailable_run fuel (after_cors w) Hf)
    as (b & w1 & e1 & E1 & S1 & T1 & I1).
  rewrite E1.
  assert (K : forall w2 e2,
             steps (after_cors w) w2 e2 -> forallb transport_event e2 = true ->
             exists w' evs,
               (success <- sd_mkdir hw
                             (joinPath (normalizePath basePath) name) ;;
                if success then
                  send 200 "application/json"
                    ("{" ++ dq ++ "success" ++ dq ++ ":true," ++ dq ++ "path"
                       ++ dq ++ ":" ++ dq
                       ++ joinPath (normalizePath basePath) name ++ dq ++ "}")
                else
                  send 500 "application/json"
                    (json_error "Failed to create folder")) w2 = Some (tt, w')
               /\ steps w w' evs
               /\ mkdir_trace (joinPath (normalizePath basePath) name) evs).
  { intros w2 e2 S2 T2. unfold bind at 1. rewrite sd_mkdir_spec.
    destruct (hw_mkdir hw (activeMode w2) _ (tick w2)); run.
    - eexists. eexists. split; [reflexivity|].
      split; [|apply mkdir_created with (pre := e2); exact T2].
      eapply steps_trans; [apply after_cors_steps|].
      eapply steps_trans; [exact S2|].
      unfold steps; cbn; list_norm; split; [reflexivity|auto].
    - eexists. eexists. split; [reflexivity|].
      split; [|apply mkdir_failed with (pre := e2); exact T2].
      eapply steps_trans; [apply after_cors_steps|].
      eapply steps_trans; [exact S2|].
      unfold steps; cbn; list_norm; split; [reflexivity|auto]. }
  destruct b.
  - unfold bind at 1, bind at 1.
    destruct (forceReinitializeSDCard_run hw fuel w1 ltac:(lia))
      as (r2 & w2 & e2 & (E2 & S2 & T2 & I2) & _).
    rewrite E2. destruct r2; cbn [negb].
    + unfold ret at 1. cbn [negb].
      apply (K w2 (e1 ++ e2)); [eapply steps_trans; eauto|].
      rewrite forallb_app, T1, T2; reflexivity.
    + run. eexists. eexists. split; [reflexivity|].
      split; [|apply mkdir_no_card with (pre := e1 ++ e2);
               rewrite forallb_app, T1, T2; reflexivity].
      eapply steps_eq.
      { eapply steps_trans; [apply after_cors_steps|].
        eapply steps_trans; [exact S1|].
        eapply steps_trans; [exact S2|]. apply steps_log. }
      now list_norm.
  - unfold bind at 1, ret at 1. cbn [negb].
    apply (K w1 e1); auto.
Qed.

End FileManagerProofs.

Lemma joinPath_one_separator base name :
  exists b,
    joinPath base name = (b ++ "/" ++ name)%string /\
    ((base = b /\ endsWith b "/" = false) \/ base = (b ++ "/")%string).
Proof.
  unfold joinPath. destruct (endsWith base "/") eqn:E; cbn [negb].
  - destruct (endsWith_split _ _ E) as (b & ->). exists b.
    split; [apply append_assoc|now right].
  - exists base. split; [apply append_assoc|now left].
Qed.

Lemma endsWith_cons c s suf :
  endsWith s suf = true -> endsWith (String c s) suf = true.
Proof.
  intros H.
  change (endsWith (String c s) suf)
    with (if String.eqb (String c s) suf then true else endsWith s suf).
  rewrite H. now destruct (String.eqb _ _).
Qed.

Lemma all_slashes_ends s :
  all_slashes s = true -> s <> ""%string -> endsWith s "/" = true.
Proof.
  induction s as [|c s IH]; [congruence|].
  cbn [all_slashes]. intros H _. apply andb_prop in H as [Hc Hs].
  apply Ascii.eqb_eq in Hc. subst c.
  destruct s as [|c' s']; [reflexivity|].
  apply endsWith_cons, IH; [exact Hs|discriminate].
Qed.

Lemma trailing_slashes_none s :
  endsWith s "/" = false -> trailing_slashes s = 0%nat.
Proof.
  induction s as [|c s IH]; [reflexivity|].
  intros E. cbn [trailing_slashes].
  destruct (all_slashes (String c s)) eqn:A.
  - rewrite all_slashes_ends in E by (auto; discriminate). discriminate.
  - apply IH. destruct (endsWith s "/") eqn:E'; [|reflexivity].
    now rewrite (endsWith_cons c _ _ E') in E.
Qed.

Lemma trailing_slashes_snoc s :
  trailing_slashes (s ++ "/") = S (trailing_slashes s).
Proof.
  induction s as [|c s IH]; [reflexivity|].
  rewrite append_cons. cbn [trailing_slashes all_slashes].
  assert (A : all_slashes (s ++ "/") = all_slashes s).
  { clear. induction s as [|c s IH]; [reflexivity|].
    rewrite append_cons. cbn [all_slashes]. now rewrite IH. }
  rewrite A. destruct (Ascii.eqb c "/" && all_slashes s).
  - rewrite length_append. cbn [String.length]. lia.
  - exact IH.
Qed.

Lemma trailing_slashes_some s :
  endsWith s "/" = true -> (1 <= trailing_slashes s)%nat.
Proof.
  intros E. destruct (endsWith_split _ _ E) as (b & ->).
  rewrite trailing_slashes_snoc. lia.
Qed.

(** What stands between the base and the name: the slashes the base
    ends in, or one slash when it ends in none. *)
Lemma joinPath_separators base name :
  exists front,
    joinPath base name = (front ++ name)%string /\
    (front = base \/ front = (base ++ "/")%string) /\
    trailing_slashes front = Nat.max 1 (trailing_slashes base).
Proof.
  unfold joinPath. destruct (endsWith base "/") eqn:E; cbn [negb].
  - exists base. split; [reflexivity|]. split; [now left|].
    pose proof (trailing_slashes_some _ E). lia.
  - exists (base ++ "/")%string. split; [reflexivity|].
    split; [now right|].
    now rewrite trailing_slashes_snoc, (trailing_slashes_none _ E).
Qed.

Lemma handleCreateFolder_guarded (hw : Hw) fuel basePath name file w :
  name <> ""%string -> ~ contains "/" name -> ~ contains backslash name ->
  handleCreateFolder hw fuel (mkRequest (Some basePath) (Some name) file) w =
  match sdNotAvailable hw fuel (after_cors w) with
  | Some (false, w1) =>
      Some (tt, mkdirOutcome hw (joinPath (normalizePath basePath) name) w1)
  | Some (true, w1) =>
      match forceReinitializeSDCard hw fuel w1 with
      | Some (true, w2) =>
          Some (tt,
                mkdirOutcome hw (joinPath (normalizePath basePath) name) w2)
      | Some (false, w2) =>
          Some (tt, log (EvSend 500 "application/json"
                           (json_error "SD Card not available")) w2)
      | None => None
      end
  | None => None
  end.
Proof.
  intros N1 N2 N3.
  assert (C : (0 <=? indexOf "/" name) || (0 <=? indexOf backslash name)
                || (Z.of_nat (String.length name) =? 0) = false).
  { destruct (_ || _ || _) eqn:E; [|reflexivity].
    apply name_check in E. tauto. }
  assert (K : forall w2,
             (success <- sd_mkdir hw (joinPath (normalizePath basePath) name) ;;
              if success then
                send 200 "application/json"
                  (json_created (joinPath (normalizePath basePath) name))
              else
                send 500 "application/json"
                  (json_error "Failed to create folder")) w2 =
             Some (tt,
                   mkdirOutcome hw (joinPath (normalizePath basePath) name)
                     w2)).
  { intros w2. unfold bind at 1. rewrite sd_mkdir_spec. unfold mkdirOutcome.
    cbv zeta. now destruct (hw_mkdir hw _ _ _). }
  unfold handleCreateFolder. unfold bind at 1. rewrite cors_steps.
  fold (after_cors w).
  cbn [hasArg arg arg_path arg_name negb orb]. rewrite C.
  unfold bind at 1.
  destruct (sdNotAvailable hw fuel (after_cors w)) as [[[|] w1]|];
    [| |reflexivity].
  - unfold bind at 1, bind at 1.
    destruct (forceReinitializeSDCard hw fuel w1) as [[[|] w2]|];
      [| |reflexivity]; cbn [negb].
    + unfold ret at 1. cbn [negb]. apply K.
    + reflexivity.
  - unfold bind at 1, ret at 1. cbn [negb]. apply K.
Qed.

(** C8: a name that is empty or contains a slash or a backslash is
    answered with 400 right after the CORS headers, before the transport
    or [mkdir] is touched.  For any other name the base path is
    normalised to start with a slash, and the path created is that base,
    a slash if the base does not already end in one, and the name: what
    stands between them is the slashes the base ends in, or one slash
    when it ends in none, so exactly one separator unless the base ends
    in two or more.  The storage guard decides what follows: when it
    passes, or the forced reinitialization succeeds, [mkdir] is called
    once, on that path and the active mode, and a [false] result is
    answered with the creation-failure response; when the
    reinitialization fails, the card is reported unavailable and [mkdir]
    is not called. *)
Theorem handleCreateFolder_validates_and_joins
    (hw : Hw) (fuel : nat) (basePath name : string) (file : option string)
    (w : World) :
  (2 <= fuel)%nat ->
  (name = ""%string \/ contains "/" name \/ contains backslash name ->
   handleCreateFolder hw fuel (mkRequest (Some basePath) (Some name) file) w =
   Some (tt, log (EvSend 400 "application/json"
                    (json_error "Invalid folder name")) (after_cors w))) /\
  (name <> ""%string -> ~ contains "/" name -> ~ contains backslash name ->
   startsWith (normalizePath basePath) "/" = true /\
   (exists b,
       joinPath (normalizePath basePath) name = (b ++ "/" ++ name)%string /\
       ((normalizePath basePath = b /\ endsWith b "/" = false) \/
        normalizePath basePath = (b ++ "/")%string)) /\
   (exists front,
       joinPath (normalizePath basePath) name = (front ++ name)%string /\
       (front = normalizePath basePath \/
        front = (normalizePath basePath ++ "/")%string) /\
       trailing_slashes front =
       Nat.max 1 (trailing_slashes (normalizePath basePath))) /\
   (exists w' evs,
     handleCreateFolder hw fuel (mkRequest (Some basePath) (Some name) file) w
     = Some (tt, w') /\
     steps w w' evs /\
     mkdir_trace (joinPath (normalizePath basePath) name) evs) /\
   (exists unavailable w1,
       sdNotAvailable hw fuel (after_cors w) = Some (unavailable, w1) /\
       if unavailable then
         exists ok w2,
           forceReinitializeSDCard hw fuel w1 = Some (ok, w2) /\
           handleCreateFolder hw fuel
             (mkRequest (Some basePath) (Some name) file) w =
           Some (tt,
                 if ok
                 then mkdirOutcome hw (joinPath (normalizePath basePath) name)
                        w2
                 else log (EvSend 500 "application/json"
                             (json_error "SD Card not available")) w2)
       else
         handleCreateFolder hw fuel
           (mkRequest (Some basePath) (Some name) file) w =
         Some (tt,
               mkdirOutcome hw (joinPath (normalizePath basePath) name) w1))).
Proof.
  intros Hf. split.
  - apply handleCreateFolder_rejects.
  - intros N1 N2 N3.
    split; [apply startsWith_normalizePath|].
    split; [apply joinPath_one_separator|].
    split; [apply joinPath_separators|].
    split; [now apply handleCreateFolder_accepts|].
    rewrite (handleCreateFolder_guarded hw fuel basePath name file w N1 N2 N3).
    destruct (sdNotAvailable_run hw fuel (after_cors w) Hf)
      as (b & w1 & e1 & E1 & _).
    exists b, w1. split; [exact E1|]. rewrite E1. destruct b.
    + destruct (forceReinitializeSDCard_run hw fuel w1 ltac:(lia))
        as (ok & w2 & e2 & (E2 & _) & _).
      exists ok, w2. split; [exact E2|]. rewrite E2. now destruct ok.
    + reflexivity.
Qed.

Lemma handleCreateFolder_validates_and_joins_witness :
  (2 <= 2)%nat /\
  handleCreateFolder (hw_healthy 0) 2
    (mkRequest (Some "photos") (Some "a/b") None) boot =
  Some (tt, log (EvSend 400 "application/json"
                   (json_error "Invalid folder name")) (after_cors boot)) /\
  (exists w' evs,
    handleCreateFolder (hw_healthy 0) 2
      (mkRequest (Some "photos") (Some "day1") None) boot = Some (tt, w') /\
    steps boot w' evs /\
    mkdir_trace (joinPath (normalizePath "photos") "day1") evs) /\
  (exists w',
    handleCreateFolder (hw_healthy 0) 2
      (mkRequest (Some "photos") (Some "day1") None) boot = Some (tt, w') /\
    In (EvMkdir MMC "/photos/day1" true) (trace w') /\
    lastBody (trace w') = Some (200, json_created "/photos/day1")).
Proof.
  assert (N2 : ~ contains "/" "day1").
  { cbn. intros H. repeat destruct H as [H|H]; try discriminate. exact H. }
  assert (N3 : ~ contains backslash "day1").
  { cbn. intros H. repeat destruct H as [H|H]; try discriminate. exact H. }
  assert (N1 : "day1"%string <> ""%string) by discriminate.
  split; [lia|]. split; [|split].
  - apply (handleCreateFolder_validates_and_joins (hw_healthy 0) 2
             "photos" "a/b" None boot); [lia|].
    right. left. cbn. auto.
  - apply (handleCreateFolder_validates_and_joins (hw_healthy 0) 2
             "photos" "day1" None boot); [lia|exact N1|exact N2|exact N3].
  - destruct (handleCreateFolder_validates_and_joins (hw_healthy 0) 2
                "photos" "day1" None boot (Nat.le_refl 2)) as [_ A].
    destruct (A N1 N2 N3) as (_ & _ & _ & _ & b & w1 & E1 & G).
    assert (E : sdNotAvailable (hw_healthy 0) 2 (after_cors boot) =
                Some (false,
                      query (EvMillis 5)
                        (mkWorld true false 4 None "" false 0 5
                           (cors_headers ++
                            [EvSetPins true; EvBegin MMC true; EvDelay 100;
                             EvCardType MMC 2;
                             EvVerifyRoot MMC (Some rootDir); EvClose;
                             EvMillis 4]))))
      by (vm_compute; reflexivity).
    rewrite E in E1. injection E1 as <- <-.
    eexists. split; [exact G|]. split; vm_compute; auto 20.
Defined.

(** C8, where the claim's wording fails: a base that ends in two
    slashes keeps both, so two separators stand between the base's last
    component and the name in the path that is created. *)
Lemma handleCreateFolder_keeps_doubled_slash :
  exists w',
    handleCreateFolder (hw_healthy 0) 2
      (mkRequest (Some "/photos//") (Some "day1") None) boot = Some (tt, w') /\
    In (EvMkdir MMC "/photos//day1" true) (trace w') /\
    lastBody (trace w') = Some (200, json_created "/photos//day1") /\
    normalizePath "/photos//" = "/photos//"%string /\
    trailing_slashes (normalizePath "/photos//") = 2%nat /\
    forall b, endsWith b "/" = false ->
              joinPath (normalizePath "/photos//") "day1"
              <> (b ++ "/" ++ "day1")%string.
Proof.
  eexists. split; [vm_compute; reflexivity|].
  split; [vm_compute; auto 20|]. split; [vm_compute; reflexivity|].
  split; [reflexivity|]. split; [reflexivity|].
  intros b E H.
  change (joinPath (normalizePath "/photos//") "day1")
    with ("/photos/" ++ "/" ++ "day1")%string in H.
  rewrite <- !append_assoc in H. apply append_cancel_r in H.
  apply append_cancel_r in H. subst b. discriminate E.
Qed.

#[local] Arguments contentTypeOf : simpl never.
#[local] Arguments bareName : simpl never.
#[local] Arguments normalizeFilePath : simpl never.

Section DeleteDownloadProofs.

Variable hw : Hw.

Lemma handleFileDelete_run fuel filepath path name w :
  (2 <= fuel)%nat ->
  exists w' evs,
    handleFileDelete hw fuel (mkRequest path name (Some filepath)) w
    = Some (tt, w') /\
    steps w w' evs /\
    delete_trace filepath evs.
Proof.
  intros Hf. unfold handleFileDelete. unfold bind at 1. rewrite cors_steps.
  fold (after_cors w). cbn [hasArg arg arg_file negb].
  unfold bind at 1.
  destruct (initializeSDCard_run hw fuel (after_cors w) Hf)
    as (r0 & w0 & e0 & (E0 & S0 & T0 & I0) & _).
  rewrite E0. destruct r0; cbn [negb].
  - unfold bind at 1. rewrite sd_remove_spec.
    destruct (hw_remove hw (activeMode w0) filepath (tick w0)); run.
    + eexists. eexists. split; [reflexivity|].
      split; [|apply delete_done with (pre := e0); exact T0].
      eapply steps_eq.
      { eapply steps_trans; [apply after_cors_steps|].
        eapply steps_trans; [exact S0|].
        eapply steps_trans; [apply steps_query|apply steps_log]. }
      now list_norm.
    + eexists. eexists. split; [reflexivity|].
      split; [|apply delete_failed with (pre := e0); exact T0].
      eapply steps_eq.
      { eapply steps_trans; [apply after_cors_steps|].
        eapply steps_trans; [exact S0|].
        eapply steps_trans; [apply steps_query|apply steps_log]. }
      now list_norm.
  - run. eexists. eexists. split; [reflexivity|].
    split; [|apply delete_no_card with (pre := e0); exact T0].
    eapply steps_eq.
    { eapply steps_trans; [apply after_cors_steps|].
      eapply steps_trans; [exact S0|apply steps_log]. }
    now list_norm.
Qed.

Lemma handleFileDownload_run fuel filepath path name w :
  (2 <= fuel)%nat ->
  exists w' evs,
    handleFileDownload hw fuel (mkRequest path name (Some filepath)) w
    = Some (tt, w') /\
    steps w w' evs /\
    download_trace (normalizeFilePath filepath) evs.
Proof.
  intros Hf. unfold handleFileDownload. unfold bind at 1. rewrite cors_steps.
  fold (after_cors w). cbn [hasArg arg arg_file negb].
  unfold bind at 1.
  destruct (initializeSDCard_run hw fuel (after_cors w) Hf)
    as (r0 & w0 & e0 & (E0 & S0 & T0 & I0) & _).
  rewrite E0. destruct r0; cbn [negb].
  - unfold bind at 1. rewrite sd_open_spec.
    destruct (hw_open hw (activeMode w0) _ false (tick w0)) as [h|].
    + destruct (h_isDirectory h) eqn:D; run.
      * eexists. eexists. split; [reflexivity|].
        split; [|apply download_directory with (pre := e0); eauto].
        eapply steps_eq.
        { eapply steps_trans; [apply after_cors_steps|].
          eapply steps_trans; [exact S0|].
          eapply steps_trans; [apply steps_query|].
          eapply steps_trans; [apply steps_log|apply steps_log]. }
        now list_norm.
      * eexists. eexists. split; [reflexivity|].
        split; [|apply download_streamed with (pre := e0); eauto].
        eapply steps_eq.
        { eapply steps_trans; [apply after_cors_steps|].
          eapply steps_trans; [exact S0|].
          eapply steps_trans; [apply steps_query|].
          eapply steps_trans; [apply steps_log|].
          eapply steps_trans; [apply steps_log|apply steps_log]. }
        now list_norm.
    + run. eexists. eexists. split; [reflexivity|].
      split; [|apply download_missing with (pre := e0); exact T0].
      eapply steps_eq.
      { eapply steps_trans; [apply after_cors_steps|].
        eapply steps_trans; [exact S0|].
        eapply steps_trans; [apply steps_query|apply steps_log]. }
      now list_norm.
  - run. eexists. eexists. split; [reflexivity|].
    split; [|apply download_no_card with (pre := e0); exact T0].
    eapply steps_eq.
    { eapply steps_trans; [apply after_cors_steps|].
      eapply steps_trans; [exact S0|apply steps_log]. }
    now list_norm.
Qed.

End DeleteDownloadProofs.






(** ** Streaming *)

Lemma firstn_plus {A} (a b : nat) (l : list A) :
  firstn (a + b) l = firstn a l ++ firstn b (skipn a l).
Proof.
  revert l. induction a as [|a IH]; intros l; cbn; [reflexivity|].
  destruct l as [|x l]; cbn.
  - now rewrite firstn_nil.
  - now rewrite IH.
Qed.

Lemma payload_app e1 e2 : payload (e1 ++ e2) = payload e1 ++ payload e2.
Proof.
  induction e1 as [|e e1 IH]; cbn; [reflexivity|].
  destruct e; cbn; rewrite ?IH, ?app_assoc; reflexivity.
Qed.

Lemma wrap32_small z : 0 <= z < 2 ^ 32 -> wrap32 z = z.
Proof. intros H. unfold wrap32. now apply Z.mod_small. Qed.

Section StreamProofs.

Variable hw : Hw.

Lemma sendChunks_spec fbLen :
  fbLen + 1024 <= 2 ^ 32 ->
  forall fuel fbBuf n w,
    0 <= n -> n mod 1024 = 0 -> n < fbLen + 1024 ->
    fbLen - n + 1024 <= 1024 * Z.of_nat fuel ->
    exists w' evs,
      sendChunks fuel fbBuf n fbLen w = Some (tt, w') /\
      steps w w' evs /\
      forallb is_client_write evs = true /\
      payload evs = firstn (Z.to_nat (sent n fbLen)) fbBuf.
Proof.
  intros Hmax. induction fuel as [|fuel IH]; intros fbBuf n w H0 Hm Hn Hf.
  - lia.
  - cbn [sendChunks]. unfold sent.
    pose proof (Z.mod_pos_bound fbLen 1024 ltac:(lia)) as Hr.
    pose proof (Z.div_mod fbLen 1024 ltac:(lia)) as Hd.
    pose proof (Z.div_mod n 1024 ltac:(lia)) as Hk. rewrite Hm in Hk.
    destruct (Z.ltb_spec n fbLen) as [Hlt|Hge].
    2:{ exists w, []. split; [reflexivity|]. split; [apply steps_refl|].
        split; reflexivity. }
    rewrite (wrap32_small (n + 1024)) by lia.
    assert (Hm' : (n + 1024) mod 1024 = 0).
    { rewrite <- (Z.mul_1_l 1024) at 1. rewrite Z.mod_add; lia. }
    destruct (Z.ltb_spec (n + 1024) fbLen) as [Hfull|Hlast].
    + unfold bind, emit, modify.
      destruct (IH (skipn 1024 fbBuf) (n + 1024)
                  (log (EvClientWrite (firstn 1024 fbBuf)) w))
        as (w' & evs & E & S & C & P); try lia.
      exists w', (EvClientWrite (firstn 1024 fbBuf) :: evs).
      split; [exact E|].
      split; [eapply (steps_trans _ _ _ [_]); [apply steps_log|exact S]|].
      split; [exact C|].
      cbn [payload]. rewrite P. unfold sent.
      destruct (Z.ltb_spec (n + 1024) fbLen); [|lia].
      replace (Z.to_nat (if fbLen mod 1024 =? 0 then fbLen - n - 1024
                         else fbLen - n))
        with (1024 + Z.to_nat (if fbLen mod 1024 =? 0
                               then fbLen - (n + 1024) - 1024
                               else fbLen - (n + 1024))%Z)%nat
        by (destruct (Z.eqb_spec (fbLen mod 1024) 0); lia).
      now rewrite firstn_plus.
    + destruct (Z.ltb_spec 0 (fbLen mod 1024)) as [Hrem|Hzero].
      * unfold bind, emit, modify.
        destruct (IH fbBuf (n + 1024)
                    (log (EvClientWrite
                            (firstn (Z.to_nat (fbLen mod 1024)) fbBuf)) w))
          as (w' & evs & E & S & C & P); try lia.
        exists w', (EvClientWrite (firstn (Z.to_nat (fbLen mod 1024)) fbBuf)
                      :: evs).
        split; [exact E|].
        split; [eapply (steps_trans _ _ _ [_]); [apply steps_log|exact S]|].
        split; [exact C|].
        cbn [payload]. rewrite P. unfold sent.
        destruct (Z.ltb_spec (n + 1024) fbLen); [lia|].
        destruct (Z.eqb_spec (fbLen mod 1024) 0); [lia|].
        cbn [firstn Z.to_nat]. rewrite app_nil_r.
        f_equal. lia.
      * destruct (IH fbBuf (n + 1024) w) as (w' & evs & E & S & C & P);
          try lia.
        exists w', evs. split; [exact E|]. split; [exact S|].
        split; [exact C|]. rewrite P. unfold sent.
        destruct (Z.ltb_spec (n + 1024) fbLen); [lia|].
        destruct (Z.eqb_spec (fbLen mod 1024) 0); [|lia].
        f_equal. lia.
Qed.

Lemma fb_run_app h e1 e2 :
  fb_run h (e1 ++ e2) =
  match fb_run h e1 with
  | Some h' => fb_run h' e2
  | None => None
  end.
Proof.
  revert h. induction e1 as [|e e1 IH]; intros h.
  - reflexivity.
  - destruct e; simpl; try apply IH.
    + destruct r; [destruct h|]; simpl; auto.
    + destruct h as [q|]; [destruct (N.eqb ptr q)|]; auto.
    + destruct h as [q|]; [destruct (N.eqb ptr q)|]; auto.
Qed.

Lemma fb_run_no_fb h evs : forallb no_fb evs = true -> fb_run h evs = Some h.
Proof.
  induction evs as [|e evs IH]; cbn; [reflexivity|].
  intros H. apply andb_true_iff in H as [H1 H2].
  destruct e; cbn in H1; try discriminate; auto.
Qed.

Lemma client_write_no_fb evs :
  forallb is_client_write evs = true -> forallb no_fb evs = true.
Proof.
  induction evs as [|e evs IH]; cbn; [reflexivity|].
  intros H. apply andb_true_iff in H as [H1 H2].
  destruct e; cbn in H1; try discriminate. cbn. auto.
Qed.

(** One frame's passage through the loop body: acquired, read, streamed
    by [body], returned, and then [tail]. *)
Lemma fb_run_frame f body tail :
  forallb no_fb body = true -> forallb no_fb tail = true ->
  fb_run None
    ([EvFbGet (Some f); EvFbRead (fb_ptr f)] ++ body ++
     EvFbReturn (fb_ptr f) :: tail) = Some None.
Proof.
  intros B T. simpl. rewrite N.eqb_refl.
  rewrite fb_run_app, (fb_run_no_fb _ _ B). simpl.
  rewrite N.eqb_refl. now apply fb_run_no_fb.
Qed.

Lemma streamBody_run fuel w :
  frames_fit hw fuel ->
  exists ctl w' evs,
    streamBody hw fuel w = Some (ctl, w') /\
    steps w w' evs /\
    match hw_fb_get hw (tick w) with
    | None => evs = [EvFbGet None; EvDelay 1000] /\ ctl = Continue
    | Some f =>
        exists body tail,
          evs = [EvFbGet (Some f); EvFbRead (fb_ptr f)] ++ body ++
                EvFbReturn (fb_ptr f) :: tail /\
          forallb no_fb body = true /\ forallb no_fb tail = true /\
          (len f <= 0 -> body = []) /\
          (0 < len f ->
           payload body = firstn (Z.to_nat (sent 0 (len f))) (buf f))
    end.
Proof.
  intros Fit. unfold streamBody. unfold bind at 1, ask at 1.
  destruct (hw_fb_get hw (tick w)) as [f|] eqn:G.
  2:{ run. eexists. eexists. eexists. split; [reflexivity|].
      split; [unfold steps; cbn; list_norm; split; [reflexivity|auto]|].
      auto. }
  destruct (Fit _ _ G) as [F1 F2].
  set (w0 := query (EvFbGet (Some f)) w).
  unfold bind at 1, emit at 1, modify at 1.
  set (w1 := log (EvFbRead (fb_ptr f)) w0).
  assert (S01 : steps w w1 [EvFbGet (Some f); EvFbRead (fb_ptr f)]).
  { unfold steps, w1, w0. cbn. list_norm. auto. }
  assert (K : forall w2 body,
             steps w1 w2 body -> forallb no_fb body = true ->
             (len f <= 0 -> body = []) ->
             (0 < len f ->
              payload body = firstn (Z.to_nat (sent 0 (len f))) (buf f)) ->
             exists ctl w' evs,
               (emit (EvFbReturn (fb_ptr f)) ;;
                connected <- ask (hw_connected hw) EvConnected ;;
                if negb connected then ret Break
                else delay 50 ;; ret Continue) w2 = Some (ctl, w') /\
               steps w w' evs /\
               exists body0 tail,
                 evs = [EvFbGet (Some f); EvFbRead (fb_ptr f)] ++ body0 ++
                       EvFbReturn (fb_ptr f) :: tail /\
                 forallb no_fb body0 = true /\ forallb no_fb tail = true /\
                 (len f <= 0 -> body0 = []) /\
                 (0 < len f ->
                  payload body0 = firstn (Z.to_nat (sent 0 (len f))) (buf f))).
  { intros w2 body S12 B L0 L1. run.
    destruct (hw_connected hw (tick w2)); cbn.
    - eexists. eexists. eexists. split; [reflexivity|]. split.
      2:{ exists body, [EvConnected true; EvDelay 50]. split; [reflexivity|].
          auto. }
      eapply steps_eq.
      { eapply steps_trans; [exact S01|]. eapply steps_trans; [exact S12|].
        unfold steps. cbn. list_norm. split; [reflexivity|auto]. }
      now list_norm.
    - eexists. eexists. eexists. split; [reflexivity|]. split.
      2:{ exists body, [EvConnected false]. split; [reflexivity|]. auto. }
      eapply steps_eq.
      { eapply steps_trans; [exact S01|]. eapply steps_trans; [exact S12|].
        unfold steps. cbn. list_norm. split; [reflexivity|auto]. }
      now list_norm. }
  unfold bind at 1.
  destruct (Z.ltb_spec 0 (len f)) as [Hpos|Hnon].
  - unfold bind at 1, emit at 1, modify at 1.
    unfold bind at 1, emit at 1, modify at 1.
    unfold bind at 1.
    match goal with
    | |- context [sendChunks fuel (buf f) 0 (len f) ?w2] =>
        destruct (sendChunks_spec (len f) F1 fuel (buf f) 0 w2)
          as (w3 & ce & E & S & C & P); try lia; [reflexivity|];
        assert (S12 : steps w1 w2 [EvClientPrint ("--frame" ++ cr_lf)%string;
                       EvClientPrint ("Content-Type: image/jpeg" ++ cr_lf
                         ++ "Content-Length: " ++ String_of_Z (len f)
                         ++ cr_lf ++ cr_lf)%string])
          by (unfold steps; cbn; list_norm; split; [reflexivity|auto])
    end.
    rewrite E. unfold emit at 1, modify at 1.
    eapply K.
    + eapply steps_trans; [exact S12|].
      eapply steps_trans; [exact S|apply steps_log].
    + cbn. rewrite forallb_app, (client_write_no_fb _ C). reflexivity.
    + lia.
    + intros _. rewrite !payload_app, P. simpl.
      now rewrite app_nil_r.
  - unfold ret at 1. eapply K.
    + apply steps_refl.
    + reflexivity.
    + reflexivity.
    + lia.
Qed.

Lemma streamLoop_run iterations fuel :
  frames_fit hw fuel ->
  forall w, exists fin w' evs,
    streamLoop hw iterations fuel w = Some (fin, w') /\
    steps w w' evs /\
    fb_run None evs = Some None.
Proof.
  intros Fit. induction iterations as [|k IH]; intros w.
  - exists false, w, []. split; [reflexivity|]. split; [apply steps_refl|].
    reflexivity.
  - cbn [streamLoop]. unfold bind at 1, ask at 1.
    destruct (hw_connected hw (tick w)) eqn:Hc; cbn [negb].
    2:{ eexists. eexists. exists [EvConnected false].
        split; [reflexivity|]. split; [apply steps_query|reflexivity]. }
    unfold bind at 1.
    destruct (streamBody_run fuel (query (EvConnected true) w) Fit)
      as (ctl & w1 & e1 & E1 & S1 & B1).
    rewrite E1.
    assert (R1 : fb_run None e1 = Some None).
    { destruct (hw_fb_get hw (tick (query (EvConnected true) w))) as [f|].
      - destruct B1 as (body & tail & -> & B & T & _).
        now apply fb_run_frame.
      - destruct B1 as [-> _]. reflexivity. }
    destruct ctl.
    + destruct (IH w1) as (fin & w2 & e2 & E2 & S2 & R2).
      exists fin, w2, ([EvConnected true] ++ e1 ++ e2).
      split; [exact E2|].
      split; [eapply steps_trans; [apply steps_query|];
              eapply steps_trans; eauto|].
      simpl. now rewrite fb_run_app, R1.
    + exists true, w1, ([EvConnected true] ++ e1).
      split; [reflexivity|].
      split; [eapply steps_trans; [apply steps_query|exact S1]|].
      exact R1.
Qed.

End StreamProofs.

(** C9: every pass of the streaming loop that acquires a frame reads it
    and returns it exactly once, with no other frame operation in
    between, whether or not the frame is empty; so the whole stream, cut
    off after any number of passes, obeys the ownership rule and holds no
    frame at the end of a pass. *)
Theorem stream_frame_released_once
    (hw : Hw) (iterations fuel : nat) (w : World) :
  frames_fit hw fuel ->
  (exists ctl w' evs,
      streamBody hw fuel w = Some (ctl, w') /\
      steps w w' evs /\
      match hw_fb_get hw (tick w) with
      | None => evs = [EvFbGet None; EvDelay 1000] /\ ctl = Continue
      | Some f =>
          exists body tail,
            evs = [EvFbGet (Some f); EvFbRead (fb_ptr f)] ++ body ++
                  EvFbReturn (fb_ptr f) :: tail /\
            forallb no_fb body = true /\ forallb no_fb tail = true /\
            (len f <= 0 -> body = [])
      end) /\
  (exists fin w' evs,
      handleCameraStream hw iterations fuel w = Some (fin, w') /\
      steps w w' evs /\
      fb_run None evs = Some None).
Proof.
  intros Fit. split.
  - destruct (streamBody_run hw fuel w Fit) as (ctl & w' & evs & E & S & B).
    exists ctl, w', evs. split; [exact E|]. split; [exact S|].
    destruct (hw_fb_get hw (tick w)); [|exact B].
    destruct B as (body & tail & Ev & B & T & L & _).
    exists body, tail. auto.
  - unfold handleCameraStream. unfold bind at 1, emit at 1, modify at 1.
    match goal with
    | |- context [streamLoop hw iterations fuel ?w0] =>
        destruct (streamLoop_run hw iterations fuel Fit w0)
          as (fin & w' & evs & E & S & R)
    end.
    exists fin, w'. eexists (_ :: evs).
    split; [exact E|].
    split; [eapply (steps_trans _ _ _ [_]); [apply steps_log|exact S]|].
    exact R.
Qed.

Lemma hw_camera_fit f polls fuel :
  len f + 1024 <= 2 ^ 32 -> len f + 1024 <= 1024 * Z.of_nat fuel ->
  frames_fit (hw_camera f polls) fuel.
Proof. intros A B n g H. cbn in H. inversion H; subst. auto. Qed.

Lemma stream_frame_released_once_witness :
  frames_fit (hw_camera frame0 3) 2 /\
  exists fin w' evs,
    handleCameraStream (hw_camera frame0 3) 5 2 boot = Some (fin, w') /\
    steps boot w' evs /\
    fb_run None evs = Some None.
Proof.
  assert (F : frames_fit (hw_camera frame0 3) 2).
  { apply hw_camera_fit; cbn; lia. }
  split; [exact F|].
  apply (stream_frame_released_once (hw_camera frame0 3) 5 2 boot F).
Defined.

(** What the chunk loop really sends for a frame of [fbLen] bytes: all
    of them when [fbLen] is not a multiple of 1024, and all but the last
    1024 when it is. *)
Lemma sendChunks_payload (hw : Hw) (fuel : nat) (fbBuf : list byte)
    (fbLen : Z) (w : World) :
  0 < fbLen -> fbLen + 1024 <= 2 ^ 32 ->
  fbLen + 1024 <= 1024 * Z.of_nat fuel ->
  exists w' evs,
    sendChunks fuel fbBuf 0 fbLen w = Some (tt, w') /\
    steps w w' evs /\
    payload evs =
    firstn (Z.to_nat (if fbLen mod 1024 =? 0 then fbLen - 1024 else fbLen))
           fbBuf.
Proof.
  intros Hp Hm Hf.
  destruct (sendChunks_spec fbLen Hm fuel fbBuf 0 w)
    as (w' & evs & E & S & _ & P); try lia; [reflexivity|].
  exists w', evs. split; [exact E|]. split; [exact S|].
  rewrite P. unfold sent. destruct (Z.ltb_spec 0 fbLen); [|lia].
  now rewrite !Z.sub_0_r.
Qed.

(** C2, at the failing input: a frame of exactly 1024 bytes is announced
    with [Content-Length: 1024] and then not a single payload byte is
    written; of a 2048-byte frame only the first 1024 bytes are. *)
Theorem stream_drops_last_full_chunk :
  (exists w',
      handleCameraStream (hw_camera frame1024 1) 1 2 boot = Some (true, w') /\
      In (EvClientPrint
            ("Content-Type: image/jpeg" ++ cr_lf ++ "Content-Length: 1024"
               ++ cr_lf ++ cr_lf)%string) (trace w') /\
      payload (trace w') = [] /\
      payload (trace w') <> buf frame1024) /\
  (exists w',
      handleCameraStream (hw_camera frame2048 1) 1 3 boot = Some (true, w') /\
      payload (trace w') = repeat x2a 1024 /\
      payload (trace w') <> buf frame2048).
Proof.
  split.
  - eexists. split; [vm_compute; reflexivity|].
    split; [vm_compute; auto 10|].
    split; [vm_compute; reflexivity|vm_compute; discriminate].
  - eexists. split; [vm_compute; reflexivity|].
    split; [vm_compute; reflexivity|].
    vm_compute. intros H. inversion H.
Qed.

(** ** Directory listing *)

Lemma substring_to_strip (json : string) :
  substring_to (Z.of_nat (String.length (json ++ ",")) - 1) (json ++ ",")
  = json.
Proof.
  unfold substring_to. rewrite length_append. cbn [String.length].
  replace (Z.to_nat (Z.of_nat (String.length json + 1) - 1))
    with (String.length json) by lia.
  apply take_length_app.
Qed.

Lemma listStep_after_first json count e :
  0 < count ->
  listStep (mkListState json false count) e =
  if hidden e then mkListState json false count
  else mkListState (json ++ "," ++ renderEntry e) false (count + 1).
Proof.
  intros Hc. unfold listStep, hidden, renderEntry.
  cbn [ls_first ls_json ls_fileCount negb].
  destruct (startsWith (bareName (e_name e)) "."); cbn [negb].
  - rewrite substring_to_strip. destruct (Z.eqb_spec count 0); [lia|].
    reflexivity.
  - now rewrite append_assoc.
Qed.

Lemma fold_after_first entries :
  forall json count,
    0 < count ->
    fold_left listStep entries (mkListState json false count) =
    mkListState (json ++ moreEntries (visible entries)) false
                (count + Z.of_nat (List.length (visible entries))).
Proof.
  induction entries as [|e entries IH]; intros json count Hc.
  - cbn. now rewrite append_nil_r, Z.add_0_r.
  - cbn [fold_left]. rewrite listStep_after_first by exact Hc.
    unfold visible. cbn [filter]. fold (visible entries).
    destruct (hidden e); cbn [negb].
    + now apply IH.
    + rewrite IH by lia. cbn [moreEntries fold_right List.length].
      fold (moreEntries (visible entries)).
      rewrite !append_assoc. f_equal. lia.
Qed.

Lemma listStep_before_first json e :
  listStep (mkListState json true 0) e =
  if hidden e
  then mkListState (take (String.length json - 1) json) true 0
  else mkListState (json ++ renderEntry e) false 1.
Proof.
  unfold listStep, hidden, renderEntry.
  cbn [ls_first ls_json ls_fileCount negb].
  destruct (startsWith (bareName (e_name e)) "."); cbn [negb].
  - unfold substring_to.
    replace (Z.to_nat (Z.of_nat (String.length json) - 1))
      with (String.length json - 1)%nat by lia.
    reflexivity.
  - reflexivity.
Qed.

(** Comma-separated rendering of a non-empty list, the way the loop
    builds it. *)
Lemma commaSeparated_cons e es :
  commaSeparated (map renderEntry (e :: es)) =
  (renderEntry e ++ moreEntries es)%string.
Proof.
  revert e. induction es as [|x es IH]; intros e.
  - cbn. now rewrite append_nil_r.
  - change (commaSeparated (map renderEntry (e :: x :: es)))
      with (renderEntry e ++ "," ++
            commaSeparated (map renderEntry (x :: es)))%string.
    rewrite IH. cbn [moreEntries fold_right]. reflexivity.
Qed.

Lemma fold_before_first entries :
  forall json,
    let st := fold_left listStep entries (mkListState json true 0) in
    ls_json st =
      (take (String.length json - leadingHidden entries) json ++
       commaSeparated (map renderEntry (visible entries)))%string /\
    ls_fileCount st = Z.of_nat (List.length (visible entries)).
Proof.
  induction entries as [|e entries IH]; intros json.
  - cbn. rewrite Nat.sub_0_r.
    replace (take (String.length json) json) with json.
    + now rewrite append_nil_r.
    + rewrite <- (append_nil_r json) at 3. now rewrite take_length_app.
  - cbn [fold_left]. rewrite listStep_before_first.
    unfold visible. cbn [filter leadingHidden]. fold (visible entries).
    destruct (hidden e); cbn [negb].
    + destruct (IH (take (String.length json - 1) json)) as [J C].
      split; [|exact C]. cbn zeta in J. rewrite J.
      rewrite take_take, length_take. f_equal. f_equal. lia.
    + rewrite fold_after_first by lia. cbn [ls_json ls_fileCount].
      rewrite Nat.sub_0_r, commaSeparated_cons.
      replace (take (String.length json) json) with json.
      * split; [now rewrite append_assoc|cbn [List.length]; lia].
      * rewrite <- (append_nil_r json) at 3. now rewrite take_length_app.
Qed.

(** What lines 240-282 produce for any enumeration: the count is the
    number of non-hidden entries and exactly those are rendered, but the
    header has lost one character for every hidden entry that came before
    the first visible one. *)
Lemma listJson_spec path entries :
  listJson path entries =
  ((take (String.length (listHeader path) - leadingHidden entries)
         (listHeader path)
    ++ commaSeparated (map renderEntry (visible entries))
    ++ listFooter (Z.of_nat (List.length (visible entries))))%string,
   Z.of_nat (List.length (visible entries))).
Proof.
  unfold listJson.
  destruct (fold_before_first entries (listHeader path)) as [J C].
  cbn zeta in J, C. rewrite J, C. now rewrite append_assoc.
Qed.

Lemma listJson_visible_first path entries :
  leadingHidden entries = 0%nat ->
  listJson path entries =
  (expectedListJson path entries, Z.of_nat (List.length (visible entries))).
Proof.
  intros H. rewrite listJson_spec, H, Nat.sub_0_r. unfold expectedListJson.
  replace (take (String.length (listHeader path)) (listHeader path))
    with (listHeader path); [reflexivity|].
  rewrite <- (append_nil_r (listHeader path)) at 3.
  now rewrite take_length_app.
Qed.

Lemma visible_not_hidden entries e :
  In e (visible entries) ->
  startsWith (bareName (e_name e)) "." = false.
Proof.
  unfold visible. rewrite filter_In. intros [_ H].
  unfold hidden in H. now destruct (startsWith _ _).
Qed.

(** C3, at the failing inputs: the listing never renders a hidden entry
    and counts what it renders, but when the first entry is hidden the
    loop strips the opening bracket of the list, and with hidden entries
    only it also eats into the key in front of it, so the response is not
    well-formed JSON. *)
Theorem handleFileList_hidden_first_malformed :
  (exists w' body,
      handleFileList (hw_listing hiddenFirst) 2
        (mkRequest (Some "/") None None) boot = Some (tt, w') /\
      lastBody (trace w') = Some (200, body) /\
      body = fst (listJson "/" hiddenFirst) /\
      body = ("{" ++ dq ++ "success" ++ dq ++ ":true," ++ dq ++ "path" ++ dq
                ++ ":" ++ dq ++ "/" ++ dq ++ "," ++ dq ++ "files" ++ dq ++ ":"
                ++ "{" ++ dq ++ "name" ++ dq ++ ":" ++ dq ++ "a.jpg" ++ dq
                ++ "," ++ dq ++ "isDir" ++ dq ++ ":false," ++ dq ++ "size"
                ++ dq ++ ":5}]," ++ dq ++ "count" ++ dq ++ ":1}")%string /\
      body <> expectedListJson "/" hiddenFirst /\
      count_char "[" body = 0%nat /\ count_char "]" body = 1%nat) /\
  (exists w' body,
      handleFileList (hw_listing allHidden) 2
        (mkRequest (Some "/") None None) boot = Some (tt, w') /\
      lastBody (trace w') = Some (200, body) /\
      body = ("{" ++ dq ++ "success" ++ dq ++ ":true," ++ dq ++ "path" ++ dq
                ++ ":" ++ dq ++ "/" ++ dq ++ "," ++ dq ++ "files" ++ dq
                ++ "]," ++ dq ++ "count" ++ dq ++ ":0}")%string /\
      body <> expectedListJson "/" allHidden /\
      count_char "[" body = 0%nat /\ count_char "]" body = 1%nat).
Proof.
  split.
  - eexists. eexists. split; [vm_compute; reflexivity|].
    split; [vm_compute; reflexivity|].
    split; [vm_compute; reflexivity|].
    split; [vm_compute; reflexivity|].
    split; [vm_compute; discriminate|].
    split; vm_compute; reflexivity.
  - eexists. eexists. split; [vm_compute; reflexivity|].
    split; [vm_compute; reflexivity|].
    split; [vm_compute; reflexivity|].
    split; [vm_compute; discriminate|].
    split; vm_compute; reflexivity.
Qed.

(** ** Capture *)

#[local] Arguments captureName : simpl never.
#[local] Arguments captureOk : simpl never.

Section CaptureHandlerProofs.

Variable hw : Hw.

Lemma generateImageFileName_spec prefix w :
  generateImageFileName hw prefix w =
  Some ((prefix ++ "_" ++ String_of_Z (wrap32 (hw_millis hw (tick w)))
           ++ ".jpg")%string,
        query (EvMillis (wrap32 (hw_millis hw (tick w)))) w).
Proof. reflexivity. Qed.

Lemma handleCapture_no_frame fuel w :
  hw_fb_get hw (tick w) = None ->
  handleCapture hw fuel w =
  Some (tt, log (EvSend 500 "application/json"
                   (json_error "Camera capture failed"))
              (query (EvFbGet None) (after_cors w))).
Proof.
  intros G. unfold handleCapture. unfold bind at 1. rewrite cors_steps.
  fold (after_cors w). unfold bind at 1, ask at 1.
  change (tick (after_cors w)) with (tick w). rewrite G. reflexivity.
Qed.

Lemma handleCapture_run fuel f w :
  (2 <= fuel)%nat ->
  hw_fb_get hw (tick w) = Some f ->
  exists w' evs kept,
    handleCapture hw fuel w = Some (tt, w') /\
    steps w w' evs /\
    capture_trace f kept evs.
Proof.
  intros Hf G. unfold handleCapture. unfold bind at 1. rewrite cors_steps.
  fold (after_cors w). unfold bind at 1, ask at 1.
  change (tick (after_cors w)) with (tick w). rewrite G.
  set (w0 := query (EvFbGet (Some f)) (after_cors w)).
  assert (S0 : steps w w0 (cors_headers ++ [EvFbGet (Some f)])).
  { eapply steps_trans; [apply after_cors_steps|apply steps_query]. }
  (* the tail shared by the two paths that reach the save *)
  assert (K : forall w2,
             exists t save saved w',
               (filename <- generateImageFileName hw "CAPTURE" ;;
                emit (EvFbRead (fb_ptr f)) ;;
                saved <- saveImageToSD hw fuel (buf f) (len f)
                           ("/" ++ filename)%string ;;
                emit (EvFbReturn (fb_ptr f)) ;;
                if saved then
                  send 200 "application/json"
                    ("{" ++ dq ++ "success" ++ dq ++ ":true," ++ dq
                       ++ "filename" ++ dq ++ ":" ++ dq ++ filename ++ dq
                       ++ "," ++ dq ++ "path" ++ dq ++ ":" ++ dq
                       ++ ("/" ++ filename) ++ dq ++ "}")%string
                else
                  send 500 "application/json"
                    (json_error "Failed to save image to SD card")) w2
               = Some (tt, w') /\
               steps w2 w'
                 ([EvMillis t; EvFbRead (fb_ptr f)] ++ save ++
                  [EvFbReturn (fb_ptr f); captureResponse saved t]) /\
               save_trace (len f) (buf f) ("/" ++ captureName t)%string
                 saved save).
  { intros w2. unfold bind at 1. rewrite generateImageFileName_spec.
    set (t := wrap32 (hw_millis hw (tick w2))).
    unfold bind at 1, emit at 1, modify at 1.
    unfold bind at 1.
    match goal with
    | |- context [saveImageToSD hw fuel (buf f) (len f) ?p ?w3] =>
        destruct (saveImageToSD_run hw fuel (buf f) (len f) p w3 Hf)
          as (saved & w4 & se & E & S & T);
        assert (S23 : steps w2 w3 [EvMillis t; EvFbRead (fb_ptr f)])
          by (unfold steps; cbn; list_norm; split; [reflexivity|auto])
    end.
    rewrite E. exists t, se, saved.
    destruct saved.
    - eexists. split; [run; reflexivity|]. split; [|exact T].
      eapply steps_eq.
      { eapply steps_trans; [exact S23|].
        eapply steps_trans; [exact S|].
        eapply steps_trans; [apply steps_log|apply steps_log]. }
      now list_norm.
    - eexists. split; [run; reflexivity|]. split; [|exact T].
      eapply steps_eq.
      { eapply steps_trans; [exact S23|].
        eapply steps_trans; [exact S|].
        eapply steps_trans; [apply steps_log|apply steps_log]. }
      now list_norm. }
  unfold bind at 1.
  destruct (sdNotAvailable_run hw fuel w0 Hf)
    as (b & w1 & e1 & E1 & S1 & T1 & _).
  rewrite E1. destruct b.
  - unfold bind at 1, bind at 1, emit at 1, modify at 1. unfold bind at 1.
    destruct (forceReinitializeSDCard_run hw fuel
                (log (EvFbReturn (fb_ptr f)) w1) ltac:(lia))
      as (r2 & w2 & e2 & (E2 & S2 & T2 & _) & _).
    rewrite E2. destruct r2; cbn [negb].
    + unfold ret at 1. cbn [negb].
      destruct (K w2) as (t & save & saved & w' & E & S & T).
      exists w'. eexists. exists false. split; [exact E|]. split.
      2:{ eapply capture_reconnected with (pre1 := e1) (pre2 := e2); eauto. }
      eapply steps_eq.
      { eapply steps_trans; [exact S0|]. eapply steps_trans; [exact S1|].
        eapply steps_trans; [apply steps_log|].
        eapply steps_trans; [exact S2|exact S]. }
      now list_norm.
    + run. eexists. eexists. exists true. split; [reflexivity|]. split.
      2:{ eapply capture_no_card with (pre1 := e1) (pre2 := e2); eauto. }
      eapply steps_eq.
      { eapply steps_trans; [exact S0|]. eapply steps_trans; [exact S1|].
        eapply steps_trans; [apply steps_log|].
        eapply steps_trans; [exact S2|apply steps_log]. }
      now list_norm.
  - unfold bind at 1, ret at 1. cbn [negb].
    destruct (K w1) as (t & save & saved & w' & E & S & T).
    exists w'. eexists. exists true. split; [exact E|]. split.
    2:{ eapply capture_direct with (pre := e1); eauto. }
    eapply steps_eq.
    { eapply steps_trans; [exact S0|]. eapply steps_trans; [exact S1|].
      exact S. }
    now list_norm.
Qed.

End CaptureHandlerProofs.

Lemma transport_no_fb evs :
  forallb transport_event evs = true -> forallb no_fb evs = true.
Proof.
  induction evs as [|e evs IH]; cbn; [reflexivity|].
  intros H. apply andb_true_iff in H as [H1 H2].
  rewrite (IH H2). destruct e; cbn in H1; try discriminate; reflexivity.
Qed.

Lemma save_trace_no_fb length buffer filepath r evs :
  save_trace length buffer filepath r evs -> forallb no_fb evs = true.
Proof.
  intros H; destruct H; rewrite ?forallb_app;
    rewrite transport_no_fb by assumption; reflexivity.
Qed.

(** The ownership rule holds on the runs marked [true] and is broken on
    the reconnection path: the frame is returned, then read for the save,
    then returned again. *)
Lemma capture_trace_discipline f kept evs :
  capture_trace f kept evs ->
  fb_run None evs = (if kept then Some None else None) /\
  count_returns (fb_ptr f) evs = (if kept then 1 else 2)%nat.
Proof.
  assert (R : forall l, forallb no_fb l = true ->
                        count_returns (fb_ptr f) l = 0%nat).
  { unfold count_returns. induction l as [|e l IH]; cbn; [reflexivity|].
    intros H. apply andb_true_iff in H as [H1 H2].
    destruct e; cbn in H1; try discriminate; auto. }
  assert (A : forall a b, count_returns (fb_ptr f) (a ++ b) =
                          (count_returns (fb_ptr f) a +
                           count_returns (fb_ptr f) b)%nat).
  { intros a b. unfold count_returns. now rewrite filter_app, length_app. }
  assert (One : forall l, count_returns (fb_ptr f) (EvFbReturn (fb_ptr f) :: l)
                          = Datatypes.S (count_returns (fb_ptr f) l)).
  { intros l. unfold count_returns. cbn. now rewrite N.eqb_refl. }
  intros H; destruct H as [pre t save saved P S|pre1 pre2 P1 P2
                          |pre1 pre2 t save saved P1 P2 S].
  - pose proof (transport_no_fb _ P) as P'.
    pose proof (save_trace_no_fb _ _ _ _ _ S) as S'.
    split.
    + change cors_headers with ([] ++ cors_headers).
      simpl. rewrite fb_run_app, (fb_run_no_fb _ _ P'). simpl.
      rewrite N.eqb_refl, fb_run_app, (fb_run_no_fb _ _ S'). simpl.
      rewrite N.eqb_refl. now destruct saved.
    + rewrite !A, (R _ P'), (R _ S'). cbn [app]. rewrite One.
      destruct saved; reflexivity.
  - pose proof (transport_no_fb _ P1) as P1'.
    pose proof (transport_no_fb _ P2) as P2'.
    split.
    + simpl. rewrite fb_run_app, (fb_run_no_fb _ _ P1'). simpl.
      rewrite N.eqb_refl, fb_run_app, (fb_run_no_fb _ _ P2'). reflexivity.
    + rewrite !A, (R _ P1'), (R _ P2'). cbn [app]. rewrite One.
      reflexivity.
  - pose proof (transport_no_fb _ P1) as P1'.
    pose proof (transport_no_fb _ P2) as P2'.
    pose proof (save_trace_no_fb _ _ _ _ _ S) as S'.
    split.
    + simpl. rewrite fb_run_app, (fb_run_no_fb _ _ P1'). simpl.
      rewrite N.eqb_refl, fb_run_app, (fb_run_no_fb _ _ P2'). reflexivity.
    + rewrite !A, (R _ P1'), (R _ P2'), (R _ S'). cbn [app].
      rewrite !One. destruct saved; reflexivity.
Qed.

(** C1, at the failing input: the card fails the six mount attempts of
    the storage guard and comes up in the forced reinitialization.  The
    handler has by then returned the frame; it goes on to read the frame
    for the save and returns it a second time, and answers 200. *)
Theorem handleCapture_reconnect_reuses_released_frame :
  exists w' pre mid post,
    handleCapture (hw_late_card frame3 7) 2 boot = Some (tt, w') /\
    capture_trace frame3 false (trace w') /\
    trace w' = pre ++ EvFbReturn (fb_ptr frame3) :: mid ++
               EvFbRead (fb_ptr frame3) :: post /\
    In (EvFileWrite (buf frame3) 3 3) post /\
    In (EvFbReturn (fb_ptr frame3)) post /\
    count_returns (fb_ptr frame3) (trace w') = 2%nat /\
    fb_run None (trace w') = None /\
    lastBody (trace w') = Some (200, captureOk (captureName 12)).
Proof.
  eexists.
  exists (cors_headers ++
          [EvFbGet (Some frame3); EvSetPins false; EvDelay 1000;
           EvSetPins false; EvDelay 1000; EvSetPins false; EvSpiBegin;
           EvBegin SPI false; EvDelay 1000; EvSpiBegin; EvBegin SPI false;
           EvDelay 1000; EvSpiBegin; EvBegin SPI false]).
  exists [EvEnd MMC; EvDelay 500; EvSetPins true; EvBegin MMC true;
          EvDelay 100; EvCardType MMC 2; EvVerifyRoot MMC (Some rootDir);
          EvClose; EvMillis 11; EvMillis 12].
  exists [EvMillis 13;
          EvOpen MMC ("/" ++ captureName 12)%string true (Some rootDir);
          EvFileWrite (buf frame3) 3 3; EvClose;
          EvFbReturn (fb_ptr frame3);
          EvSend 200 "application/json" (captureOk (captureName 12))].
  split; [vm_compute; reflexivity|].
  split.
  { exact (capture_reconnected frame3
             [EvSetPins false; EvDelay 1000; EvSetPins false; EvDelay 1000;
              EvSetPins false; EvSpiBegin; EvBegin SPI false; EvDelay 1000;
              EvSpiBegin; EvBegin SPI false; EvDelay 1000; EvSpiBegin;
              EvBegin SPI false]
             [EvEnd MMC; EvDelay 500; EvSetPins true; EvBegin MMC true;
              EvDelay 100; EvCardType MMC 2; EvVerifyRoot MMC (Some rootDir);
              EvClose; EvMillis 11] 12 _ _ eq_refl eq_refl
             (save_written 3 (buf frame3) ("/" ++ captureName 12)%string
                [EvMillis 13] MMC rootDir 3 eq_refl)). }
  split; [vm_compute; reflexivity|].
  split; [cbn; auto 10|].
  split; [cbn; auto 10|].
  split; [vm_compute; reflexivity|].
  split; vm_compute; reflexivity.
Qed.

(** For every state in which the camera has a frame ready, the capture
    handler returns and its frame operations follow one of the three
    shapes of [capture_trace]; the ownership rule holds except on the
    reconnection path. *)
Lemma handleCapture_frame_lifecycle (hw : Hw) (fuel : nat) (f : camera_fb_t)
    (w : World) :
  (2 <= fuel)%nat ->
  hw_fb_get hw (tick w) = Some f ->
  exists w' evs kept,
    handleCapture hw fuel w = Some (tt, w') /\
    steps w w' evs /\
    capture_trace f kept evs /\
    fb_run None evs = (if kept then Some None else None) /\
    count_returns (fb_ptr f) evs = (if kept then 1 else 2)%nat.
Proof.
  intros Hf G.
  destruct (handleCapture_run hw fuel f w Hf G)
    as (w' & evs & kept & E & S & T).
  exists w', evs, kept. split; [exact E|]. split; [exact S|].
  split; [exact T|]. now apply capture_trace_discipline.
Qed.

Lemma save_trace_no_send length buffer filepath r evs code ct body :
  save_trace length buffer filepath r evs -> ~ In (EvSend code ct body) evs.
Proof.
  intros H I; destruct H;
    try (apply in_app_or in I as [I|I]); try not_transport;
    repeat (destruct I as [I|I]; [discriminate|]); destruct I.
Qed.

Lemma capture_trace_response f kept evs ct body :
  capture_trace f kept evs ->
  In (EvSend 200 ct body) evs ->
  exists t, body = captureOk (captureName t).
Proof.
  intros H I.
  destruct H as [pre t save saved P S|pre1 pre2 P1 P2
                |pre1 pre2 t save saved P1 P2 S];
    repeat (apply in_app_or in I as [I|I];
            [first [not_transport
                   |exfalso; eapply save_trace_no_send; eassumption
                   |repeat (destruct I as [I|I]; [discriminate|]); destruct I]
            |]);
    repeat (destruct I as [I|I]; [try discriminate|]); try contradiction.
  - exists t. destruct saved; cbn in I; [now inversion I|discriminate].
  - exists t. destruct saved; cbn in I; [now inversion I|discriminate].
Qed.

Lemma saveImageToSD_guarded (hw : Hw) fuel buffer length filepath w :
  saveImageToSD hw fuel buffer length filepath w =
  match initializeSDCard hw fuel w with
  | Some (true, w1) => Some (saveOutcome hw buffer length filepath w1)
  | Some (false, w1) => Some (false, w1)
  | None => None
  end.
Proof.
  unfold saveImageToSD. unfold bind at 1.
  destruct (initializeSDCard hw fuel w) as [[[|] w1]|];
    [| |reflexivity]; cbn [negb]; [|reflexivity].
  unfold bind at 1. rewrite sd_open_spec. unfold saveOutcome. cbv zeta.
  destruct (hw_open hw (activeMode w1) filepath true (tick w1)) as [h|];
    [|reflexivity].
  cbn [file_ok negb]. run. now destruct (_ =? _).
Qed.

(** [handleCapture] from the moment the storage guard has let it through
    in state [w2]: the clock is read, the frame is handed to
    [saveImageToSD] under the name made of that reading, the frame is
    returned, and the answer follows the result of the save. *)
Lemma handleCapture_guarded (hw : Hw) fuel f w :
  hw_fb_get hw (tick w) = Some f ->
  handleCapture hw fuel w =
  let save w2 :=
    let t := wrap32 (hw_millis hw (tick w2)) in
    match saveImageToSD hw fuel (buf f) (len f)
            ("/" ++ captureName t)%string
            (log (EvFbRead (fb_ptr f)) (query (EvMillis t) w2)) with
    | Some (saved, w3) =>
        Some (tt, log (captureResponse saved t)
                    (log (EvFbReturn (fb_ptr f)) w3))
    | None => None
    end in
  match sdNotAvailable hw fuel (query (EvFbGet (Some f)) (after_cors w)) with
  | Some (false, w1) => save w1
  | Some (true, w1) =>
      match forceReinitializeSDCard hw fuel
              (log (EvFbReturn (fb_ptr f)) w1) with
      | Some (true, w2) => save w2
      | Some (false, w2) =>
          Some (tt,
                log (EvSend 500 "application/json"
                       (json_error "SD Card not available for saving image"))
                  w2)
      | None => None
      end
  | None => None
  end.
Proof.
  intros G. cbv zeta. unfold handleCapture. unfold bind at 1.
  rewrite cors_steps. fold (after_cors w). unfold bind at 1, ask at 1.
  change (tick (after_cors w)) with (tick w). rewrite G.
  set (w0 := query (EvFbGet (Some f)) (after_cors w)).
  assert (K : forall w2,
             (filename <- generateImageFileName hw "CAPTURE" ;;
              emit (EvFbRead (fb_ptr f)) ;;
              saved <- saveImageToSD hw fuel (buf f) (len f)
                         ("/" ++ filename)%string ;;
              emit (EvFbReturn (fb_ptr f)) ;;
              if saved then
                send 200 "application/json"
                  ("{" ++ dq ++ "success" ++ dq ++ ":true," ++ dq
                     ++ "filename" ++ dq ++ ":" ++ dq ++ filename ++ dq
                     ++ "," ++ dq ++ "path" ++ dq ++ ":" ++ dq
                     ++ ("/" ++ filename) ++ dq ++ "}")%string
              else
                send 500 "application/json"
                  (json_error "Failed to save image to SD card")) w2
             = match saveImageToSD hw fuel (buf f) (len f)
                       ("/" ++ captureName (wrap32 (hw_millis hw (tick w2))))
                       (log (EvFbRead (fb_ptr f))
                          (query (EvMillis (wrap32 (hw_millis hw (tick w2))))
                             w2)) with
               | Some (saved, w3) =>
                   Some (tt,
                         log (captureResponse saved
                                (wrap32 (hw_millis hw (tick w2))))
                           (log (EvFbReturn (fb_ptr f)) w3))
               | None => None
               end).
  { intros w2. unfold bind at 1. rewrite generateImageFileName_spec.
    unfold bind at 1, emit at 1, modify at 1. unfold bind at 1.
    fold (captureName (wrap32 (hw_millis hw (tick w2)))).
    match goal with
    | |- context [saveImageToSD hw fuel (buf f) (len f) ?p ?w3] =>
        change (saveImageToSD hw fuel (buf f) (len f) p w3) with
          (saveImageToSD hw fuel (buf f) (len f)
             ("/" ++ captureName (wrap32 (hw_millis hw (tick w2))))
             (log (EvFbRead (fb_ptr f))
                (query (EvMillis (wrap32 (hw_millis hw (tick w2)))) w2)))
    end.
    destruct (saveImageToSD _ _ _ _ _ _) as [[[|] w3]|]; reflexivity. }
  unfold bind at 1.
  destruct (sdNotAvailable hw fuel w0) as [[[|] w1]|]; [| |reflexivity].
  - unfold bind at 1, bind at 1, emit at 1, modify at 1. unfold bind at 1.
    change (snd (tt, log (EvFbReturn (fb_ptr f)) w1))
      with (log (EvFbReturn (fb_ptr f)) w1).
    destruct (forceReinitializeSDCard hw fuel
                (log (EvFbReturn (fb_ptr f)) w1)) as [[[|] w2]|];
      [| |reflexivity]; cbn [negb].
    + unfold ret at 1. cbn [negb]. apply K.
    + reflexivity.
  - unfold bind at 1, ret at 1. cbn [negb]. apply K.
Qed.

(** C7: the generated name is the prefix, an underscore, the decimal
    digits of the millisecond clock and [.jpg].  A capture that gets a
    frame and passes the storage guard (at once, or after a forced
    reinitialization that succeeds) reads the clock once, saves the frame
    under [/CAPTURE_<that reading>.jpg] and answers 200 with that name
    when the save reports success and 500 when it does not; a capture
    that gets no frame, or finds no card, generates no name and answers
    500.  What is saved is the frame's buffer and length on the path
    where the guard passes at once; on the path through the
    reinitialization the frame has been returned before it is read, and
    nothing is said of the bytes handed to the save.  Saving returns [false] when the transport does not come up or
    the file does not open, and otherwise writes the frame's [length]
    bytes and returns whether the number written equals [length], so a
    short write is a failure. *)
Theorem capture_filename_and_save (hw : Hw) (fuel : nat) (w : World) :
  (2 <= fuel)%nat ->
  (forall prefix, exists ds,
      generateImageFileName hw prefix w =
      Some ((prefix ++ "_" ++ ds ++ ".jpg")%string,
            query (EvMillis (wrap32 (hw_millis hw (tick w)))) w) /\
      ds <> ""%string /\ all_digits ds = true /\
      digits_value ds = Some (Z.to_N (wrap32 (hw_millis hw (tick w))))) /\
  (forall f, hw_fb_get hw (tick w) = Some f ->
   exists w' evs,
     handleCapture hw fuel w = Some (tt, w') /\
     steps w w' evs /\
     forall ct body,
       In (EvSend 200 ct body) evs ->
       exists ds,
         body = captureOk ("CAPTURE" ++ "_" ++ ds ++ ".jpg")%string /\
         ds <> ""%string /\ all_digits ds = true) /\
  (forall buffer length filepath, exists r w' evs,
      saveImageToSD hw fuel buffer length filepath w = Some (r, w') /\
      steps w w' evs /\
      (r = true <->
       exists data written,
         In (EvFileWrite data length written) evs /\ written = length) /\
      (forall data requested written,
          In (EvFileWrite data requested written) evs ->
          written <> length -> r = false)) /\
  (forall buffer length filepath, exists up w1,
      initializeSDCard hw fuel w = Some (up, w1) /\
      saveImageToSD hw fuel buffer length filepath w =
      Some (if up then saveOutcome hw buffer length filepath w1
            else (false, w1))) /\
  (hw_fb_get hw (tick w) = None ->
   handleCapture hw fuel w =
   Some (tt, log (EvSend 500 "application/json"
                    (json_error "Camera capture failed"))
               (query (EvFbGet None) (after_cors w)))) /\
  (forall f, hw_fb_get hw (tick w) = Some f ->
   exists unavailable w1,
     sdNotAvailable hw fuel (query (EvFbGet (Some f)) (after_cors w))
     = Some (unavailable, w1) /\
     exists up w2,
       (if unavailable
        then forceReinitializeSDCard hw fuel
               (log (EvFbReturn (fb_ptr f)) w1) = Some (up, w2)
        else up = true /\ w2 = w1) /\
       if up then
         let t := wrap32 (hw_millis hw (tick w2)) in
         exists buffer length saved w3,
           (unavailable = false -> buffer = buf f /\ length = len f) /\
           saveImageToSD hw fuel buffer length
             ("/" ++ captureName t)%string
             (log (EvFbRead (fb_ptr f)) (query (EvMillis t) w2))
           = Some (saved, w3) /\
           handleCapture hw fuel w =
           Some (tt, log (captureResponse saved t)
                       (log (EvFbReturn (fb_ptr f)) w3))
       else
         handleCapture hw fuel w =
         Some (tt,
               log (EvSend 500 "application/json"
                      (json_error "SD Card not available for saving image"))
                 w2)).
Proof.
  intros Hf. split; [|split; [|split; [|split; [|split]]]].
  - intros prefix. exists (String_of_Z (wrap32 (hw_millis hw (tick w)))).
    split; [reflexivity|].
    split; [apply String_of_Z_nonempty|].
    split; [apply String_of_Z_digits|apply String_of_Z_value].
  - intros f G.
    destruct (handleCapture_run hw fuel f w Hf G)
      as (w' & evs & kept & E & S & T).
    exists w', evs. split; [exact E|]. split; [exact S|].
    intros ct body I.
    destruct (capture_trace_response _ _ _ _ _ T I) as (t & ->).
    exists (String_of_Z t). split; [reflexivity|].
    split; [apply String_of_Z_nonempty|apply String_of_Z_digits].
  - intros buffer length filepath.
    destruct (saveImageToSD_run hw fuel buffer length filepath w Hf)
      as (r & w' & evs & E & S & T).
    exists r, w', evs. split; [exact E|]. split; [exact S|].
    destruct (save_trace_writes _ _ _ _ _ T) as [W1 W2].
    split; [split|].
    + exact W1.
    + intros (d & x & I & ->). destruct (W2 _ _ _ I) as (_ & _ & ->).
      apply Z.eqb_refl.
    + intros d q x I N. destruct (W2 _ _ _ I) as (_ & _ & ->).
      now apply Z.eqb_neq.
  - intros buffer length filepath. rewrite saveImageToSD_guarded.
    destruct (initializeSDCard_run hw fuel w Hf)
      as (up & w1 & e1 & (E1 & _) & _).
    exists up, w1. rewrite E1. split; [reflexivity|]. now destruct up.
  - apply handleCapture_no_frame.
  - intros f G. rewrite (handleCapture_guarded hw fuel f w G). cbv zeta.
    destruct (sdNotAvailable_run hw fuel
                (query (EvFbGet (Some f)) (after_cors w)) Hf)
      as (b & w1 & e1 & E1 & _).
    exists b, w1. rewrite E1. split; [reflexivity|].
    assert (K : forall w2, exists saved w3,
                 saveImageToSD hw fuel (buf f) (len f)
                   ("/" ++ captureName (wrap32 (hw_millis hw (tick w2))))
                   (log (EvFbRead (fb_ptr f))
                      (query (EvMillis (wrap32 (hw_millis hw (tick w2))))
                         w2)) = Some (saved, w3)).
    { intros w2.
      destruct (saveImageToSD_run hw fuel (buf f) (len f)
                  ("/" ++ captureName (wrap32 (hw_millis hw (tick w2))))
                  (log (EvFbRead (fb_ptr f))
                     (query (EvMillis (wrap32 (hw_millis hw (tick w2))))
                        w2)) Hf) as (saved & w3 & e3 & E3 & _).
      eauto. }
    destruct b.
    + destruct (forceReinitializeSDCard_run hw fuel
                  (log (EvFbReturn (fb_ptr f)) w1) ltac:(lia))
        as (up & w2 & e2 & (E2 & _) & _).
      exists up, w2. rewrite E2. split; [reflexivity|].
      destruct up; [|reflexivity].
      destruct (K w2) as (saved & w3 & E3).
      exists (buf f), (len f), saved, w3.
      split; [discriminate|]. split; [exact E3|]. now rewrite E3.
    + exists true, w1. split; [auto|].
      destruct (K w1) as (saved & w3 & E3).
      exists (buf f), (len f), saved, w3.
      split; [auto|]. split; [exact E3|]. now rewrite E3.
Qed.

Lemma capture_filename_and_save_witness :
  (2 <= 2)%nat /\
  hw_fb_get (hw_camera frame3 1) (tick mounted_world) = Some frame3 /\
  (exists w',
      handleCapture (hw_camera frame3 1) 2 mounted_world = Some (tt, w') /\
      In (EvMillis 3) (trace w') /\
      In (EvOpen MMC ("/" ++ captureName 3) true (Some rootDir))
        (trace w') /\
      In (EvFileWrite [x01; x02; x03] 3 3) (trace w') /\
      lastBody (trace w') = Some (200, captureOk "CAPTURE_3.jpg")) /\
  (exists w',
      handleCapture (hw_camera_short_write frame3) 2 mounted_world
      = Some (tt, w') /\
      In (EvFileWrite [x01; x02; x03] 3 2) (trace w') /\
      lastBody (trace w') =
      Some (500, json_error "Failed to save image to SD card")).
Proof.
  split; [lia|]. split; [reflexivity|]. split.
  - destruct (capture_filename_and_save (hw_camera frame3 1) 2
                mounted_world (Nat.le_refl 2))
      as (_ & _ & _ & _ & _ & C).
    destruct (C frame3 eq_refl) as (b & w1 & E1 & up & w2 & G & R).
    vm_compute in E1. injection E1 as <- <-.
    destruct G as [-> ->]. cbv zeta in R.
    destruct R as (buffer & length & saved & w3 & B & E3 & E).
    destruct (B eq_refl) as [-> ->].
    vm_compute in E3. injection E3 as <- <-.
    eexists. split; [exact E|]. vm_compute. auto 20.
  - destruct (capture_filename_and_save (hw_camera_short_write frame3) 2
                mounted_world (Nat.le_refl 2))
      as (_ & _ & _ & _ & _ & C).
    destruct (C frame3 eq_refl) as (b & w1 & E1 & up & w2 & G & R).
    vm_compute in E1. injection E1 as <- <-.
    destruct G as [-> ->]. cbv zeta in R.
    destruct R as (buffer & length & saved & w3 & B & E3 & E).
    destruct (B eq_refl) as [-> ->].
    vm_compute in E3. injection E3 as <- <-.
    eexists. split; [exact E|]. vm_compute. auto 20.
Defined.

(** ** Upload *)

(** The answer to an upload depends on the transport only: whenever the
    card is available the handler answers 200, whatever the session's
    error flag says, and it leaves the flag as it found it. *)
Lemma handleFileUploadResponse_run (hw : Hw) (fuel : nat) (w : World) :
  (2 <= fuel)%nat ->
  exists w' pre,
    handleFileUploadResponse hw fuel w = Some (tt, w') /\
    forallb transport_event pre = true /\
    uploadError w' = uploadError w /\
    ((sdCardInitialized w' = false /\
      steps w w' (cors_headers ++ pre ++
                  [EvSend 500 "application/json"
                     (json_error "SD Card not available")])) \/
     (sdCardInitialized w' = true /\
      steps w w' (cors_headers ++ pre ++
                  [EvSend 200 "application/json" uploadOk]))).
Proof.
  intros Hf. unfold handleFileUploadResponse. unfold bind at 1.
  rewrite cors_steps. fold (after_cors w). unfold bind at 1.
  destruct (sdNotAvailable_run hw fuel (after_cors w) Hf)
    as (b & w1 & e1 & E1 & S1 & T1 & I1).
  rewrite E1. destruct b; run.
  - eexists. exists e1. split; [reflexivity|]. split; [exact T1|].
    split; [cbn; apply S1|]. left. split; [exact I1|].
    eapply steps_eq.
    { eapply steps_trans; [apply after_cors_steps|].
      eapply steps_trans; [exact S1|apply steps_log]. }
    now list_norm.
  - eexists. exists e1. split; [reflexivity|]. split; [exact T1|].
    split; [cbn; apply S1|]. right. split; [exact I1|].
    eapply steps_eq.
    { eapply steps_trans; [apply after_cors_steps|].
      eapply steps_trans; [exact S1|apply steps_log]. }
    now list_norm.
Qed.

(** C4, at the failing inputs: an upload whose only chunk is written
    short, and an upload whose file cannot be opened in any of the three
    tries, both end with the session's error flag set and are answered
    with 200 and the success message. *)
Theorem failed_upload_reported_as_success :
  (exists w',
      uploadRequest hw_short_write 2 (mkRequest (Some "/") None None)
        fourBytes boot = Some (tt, w') /\
      In (EvFileWrite [x01; x02; x03; x04] 4 3) (trace w') /\
      uploadError w' = true /\
      lastBody (trace w') = Some (200, uploadOk)) /\
  (exists w',
      uploadRequest hw_read_only 2 (mkRequest (Some "/") None None)
        fourBytes boot = Some (tt, w') /\
      count_occ_open_failures (trace w') = 3%nat /\
      uploadError w' = true /\
      lastBody (trace w') = Some (200, uploadOk)).
Proof.
  split.
  - eexists. split; [vm_compute; reflexivity|].
    split; [cbn; auto 20|]. split; vm_compute; reflexivity.
  - eexists. split; [vm_compute; reflexivity|].
    split; [vm_compute; reflexivity|]. split; vm_compute; reflexivity.
Qed.

(** ** The list handler as a whole *)

#[local] Arguments listJson : simpl never.
#[local] Arguments requestedPath : simpl never.

Section ListHandlerProofs.

Variable hw : Hw.

Lemma openDirRetry_run fuel path retries :
  (1 <= fuel)%nat ->
  forall w, exists root w' evs,
    openDirRetry hw fuel path retries w = Some (root, w') /\
    steps w w' evs /\
    open_attempts path root evs.
Proof.
  intros Hf. induction retries as [|k IH]; intros w.
  - exists None, w, []. split; [reflexivity|]. split; [apply steps_refl|].
    constructor.
  - cbn [openDirRetry]. unfold bind at 1. rewrite sd_open_spec.
    destruct (hw_open hw (activeMode w) path false (tick w)) as [h|] eqn:O;
      cbn [file_ok].
    + exists (Some h). eexists. eexists. split; [reflexivity|].
      split; [apply steps_query|]. constructor.
    + unfold bind at 1.
      set (w0 := query (EvOpen (activeMode w) path false None) w).
      assert (P : exists w1 pre,
                 when (0 <? k)%nat
                   (delay 100 ;;
                    _ <- forceReinitializeSDCard hw fuel ;; ret tt) w0
                 = Some (tt, w1) /\
                 steps w0 w1 pre /\ forallb transport_event pre = true).
      { destruct (0 <? k)%nat; cbn [when].
        - unfold bind at 1, delay, emit, modify. unfold bind at 1.
          destruct (forceReinitializeSDCard_run hw fuel
                      (log (EvDelay 100) w0) Hf)
            as (r & w1 & e1 & (E1 & S1 & T1 & _) & _).
          rewrite E1. exists w1, (EvDelay 100 :: e1).
          split; [reflexivity|].
          split; [eapply (steps_trans _ _ _ [_]); [apply steps_log|exact S1]|].
          cbn. exact T1.
        - exists w0, []. split; [reflexivity|].
          split; [apply steps_refl|reflexivity]. }
      destruct P as (w1 & pre & E1 & S1 & T1). rewrite E1.
      destruct (IH w1) as (root & w2 & e2 & E2 & S2 & A2).
      exists root, w2, (EvOpen (activeMode w) path false None :: pre ++ e2).
      split; [exact E2|].
      split; [|now constructor].
      eapply (steps_trans _ _ _ [_]); [apply steps_query|].
      eapply steps_trans; eauto.
Qed.

Lemma handleFileList_run fuel req w :
  (2 <= fuel)%nat ->
  exists w' evs,
    handleFileList hw fuel req w = Some (tt, w') /\
    steps w w' evs /\
    list_trace (requestedPath req) evs.
Proof.
  intros Hf. unfold handleFileList. unfold bind at 1. rewrite cors_steps.
  fold (after_cors w). fold (requestedPath req).
  set (path := requestedPath req).
  assert (K : forall w2 pre,
             steps (after_cors w) w2 pre ->
             forallb transport_event pre = true ->
             exists w' evs,
               (root <- openDirRetry hw fuel path 3 ;;
                match root with
                | None =>
                    send 404 "application/json"
                      (json_error "Directory not found or SD card error")
                | Some h =>
                    if negb (h_isDirectory h) then
                      emit EvClose ;;
                      send 404 "application/json"
                        (json_error "Path is not a directory")
                    else
                      emit EvClose ;;
                      send 200 "application/json"
                        (fst (listJson path (h_entries h)))
                end) w2 = Some (tt, w') /\
               steps w w' evs /\ list_trace path evs).
  { intros w2 pre S2 T2. unfold bind at 1.
    destruct (openDirRetry_run fuel path 3 ltac:(lia) w2)
      as (root & w3 & e3 & E3 & S3 & A3).
    rewrite E3. destruct root as [h|].
    - destruct (h_isDirectory h) eqn:D; cbn [negb].
      + eexists. eexists. split; [run; reflexivity|].
        split; [|eapply list_listed with (pre := pre); eauto].
        eapply steps_eq.
        { eapply steps_trans; [apply after_cors_steps|].
          eapply steps_trans; [exact S2|].
          eapply steps_trans; [exact S3|].
          eapply steps_trans; [apply steps_log|apply steps_log]. }
        now list_norm.
      + eexists. eexists. split; [run; reflexivity|].
        split; [|eapply list_not_directory with (pre := pre); eauto].
        eapply steps_eq.
        { eapply steps_trans; [apply after_cors_steps|].
          eapply steps_trans; [exact S2|].
          eapply steps_trans; [exact S3|].
          eapply steps_trans; [apply steps_log|apply steps_log]. }
        now list_norm.
    - eexists. eexists. split; [run; reflexivity|].
      split; [|eapply list_not_found with (pre := pre); eauto].
      eapply steps_eq.
      { eapply steps_trans; [apply after_cors_steps|].
        eapply steps_trans; [exact S2|].
        eapply steps_trans; [exact S3|apply steps_log]. }
      now list_norm. }
  unfold bind at 1.
  destruct (sdNotAvailable_run hw fuel (after_cors w) Hf)
    as (b & w1 & e1 & E1 & S1 & T1 & _).
  rewrite E1. destruct b.
  - unfold bind at 1, bind at 1.
    destruct (forceReinitializeSDCard_run hw fuel w1 ltac:(lia))
      as (r2 & w2 & e2 & (E2 & S2 & T2 & _) & _).
    rewrite E2. destruct r2; cbn [negb].
    + unfold ret at 1. cbn [negb].
      apply (K w2 (e1 ++ e2)); [eapply steps_trans; eauto|].
      rewrite forallb_app, T1, T2; reflexivity.
    + eexists. eexists. split; [run; reflexivity|].
      split; [|apply list_no_card with (pre := e1 ++ e2);
               rewrite forallb_app, T1, T2; reflexivity].
      eapply steps_eq.
      { eapply steps_trans; [apply after_cors_steps|].
        eapply steps_trans; [exact S1|].
        eapply steps_trans; [exact S2|apply steps_log]. }
      now list_norm.
  - unfold bind at 1, ret at 1. cbn [negb].
    apply (K w1 e1); auto.
Qed.

End ListHandlerProofs.








Lemma open_attempts_no_send path root evs code ct body :
  open_attempts path root evs -> ~ In (EvSend code ct body) evs.
Proof.
  induction 1 as [|m h|m pre root rest T A IH]; intros I.
  - destruct I.
  - destruct I as [I|[]]. discriminate.
  - destruct I as [I|I]; [discriminate|].
    apply in_app_or in I as [I|I]; [not_transport|auto].
Qed.

(** Every listing the handler sends has the non-hidden entries, in
    order, and their number as the count; its header is short of one
    character for every hidden entry in front of the first visible
    one. *)
Lemma list_trace_body path evs ct body :
  list_trace path evs ->
  In (EvSend 200 ct body) evs ->
  exists entries,
    body =
    (take (String.length (listHeader path) - leadingHidden entries)
          (listHeader path)
     ++ commaSeparated (map renderEntry (visible entries))
     ++ listFooter (Z.of_nat (List.length (visible entries))))%string /\
    (leadingHidden entries = 0%nat -> body = expectedListJson path entries) /\
    forall e, In e (visible entries) ->
              startsWith (bareName (e_name e)) "." = false.
Proof.
  intros H I; destruct H;
    (apply in_app_or in I as [I|I];
     [repeat (destruct I as [I|I]; [discriminate|]); destruct I|]);
    (apply in_app_or in I as [I|I]; [not_transport|]);
    try (apply in_app_or in I as [I|I];
         [exfalso; eapply open_attempts_no_send; eassumption|]);
    repeat (destruct I as [I|I]; [try discriminate|]); try contradiction.
  assert (Hb : body = fst (listJson path (h_entries h)))
    by (injection I as _ <-; reflexivity).
  rewrite Hb. exists (h_entries h).
  split; [now rewrite listJson_spec|].
  split; [|apply visible_not_hidden].
  intros L. now rewrite listJson_visible_first.
Qed.

(** * Further properties of the storage transport *)

Section TransportExtras.

Variable hw : Hw.

Lemma replay_mounts_app st e1 e2 :
  replay_mounts st (e1 ++ e2) =
  match replay_mounts st e1 with
  | Some st' => replay_mounts st' e2
  | None => None
  end.
Proof.
  revert st. induction e1 as [|e e1 IH]; intros st; [reflexivity|].
  destruct e; simpl; try apply IH.
  - destruct m, ok; simpl; try apply IH;
      destruct (fst st || snd st); simpl; auto.
  - destruct m; apply IH.
Qed.

Lemma attempt_trace_replay m o evs :
  attempt_trace m o evs ->
  replay_mounts (false, false) evs = Some (mounted_as (tagged m o)).
Proof.
  intros H; destruct H;
    try match goal with m : Mode |- _ => destruct m end; reflexivity.
Qed.

Lemma attempts_replay m n o evs :
  attempts m n o evs ->
  replay_mounts (false, false) evs = Some (mounted_as (tagged m o)).
Proof.
  induction 1 as [|n t evs H|n o evs rest H _ IH].
  - reflexivity.
  - now apply attempt_trace_replay.
  - rewrite replay_mounts_app, (attempt_trace_replay _ _ _ H).
    cbn [tagged mounted_as].
    rewrite replay_mounts_app. unfold backoff.
    destruct (0 <? n)%nat; exact IH.
Qed.

Lemma init_trace_replay o evs :
  init_trace o evs ->
  replay_mounts (false, false) evs = Some (mounted_as o).
Proof.
  intros H; destruct H as [t e A|t e1 e2 A1 A2|e1 e2 A1 A2].
  - exact (attempts_replay _ _ _ _ A).
  - rewrite replay_mounts_app, (attempts_replay _ _ _ _ A1).
    exact (attempts_replay _ _ _ _ A2).
  - rewrite replay_mounts_app, (attempts_replay _ _ _ _ A1).
    exact (attempts_replay _ _ _ _ A2).
Qed.

Lemma remounted_mounts w w' o :
  remounted w w' o -> mounts_of w' = mounted_as o.
Proof.
  unfold mounts_of. destruct o as [[m t]|]; cbn.
  - intros (-> & -> & _). now destruct m.
  - intros (-> & _). reflexivity.
Qed.

Lemma mountBothModes_mounts w :
  sdCardInitialized w = false ->
  exists r w' evs,
    mountBothModes hw w = Some (r, w') /\
    steps w w' evs /\
    replay_mounts (mounts_of w) evs = Some (mounts_of w').
Proof.
  intros Hu.
  destruct (mountBothModes_spec hw w) as (o & w' & evs & E & S & T & P).
  exists (is_some o), w', evs. split; [exact E|]. split; [exact S|].
  unfold mounts_of at 1. rewrite Hu. cbn [andb].
  rewrite (remounted_mounts _ _ _ P). now apply init_trace_replay.
Qed.

Lemma forceReinitializeSDCard_mounts fuel w :
  (1 <= fuel)%nat ->
  exists r w' evs,
    forceReinitializeSDCard hw fuel w = Some (r, w') /\
    steps w w' evs /\
    replay_mounts (mounts_of w) evs = Some (mounts_of w').
Proof.
  intros Hf. destruct fuel as [|fuel]; [lia|].
  destruct (forceReinitializeSDCard_spec hw fuel w)
    as (o & w' & evs & E & S & T & P).
  exists (is_some o), w', ([EvEnd (activeMode w); EvDelay 500] ++ evs).
  split; [exact E|]. split; [exact S|].
  rewrite replay_mounts_app.
  assert (R : replay_mounts (mounts_of w) [EvEnd (activeMode w); EvDelay 500]
              = Some (false, false)).
  { unfold mounts_of, activeMode.
    destruct (sdCardInitialized w), (usingSPIMode w); reflexivity. }
  rewrite R, (remounted_mounts _ _ _ P). now apply init_trace_replay.
Qed.

Lemma probed_mounts w :
  exists evs,
    steps w (probed hw w) evs /\
    replay_mounts (mounts_of w) evs = Some (mounts_of (probed hw w)).
Proof.
  unfold probed. destruct (file_ok _); eexists;
    (split; [unfold steps; cbn; list_norm; split; [reflexivity|auto]|]);
    reflexivity.
Qed.

Lemma checkSDCardStatus_mounts fuel w :
  (1 <= fuel)%nat ->
  exists r w' evs,
    checkSDCardStatus hw fuel w = Some (r, w') /\
    steps w w' evs /\
    replay_mounts (mounts_of w) evs = Some (mounts_of w').
Proof.
  intros Hf. destruct (sdCardInitialized w) eqn:Hi.
  2:{ exists false, w, []. split; [now apply checkSDCardStatus_uninitialized|].
      split; [apply steps_refl|reflexivity]. }
  destruct (Z.le_gt_cases (elapsed hw w) SD_CHECK_INTERVAL) as [L|L].
  { eexists. eexists. eexists.
    split; [now apply checkSDCardStatus_throttled|].
    split; [apply steps_query|reflexivity]. }
  rewrite (checkSDCardStatus_probing hw fuel w Hi L).
  destruct (probed_mounts w) as (e0 & S0 & R0).
  destruct (isDirectory (probe_result hw w)).
  - exists true, (probed hw w), e0. auto.
  - destruct (forceReinitializeSDCard_mounts fuel (probed hw w) Hf)
      as (r & w' & e1 & E1 & S1 & R1).
    exists r, w', (e0 ++ e1). split; [exact E1|].
    split; [eapply steps_trans; eauto|].
    now rewrite replay_mounts_app, R0.
Qed.

Lemma initializeSDCard_mounts fuel w :
  (2 <= fuel)%nat ->
  exists r w' evs,
    initializeSDCard hw fuel w = Some (r, w') /\
    steps w w' evs /\
    replay_mounts (mounts_of w) evs = Some (mounts_of w').
Proof.
  intros Hf. destruct fuel as [|fuel]; [lia|].
  rewrite initializeSDCard_unfold.
  destruct (sdCardInitialized w) eqn:Hi.
  2:{ now apply mountBothModes_mounts. }
  destruct (checkSDCardStatus_mounts fuel w ltac:(lia))
    as (r0 & w0 & e0 & E0 & S0 & R0).
  destruct (checkSDCardStatus_run hw fuel w ltac:(lia))
    as (r0' & w0' & e0' & (E0' & _ & _ & I0) & _).
  rewrite E0 in E0'. injection E0' as <- <-.
  rewrite E0. destruct r0.
  - exists true, w0, e0. auto.
  - destruct (mountBothModes_mounts w0 I0) as (r & w' & e1 & E1 & S1 & R1).
    exists r, w', (e0 ++ e1). split; [exact E1|].
    split; [eapply steps_trans; eauto|].
    now rewrite replay_mounts_app, R0.
Qed.

End TransportExtras.



(** X2: initialization is idempotent inside the throttle window: once a
    call has returned [true], a further call made while the 32-bit clock
    difference to the stamp is at most 5000 reads the clock once, mounts
    nothing, changes no global and returns [true]. *)
Theorem initializeSDCard_again_is_noop
    (hw : Hw) (fuel : nat) (w w1 : World) :
  (2 <= fuel)%nat ->
  initializeSDCard hw fuel w = Some (true, w1) ->
  elapsed hw w1 <= SD_CHECK_INTERVAL ->
  initializeSDCard hw fuel w1 =
  Some (true, query (EvMillis (wrap32 (hw_millis hw (tick w1)))) w1).
Proof.
  intros Hf E L.
  destruct (initializeSDCard_run hw fuel w Hf)
    as (r & w' & evs & (E' & _ & _ & I) & _).
  rewrite E in E'. injection E' as <- <-.
  destruct fuel as [|fuel]; [lia|].
  rewrite initializeSDCard_unfold, I.
  now rewrite (checkSDCardStatus_throttled hw fuel w1 I L).
Qed.

Lemma initializeSDCard_again_is_noop_witness :
  exists w1,
    (2 <= 2)%nat /\
    initializeSDCard (hw_healthy 0) 2 boot = Some (true, w1) /\
    elapsed (hw_healthy 0) w1 <= SD_CHECK_INTERVAL /\
    initializeSDCard (hw_healthy 0) 2 w1 =
    Some (true,
          query (EvMillis (wrap32 (hw_millis (hw_healthy 0) (tick w1)))) w1).
Proof.
  eexists. split; [lia|].
  assert (E : initializeSDCard (hw_healthy 0) 2 boot =
              Some (true,
                    mkWorld true false 4 None "" false 0 5
                      [EvSetPins true; EvBegin MMC true; EvDelay 100;
                       EvCardType MMC 2; EvVerifyRoot MMC (Some rootDir);
                       EvClose; EvMillis 4])) by (vm_compute; reflexivity).
  assert (L : elapsed (hw_healthy 0)
                (mkWorld true false 4 None "" false 0 5
                   [EvSetPins true; EvBegin MMC true; EvDelay 100;
                    EvCardType MMC 2; EvVerifyRoot MMC (Some rootDir);
                    EvClose; EvMillis 4]) <= SD_CHECK_INTERVAL)
    by (vm_compute; discriminate).
  split; [exact E|]. split; [exact L|].
  exact (initializeSDCard_again_is_noop (hw_healthy 0) 2 boot _
           (Nat.le_refl 2) E L).
Defined.

(** X3: the mutual recursion of [initializeSDCard], [checkSDCardStatus]
    and [forceReinitializeSDCard] is at most two calls of
    [initializeSDCard] deep: every call returns, and a larger recursion
    budget gives the same result and state. *)
Theorem transport_recursion_is_bounded (hw : Hw) (fuel : nat) (w : World) :
  (2 <= fuel)%nat ->
  initializeSDCard hw fuel w = initializeSDCard hw 2 w /\
  checkSDCardStatus hw fuel w = checkSDCardStatus hw 1 w /\
  forceReinitializeSDCard hw fuel w = forceReinitializeSDCard hw 1 w /\
  initializeSDCard hw 2 w <> None /\
  checkSDCardStatus hw 1 w <> None /\
  forceReinitializeSDCard hw 1 w <> None.
Proof.
  intros Hf. destruct fuel as [|[|fuel]]; try lia.
  split; [apply initializeSDCard_fuel|].
  split; [apply checkSDCardStatus_fuel|].
  split; [now rewrite !forceReinitializeSDCard_fuel|].
  split; [|split].
  - destruct (initializeSDCard_run hw 2 w ltac:(lia))
      as (r & w' & evs & (E & _) & _). congruence.
  - destruct (checkSDCardStatus_run hw 1 w ltac:(lia))
      as (r & w' & evs & (E & _) & _). congruence.
  - destruct (forceReinitializeSDCard_run hw 1 w ltac:(lia))
      as (r & w' & evs & (E & _) & _). congruence.
Qed.

Lemma transport_recursion_is_bounded_witness :
  (2 <= 5)%nat /\
  initializeSDCard (hw_healthy 9000) 5 mounted_world =
  initializeSDCard (hw_healthy 9000) 2 mounted_world.
Proof.
  split; [lia|].
  apply (transport_recursion_is_bounded (hw_healthy 9000) 5 mounted_world).
  lia.
Defined.

(** X4: the two access modes are never mounted together.  When the
    globals tell truly what is mounted on entry (the active mode if
    initialized, nothing otherwise), each transport function mounts a
    mode only while nothing is mounted, and the globals tell truly what is
    mounted on return. *)
Theorem transport_mounts_one_mode_at_a_time
    (hw : Hw) (fuel : nat) (w : World) :
  (2 <= fuel)%nat ->
  (exists r w' evs,
      initializeSDCard hw fuel w = Some (r, w') /\
      steps w w' evs /\
      replay_mounts (mounts_of w) evs = Some (mounts_of w')) /\
  (exists r w' evs,
      checkSDCardStatus hw fuel w = Some (r, w') /\
      steps w w' evs /\
      replay_mounts (mounts_of w) evs = Some (mounts_of w')) /\
  (exists r w' evs,
      forceReinitializeSDCard hw fuel w = Some (r, w') /\
      steps w w' evs /\
      replay_mounts (mounts_of w) evs = Some (mounts_of w')).
Proof.
  intros Hf. split; [now apply initializeSDCard_mounts|].
  split; [apply checkSDCardStatus_mounts; lia|].
  apply forceReinitializeSDCard_mounts; lia.
Qed.

Lemma transport_mounts_one_mode_at_a_time_witness :
  (2 <= 2)%nat /\
  exists r w' evs,
    forceReinitializeSDCard (hw_late_card frame3 3) 2 mounted_world
    = Some (r, w') /\
    steps mounted_world w' evs /\
    replay_mounts (mounts_of mounted_world) evs = Some (mounts_of w').
Proof.
  split; [lia|].
  apply (transport_mounts_one_mode_at_a_time (hw_late_card frame3 3) 2
           mounted_world). lia.
Defined.

(** X5: the transport functions keep to the transport: none of them
    opens, writes, removes or creates a file, touches the frame pool or
    talks to the HTTP client, and they leave the upload session as it
    is.  Each returns the initialized flag it leaves. *)
Theorem transport_keeps_to_itself (hw : Hw) (fuel : nat) (w : World) :
  (2 <= fuel)%nat ->
  forall c,
    c = initializeSDCard hw fuel \/ c = checkSDCardStatus hw fuel \/
    c = forceReinitializeSDCard hw fuel ->
    exists r w' evs,
      c w = Some (r, w') /\
      trace w' = trace w ++ evs /\
      (forall e, In e evs -> outside_transport e = false) /\
      sdCardInitialized w' = r /\
      uploadFile w' = uploadFile w /\
      uploadPath w' = uploadPath w /\
      uploadError w' = uploadError w.
Proof.
  intros Hf c Hc.
  assert (R : exists r w' evs, transport_run c w r w' evs).
  { destruct Hc as [-> | [-> | ->]].
    - destruct (initializeSDCard_run hw fuel w Hf) as (r & w' & evs & R & _).
      eauto.
    - destruct (checkSDCardStatus_run hw fuel w ltac:(lia))
        as (r & w' & evs & R & _). eauto.
    - destruct (forceReinitializeSDCard_run hw fuel w ltac:(lia))
        as (r & w' & evs & R & _). eauto. }
  destruct R as (r & w' & evs & E & (T & U1 & U2 & U3) & N & I).
  exists r, w', evs. split; [exact E|]. split; [exact T|].
  split; [|auto].
  intros e He. rewrite forallb_forall in N. specialize (N e He).
  destruct e; cbn in N; try discriminate; reflexivity.
Qed.

Lemma transport_keeps_to_itself_witness :
  (2 <= 2)%nat /\
  exists r w' evs,
    checkSDCardStatus (hw_healthy 9000) 2 mounted_world = Some (r, w') /\
    trace w' = trace mounted_world ++ evs /\
    (forall e, In e evs -> outside_transport e = false) /\
    sdCardInitialized w' = r /\
    uploadFile w' = uploadFile mounted_world /\
    uploadPath w' = uploadPath mounted_world /\
    uploadError w' = uploadError mounted_world.
Proof.
  split; [lia|].
  apply (transport_keeps_to_itself (hw_healthy 9000) 2 mounted_world);
    [lia|]. right. left. reflexivity.
Defined.

(** * Further properties of names and paths *)

Lemma contains_cons c a s :
  contains c (String a s) <-> a = c \/ contains c s.
Proof. reflexivity. Qed.

Lemma contains_app c s t :
  contains c (s ++ t)%string <-> contains c s \/ contains c t.
Proof.
  induction s as [|a s IH].
  - rewrite append_nil_l. unfold contains at 2. cbn. tauto.
  - rewrite append_cons, !contains_cons, IH. tauto.
Qed.

Lemma drop_suffix k s : exists pre, s = (pre ++ drop k s)%string.
Proof.
  revert s. induction k as [|k IH]; intros s.
  - now exists ""%string.
  - destruct s as [|a s]; [now exists ""%string|].
    destruct (IH s) as (pre & E). exists (String a pre).
    rewrite append_cons. cbn [drop]. now rewrite <- E.
Qed.

(** Nothing after the position [lastIndexOf] reports is the character
    searched for. *)
Lemma lastIndexOf_from_last c s :
  forall i acc,
    acc < i ->
    acc <= lastIndexOf_from c s i acc /\
    forall k : nat,
      lastIndexOf_from c s i acc < i + Z.of_nat k ->
      ~ contains c (drop k s).
Proof.
  induction s as [|a s IH]; intros i acc Hacc.
  - cbn. split; [lia|]. intros k _. destruct k; cbn; tauto.
  - cbn [lastIndexOf_from].
    set (acc' := if Ascii.eqb a c then i else acc).
    assert (Hacc' : acc' < i + 1 /\ acc <= acc')
      by (unfold acc'; destruct (Ascii.eqb a c); lia).
    destruct (IH (i + 1) acc' (proj1 Hacc')) as [M L].
    split; [lia|].
    intros [|k] Hk.
    + cbn [drop]. rewrite contains_cons. intros [E|C].
      * subst a. subst acc'. rewrite Ascii.eqb_refl in *. lia.
      * apply (L 0%nat); [lia|exact C].
    + cbn [drop]. apply L. lia.
Qed.

Lemma lastIndexOf_drop c s (k : Z) :
  lastIndexOf c s < k -> ~ contains c (substring_from k s).
Proof.
  intros H. unfold substring_from.
  destruct (lastIndexOf_from_last c s 0 (-1) ltac:(lia)) as [M L].
  apply L. fold (lastIndexOf c s). lia.
Qed.

Lemma lastIndexOf_absent c s :
  lastIndexOf c s < 0 -> ~ contains c s.
Proof.
  intros H. apply (lastIndexOf_drop c s 0) in H. exact H.
Qed.

Lemma lastIndexOf_none c s :
  ~ contains c s -> lastIndexOf c s = -1.
Proof.
  unfold lastIndexOf. generalize 0 as i.
  induction s as [|a s IH]; intros i N; [reflexivity|].
  cbn [lastIndexOf_from]. rewrite contains_cons in N.
  destruct (Ascii.eqb_spec a c) as [E|_]; [tauto|]. apply IH. tauto.
Qed.

Lemma lastIndexOf_from_range c s :
  forall i acc,
    lastIndexOf_from c s i acc = acc \/ i <= lastIndexOf_from c s i acc.
Proof.
  induction s as [|a s IH]; intros i acc; [now left|].
  cbn [lastIndexOf_from].
  destruct (IH (i + 1) (if Ascii.eqb a c then i else acc)) as [E|L].
  - rewrite E. destruct (Ascii.eqb a c); [right; lia|now left].
  - right. lia.
Qed.

(** The position [lastIndexOf] reports holds the character searched
    for. *)
Lemma lastIndexOf_from_at c s :
  forall i acc,
    acc < i -> i <= lastIndexOf_from c s i acc ->
    exists pre,
      s = (pre ++ String c
             (drop (Z.to_nat (lastIndexOf_from c s i acc - i + 1)) s))%string.
Proof.
  induction s as [|a s IH]; intros i acc Hacc Hr.
  - cbn in Hr. lia.
  - cbn [lastIndexOf_from] in *.
    set (acc' := if Ascii.eqb a c then i else acc) in *.
    set (r := lastIndexOf_from c s (i + 1) acc') in *.
    assert (Hacc' : acc' < i + 1)
      by (unfold acc'; destruct (Ascii.eqb a c); lia).
    destruct (Z_le_gt_dec (i + 1) r) as [L|G].
    + destruct (IH (i + 1) acc' Hacc' L) as (pre & E). fold r in E.
      exists (String a pre). rewrite append_cons.
      replace (Z.to_nat (r - i + 1)) with (S (Z.to_nat (r - (i + 1) + 1)))
        by lia.
      cbn [drop]. now rewrite <- E.
    + assert (Hi : r = i) by lia.
      destruct (lastIndexOf_from_range c s (i + 1) acc') as [E|L];
        fold r in E || fold r in L; [|lia].
      unfold acc' in E. destruct (Ascii.eqb_spec a c) as [->|N]; [|lia].
      exists ""%string. rewrite append_nil_l, Hi.
      replace (Z.to_nat (i - i + 1)) with 1%nat by lia. reflexivity.
Qed.

Lemma lastIndexOf_at c s :
  0 <= lastIndexOf c s ->
  exists pre,
    s = (pre ++ String c (substring_from (lastIndexOf c s + 1) s))%string.
Proof.
  intros H. unfold lastIndexOf in *.
  destruct (lastIndexOf_from_at c s 0 (-1) ltac:(lia) H) as (pre & E).
  exists pre. unfold substring_from.
  now rewrite Z.sub_0_r in E.
Qed.

Lemma lastIndexOf_found c s : contains c s -> 0 <= lastIndexOf c s.
Proof.
  intros C. destruct (Z_lt_le_dec (lastIndexOf c s) 0) as [L|L]; [|exact L].
  now apply lastIndexOf_absent in L.
Qed.

(** X6: sanitising an upload's file name leaves exactly what follows
    its last slash or backslash.  The result contains neither character;
    when the name has a separator, the name is some directory part, then
    one separator, then the result; and a name without a separator is
    left as it is. *)
Theorem cleanFilename_strips_directories (filename : string) :
  ~ contains "/" (cleanFilename filename) /\
  ~ contains backslash (cleanFilename filename) /\
  (exists dir, filename = (dir ++ cleanFilename filename)%string) /\
  (contains "/" filename \/ contains backslash filename ->
   exists dir sep,
     (sep = "/"%char \/ sep = backslash) /\
     filename = (dir ++ String sep (cleanFilename filename))%string) /\
  (~ contains "/" filename -> ~ contains backslash filename ->
   cleanFilename filename = filename).
Proof.
  unfold cleanFilename.
  set (ls := lastIndexOf "/" filename).
  set (lb := lastIndexOf backslash filename).
  destruct (Z.leb_spec 0 (Z.max ls lb)) as [H|H].
  - split; [apply lastIndexOf_drop; fold ls; lia|].
    split; [apply lastIndexOf_drop; fold lb; lia|].
    split; [apply drop_suffix|].
    split.
    + intros _. destruct (Z.max_spec ls lb) as [[L ->]|[L ->]].
      * destruct (lastIndexOf_at backslash filename) as (pre & E);
          [fold lb; lia|].
        exists pre, backslash. split; [now right|exact E].
      * destruct (lastIndexOf_at "/" filename) as (pre & E);
          [fold ls; lia|].
        exists pre, "/"%char. split; [now left|exact E].
    + intros N1 N2. apply lastIndexOf_none in N1, N2. fold ls in N1.
      fold lb in N2. lia.
  - split; [apply lastIndexOf_absent; fold ls; lia|].
    split; [apply lastIndexOf_absent; fold lb; lia|].
    split; [now exists ""%string|].
    split; [|reflexivity].
    intros [C|C]; apply lastIndexOf_found in C; fold ls in C || fold lb in C;
      lia.
Qed.

(** X7: the bare name shown in listings and offered as the download's
    file name is exactly what follows the last slash of an entry name.
    It contains no slash; when the entry name has a slash, the entry name
    is some directory part, then a slash, then the bare name; and an
    entry name without a slash is its own bare name. *)
Theorem bareName_strips_directories (fileName : string) :
  ~ contains "/" (bareName fileName) /\
  (exists dir, fileName = (dir ++ bareName fileName)%string) /\
  (contains "/" fileName ->
   exists dir, fileName = (dir ++ String "/" (bareName fileName))%string) /\
  (~ contains "/" fileName -> bareName fileName = fileName).
Proof.
  unfold bareName.
  destruct (Z.leb_spec 0 (lastIndexOf "/" fileName)) as [H|H].
  - split; [apply lastIndexOf_drop; lia|].
    split; [apply drop_suffix|].
    split; [intros _; now apply lastIndexOf_at|].
    intros N. apply lastIndexOf_none in N. lia.
  - split; [apply lastIndexOf_absent; lia|].
    split; [now exists ""%string|].
    split; [|reflexivity].
    intros C. apply lastIndexOf_found in C. lia.
Qed.

(** X8: path normalisation always yields a path that begins with a
    slash, maps the empty path to the root, leaves a path that already
    begins with a slash alone, and is therefore idempotent. *)
Theorem normalizePath_idempotent (path : string) :
  startsWith (normalizePath path) "/" = true /\
  normalizePath "" = "/"%string /\
  (startsWith path "/" = true -> normalizePath path = path) /\
  normalizePath (normalizePath path) = normalizePath path.
Proof.
  assert (F : forall q, startsWith q "/" = true -> normalizePath q = q).
  { intros q H. unfold normalizePath. destruct q as [|a q]; [discriminate|].
    cbn [isEmpty orb]. change (String.eqb (String a q) "") with false.
    cbv iota. now rewrite H. }
  split; [apply startsWith_normalizePath|].
  split; [reflexivity|]. split; [apply F|].
  apply F, startsWith_normalizePath.
Qed.

(** ** Content types *)

Lemma lower_ascii_idem a : lower_ascii (lower_ascii a) = lower_ascii a.
Proof. destruct a as [[] [] [] [] [] [] [] []]; reflexivity. Qed.

Lemma lower_ascii_dot a : lower_ascii a = "."%char -> a = "."%char.
Proof.
  destruct a as [[] [] [] [] [] [] [] []]; intros H;
    first [reflexivity|discriminate H].
Qed.

Lemma toLowerCase_idem s : toLowerCase (toLowerCase s) = toLowerCase s.
Proof.
  induction s as [|a s IH]; [reflexivity|].
  cbn [toLowerCase]. now rewrite lower_ascii_idem, IH.
Qed.

Lemma toLowerCase_app s t :
  toLowerCase (s ++ t) = (toLowerCase s ++ toLowerCase t)%string.
Proof.
  induction s as [|a s IH]; [reflexivity|].
  rewrite append_cons. cbn [toLowerCase]. now rewrite append_cons, IH.
Qed.

Lemma toLowerCase_dot s : contains "." (toLowerCase s) -> contains "." s.
Proof.
  induction s as [|a s IH]; [tauto|].
  cbn [toLowerCase]. rewrite !contains_cons.
  intros [H|H]; [left; now apply lower_ascii_dot|right; auto].
Qed.

Lemma endsWith_refl s : endsWith s s = true.
Proof. destruct s; cbn [endsWith]; now rewrite String.eqb_refl. Qed.

Lemma endsWith_app b suf : endsWith (b ++ suf) suf = true.
Proof.
  induction b as [|a b IH]; [apply endsWith_refl|].
  rewrite append_cons. cbn [endsWith]. rewrite IH.
  now destruct (String.eqb _ _).
Qed.

Lemma suffixes_comparable b1 s1 b2 s2 :
  (b1 ++ s1)%string = (b2 ++ s2)%string ->
  (exists c, s1 = (c ++ s2)%string) \/ (exists c, s2 = (c ++ s1)%string).
Proof.
  revert b2. induction b1 as [|a b1 IH]; intros b2 H.
  - left. exists b2. now rewrite append_nil_l in H.
  - destruct b2 as [|a' b2].
    + right. exists (String a b1). now rewrite append_nil_l in H.
    + rewrite !append_cons in H. injection H as _ H. eauto.
Qed.

Lemma endsWith_app_false b suf suf' :
  endsWith suf suf' = false -> endsWith suf' suf = false ->
  endsWith (b ++ suf) suf' = false.
Proof.
  intros H1 H2. destruct (endsWith (b ++ suf) suf') eqn:E; [|reflexivity].
  destruct (endsWith_split _ _ E) as (b' & E').
  destruct (suffixes_comparable _ _ _ _ E') as [(c & ->)|(c & ->)].
  - now rewrite endsWith_app in H1.
  - now rewrite endsWith_app in H2.
Qed.

Lemma endsWith_contains s c suf :
  endsWith s (String c suf) = true -> contains c s.
Proof.
  intros H. destruct (endsWith_split _ _ H) as (b & ->).
  apply contains_app. right. now left.
Qed.

Ltac by_extension :=
  unfold contentTypeOf; rewrite toLowerCase_app;
  match goal with
  | |- context [toLowerCase ?e] =>
      match e with
      | String _ _ => let e' := eval vm_compute in (toLowerCase e) in
                      change (toLowerCase e) with e'
      end
  end;
  repeat first
    [ rewrite endsWith_app_false by reflexivity
    | rewrite endsWith_app ];
  reflexivity.

(** X9: the download content type is chosen by the path's extension
    alone, without regard to letter case: whatever precedes it, [.jpg]
    and [.jpeg] give image/jpeg, [.png] image/png, [.gif] image/gif,
    [.txt] text/plain, [.html] and [.htm] text/html, [.css] text/css,
    [.js] application/javascript, [.json] application/json; and a path
    without a dot gets application/octet-stream. *)
Theorem contentTypeOf_by_extension (stem : string) :
  contentTypeOf (stem ++ ".jpg") = "image/jpeg"%string /\
  contentTypeOf (stem ++ ".jpeg") = "image/jpeg"%string /\
  contentTypeOf (stem ++ ".png") = "image/png"%string /\
  contentTypeOf (stem ++ ".gif") = "image/gif"%string /\
  contentTypeOf (stem ++ ".txt") = "text/plain"%string /\
  contentTypeOf (stem ++ ".html") = "text/html"%string /\
  contentTypeOf (stem ++ ".htm") = "text/html"%string /\
  contentTypeOf (stem ++ ".css") = "text/css"%string /\
  contentTypeOf (stem ++ ".js") = "application/javascript"%string /\
  contentTypeOf (stem ++ ".json") = "application/json"%string /\
  contentTypeOf (stem ++ ".JPG") = "image/jpeg"%string /\
  contentTypeOf (toLowerCase stem) = contentTypeOf stem /\
  (~ contains "." stem ->
   contentTypeOf stem = "application/octet-stream"%string).
Proof.
  repeat (split; [by_extension|]).
  split.
  - unfold contentTypeOf. now rewrite toLowerCase_idem.
  - intros N. unfold contentTypeOf.
    assert (F : forall suf,
               endsWith (toLowerCase stem) (String "." suf) = false).
    { intros suf. destruct (endsWith _ _) eqn:E; [|reflexivity].
      exfalso. apply N, toLowerCase_dot. eapply endsWith_contains; eauto. }
    now rewrite !F.
Qed.

(** ** Generated file names *)

Lemma wrap32_range z : 0 <= wrap32 z < 2 ^ 32.
Proof. unfold wrap32. apply Z.mod_pos_bound. lia. Qed.

Lemma String_of_Z_inj a b :
  0 <= a -> 0 <= b -> String_of_Z a = String_of_Z b -> a = b.
Proof.
  intros Ha Hb H. apply (f_equal digits_value) in H.
  rewrite !String_of_Z_value in H. injection H as H. lia.
Qed.

(** X10: generated names tell clock readings apart.  Two names made
    from the same prefix are equal exactly when the 32-bit millisecond
    clock read the same value both times; so two captures overwrite each
    other only when taken in the same millisecond, or a whole number of
    clock wrap-arounds (2^32 ms) apart. *)
Theorem generateImageFileName_distinct
    (hw : Hw) (prefix : string) (w1 w2 : World) :
  exists n1 n2 w1' w2',
    generateImageFileName hw prefix w1 = Some (n1, w1') /\
    generateImageFileName hw prefix w2 = Some (n2, w2') /\
    (n1 = n2 <->
     hw_millis hw (tick w1) mod 2 ^ 32 = hw_millis hw (tick w2) mod 2 ^ 32).
Proof.
  eexists. eexists. eexists. eexists.
  split; [reflexivity|]. split; [reflexivity|].
  fold (wrap32 (hw_millis hw (tick w1))) (wrap32 (hw_millis hw (tick w2))).
  split.
  - intros H. apply append_cancel_l, append_cancel_l, append_cancel_r in H.
    apply String_of_Z_inj in H; [exact H|apply wrap32_range..].
  - intros H. now rewrite H.
Qed.

(** * Further properties of the request handlers *)

Lemma responses_app e1 e2 : responses (e1 ++ e2) = responses e1 ++ responses e2.
Proof. apply filter_app. Qed.

Lemma responses_transport evs :
  forallb transport_event evs = true -> responses evs = [].
Proof.
  induction evs as [|e evs IH]; [reflexivity|].
  cbn [forallb]. intros H. apply andb_prop in H as [He H].
  unfold responses in *. cbn [filter]. rewrite (IH H).
  destruct e; try discriminate He; reflexivity.
Qed.

Lemma responses_save length buffer filepath r evs :
  save_trace length buffer filepath r evs -> responses evs = [].
Proof.
  intros H; destruct H;
    rewrite ?responses_app, (responses_transport pre) by assumption;
    reflexivity.
Qed.

Lemma responses_open_attempts path root evs :
  open_attempts path root evs -> responses evs = [].
Proof.
  induction 1 as [|m h|m pre root rest T A IH]; try reflexivity.
  change (EvOpen m path false None :: pre ++ rest)
    with ([EvOpen m path false None] ++ pre ++ rest).
  now rewrite !responses_app, (responses_transport pre T), IH.
Qed.

Ltac count_responses :=
  rewrite ?responses_app;
  repeat match goal with
  | T : forallb transport_event ?l = true |- _ =>
      rewrite (responses_transport l T)
  | S : save_trace _ _ _ _ ?l |- _ =>
      rewrite (responses_save _ _ _ _ l S)
  | A : open_attempts _ _ ?l |- _ =>
      rewrite (responses_open_attempts _ _ l A)
  end;
  reflexivity.

Lemma delete_trace_answer filepath evs :
  delete_trace filepath evs ->
  exists rest, evs = cors_headers ++ rest /\
               List.length (responses rest) = 1%nat.
Proof.
  intros H; destruct H; eexists; (split; [reflexivity|count_responses]).
Qed.

Lemma download_trace_answer target evs :
  download_trace target evs ->
  exists rest, evs = cors_headers ++ rest /\
               List.length (responses rest) = 1%nat.
Proof.
  intros H; destruct H; eexists; (split; [reflexivity|count_responses]).
Qed.

Lemma mkdir_trace_answer fullPath evs :
  mkdir_trace fullPath evs ->
  exists rest, evs = cors_headers ++ rest /\
               List.length (responses rest) = 1%nat.
Proof.
  intros H; destruct H; eexists; (split; [reflexivity|count_responses]).
Qed.

Lemma list_trace_answer path evs :
  list_trace path evs ->
  exists rest, evs = cors_headers ++ rest /\
               List.length (responses rest) = 1%nat.
Proof.
  intros H; destruct H; eexists; (split; [reflexivity|count_responses]).
Qed.

Lemma capture_trace_answer f kept evs :
  capture_trace f kept evs ->
  exists rest, evs = cors_headers ++ rest /\
               List.length (responses rest) = 1%nat.
Proof.
  intros H; destruct H; try destruct saved; eexists;
    (split; [reflexivity|count_responses]).
Qed.

#[local] Arguments systemInfoText : simpl never.
#[local] Arguments reconnectOk : simpl never.
#[local] Arguments cameraTestOk : simpl never.

Section MoreHandlerProofs.

Variable hw : Hw.

Lemma handleSystemInfo_run fuel sys w :
  (1 <= fuel)%nat ->
  exists r w1 pre,
    transport_run (checkSDCardStatus hw fuel) (after_cors w) r w1 pre /\
    (count_probes pre <= 1)%nat /\
    handleSystemInfo hw fuel sys w =
    Some (tt, log (EvSend 200 "text/plain"
                     (systemInfoText sys r (usingSPIMode w1))) w1).
Proof.
  intros Hf.
  destruct (checkSDCardStatus_run hw fuel (after_cors w) Hf)
    as (r & w1 & pre & R & C).
  exists r, w1, pre. split; [exact R|]. split; [exact C|].
  destruct R as (E & _). unfold handleSystemInfo. unfold bind at 1.
  rewrite cors_steps. fold (after_cors w). unfold bind at 1. rewrite E.
  reflexivity.
Qed.

Lemma handleSDCardReconnect_run fuel w :
  (1 <= fuel)%nat ->
  exists o w1 mount,
    forceReinitializeSDCard hw fuel (after_cors w) = Some (is_some o, w1) /\
    steps (after_cors w) w1
      ([EvEnd (activeMode w); EvDelay 500] ++ mount) /\
    init_trace o mount /\
    remounted w w1 o /\
    handleSDCardReconnect hw fuel w =
    Some (tt, log (match o with
                   | Some (m, _) =>
                       EvSend 200 "application/json" (reconnectOk (is_spi m))
                   | None =>
                       EvSend 500 "application/json"
                         (json_error "Failed to reconnect SD card")
                   end) w1).
Proof.
  intros Hf. destruct fuel as [|fuel]; [lia|].
  destruct (forceReinitializeSDCard_spec hw fuel (after_cors w))
    as (o & w1 & mount & E & S & T & P).
  exists o, w1, mount. split; [exact E|]. split; [exact S|].
  split; [exact T|]. split; [exact P|].
  unfold handleSDCardReconnect. unfold bind at 1.
  rewrite cors_steps. fold (after_cors w). unfold bind at 1. rewrite E.
  destruct o as [[m t]|]; cbn [is_some].
  - destruct P as (_ & P & _). run. now rewrite P.
  - reflexivity.
Qed.

Lemma handleCameraTest_run w :
  handleCameraTest hw w =
  Some (tt,
        match hw_fb_get hw (tick w) with
        | None =>
            log (EvSend 500 "application/json"
                   (json_error "Camera test failed - no frame buffer"))
              (query (EvFbGet None) (after_cors w))
        | Some f =>
            log (EvSend 200 "application/json"
                   (cameraTestOk (wrap_int32 (width f)) (wrap_int32 (height f))
                      (len f) (format f =? PIXFORMAT_JPEG)))
              (log (EvFbReturn (fb_ptr f))
                 (log (EvFbRead (fb_ptr f))
                    (query (EvFbGet (Some f)) (after_cors w))))
        end).
Proof.
  unfold handleCameraTest. unfold bind at 1. rewrite cors_steps.
  fold (after_cors w). unfold bind at 1, ask at 1.
  change (tick (after_cors w)) with (tick w).
  destruct (hw_fb_get hw (tick w)); reflexivity.
Qed.

End MoreHandlerProofs.

Lemma answered_once_intro (c : M unit) w w' evs :
  c w = Some (tt, w') ->
  steps w w' evs ->
  (exists rest, evs = cors_headers ++ rest /\
                List.length (responses rest) = 1%nat) ->
  answered_once c w.
Proof.
  intros E (T & _) (rest & -> & R). exists w', rest. auto.
Qed.

Lemma answered_once_direct (c : M unit) w w' rest :
  c w = Some (tt, w') ->
  steps (after_cors w) w' rest ->
  List.length (responses rest) = 1%nat ->
  answered_once c w.
Proof.
  intros E S R. eapply answered_once_intro; [exact E| |eauto].
  eapply steps_trans; [apply after_cors_steps|exact S].
Qed.

(** X11: every request is answered exactly once.  Each handler that
    serves a request returns, sends the three CORS headers before
    anything else, and then sends exactly one response ([server.send] or
    [server.streamFile]) on every path through it, whatever the request's
    arguments, the state of the card and the camera. *)
Theorem handlers_answer_exactly_once
    (hw : Hw) (fuel : nat) (req : Request) (sys : SystemReadings)
    (w : World) :
  (2 <= fuel)%nat ->
  answered_once (handleSystemInfo hw fuel sys) w /\
  answered_once (handleSDCardReconnect hw fuel) w /\
  answered_once (handleCapture hw fuel) w /\
  answered_once (handleCameraTest hw) w /\
  answered_once (handleFileList hw fuel req) w /\
  answered_once (handleFileDownload hw fuel req) w /\
  answered_once (handleCreateFolder hw fuel req) w /\
  answered_once (handleFileUploadResponse hw fuel) w /\
  answered_once (handleFileDelete hw fuel req) w /\
  answered_once handleOptions w.
Proof.
  intros Hf. repeat split.
  - destruct (handleSystemInfo_run hw fuel sys w ltac:(lia))
      as (r & w1 & pre & (_ & S & T & _) & _ & E).
    eapply answered_once_direct; [exact E| |].
    + eapply steps_trans; [exact S|apply steps_log].
    + count_responses.
  - destruct (handleSDCardReconnect_run hw fuel w ltac:(lia))
      as (o & w1 & mount & E0 & S & T & _ & E).
    assert (M : forallb transport_event
                  ([EvEnd (activeMode w); EvDelay 500] ++ mount) = true).
    { apply mount_is_transport. cbn. eapply init_trace_mount; eauto. }
    eapply answered_once_direct; [exact E| |].
    + eapply steps_trans; [exact S|apply steps_log].
    + rewrite responses_app, (responses_transport _ M).
      now destruct o as [[m t]|].
  - destruct (hw_fb_get hw (tick w)) as [f|] eqn:G.
    + destruct (handleCapture_run hw fuel f w Hf G)
        as (w' & evs & kept & E & S & T).
      eapply answered_once_intro; [exact E|exact S|].
      eapply capture_trace_answer; eauto.
    + eapply answered_once_direct;
        [now apply handleCapture_no_frame| |].
      * eapply steps_trans; [apply steps_query|apply steps_log].
      * reflexivity.
  - pose proof (handleCameraTest_run hw w) as E.
    destruct (hw_fb_get hw (tick w)) as [f|];
      (eapply answered_once_direct; [exact E| |]).
    + eapply steps_trans; [apply steps_query|].
      eapply steps_trans; [apply steps_log|].
      eapply steps_trans; [apply steps_log|apply steps_log].
    + reflexivity.
    + eapply steps_trans; [apply steps_query|apply steps_log].
    + reflexivity.
  - destruct (handleFileList_run hw fuel req w Hf) as (w' & evs & E & S & T).
    eapply answered_once_intro; [exact E|exact S|].
    eapply list_trace_answer; eauto.
  - destruct req as [p n [filepath|]].
    + destruct (handleFileDownload_run hw fuel filepath p n w Hf)
        as (w' & evs & E & S & T).
      eapply answered_once_intro; [exact E|exact S|].
      eapply download_trace_answer; eauto.
    + eapply answered_once_direct; [reflexivity|apply steps_log|reflexivity].
  - destruct req as [[basePath|] [name|] file];
      try (eapply answered_once_direct;
           [reflexivity|apply steps_log|reflexivity]).
    destruct (String.eqb name "") eqn:N0.
    { apply String.eqb_eq in N0.
      eapply answered_once_direct;
        [apply handleCreateFolder_rejects; auto|apply steps_log|reflexivity]. }
    apply String.eqb_neq in N0.
    destruct (0 <=? indexOf "/" name) eqn:N1.
    { apply Z.leb_le, indexOf_contains in N1.
      eapply answered_once_direct;
        [apply handleCreateFolder_rejects; auto|apply steps_log|reflexivity]. }
    destruct (0 <=? indexOf backslash name) eqn:N2.
    { apply Z.leb_le, indexOf_contains in N2.
      eapply answered_once_direct;
        [apply handleCreateFolder_rejects; auto|apply steps_log|reflexivity]. }
    destruct (handleCreateFolder_accepts hw fuel basePath name file w Hf N0)
      as (w' & evs & E & S & T).
    + intros C. apply indexOf_contains, Z.leb_le in C. congruence.
    + intros C. apply indexOf_contains, Z.leb_le in C. congruence.
    + eapply answered_once_intro; [exact E|exact S|].
      eapply mkdir_trace_answer; eauto.
  - destruct (handleFileUploadResponse_run hw fuel w Hf)
      as (w' & pre & E & T & _ & [[_ S]|[_ S]]);
      (eapply answered_once_intro; [exact E|exact S|]);
      eexists; (split; [reflexivity|count_responses]).
  - destruct req as [p n [filepath|]].
    + destruct (handleFileDelete_run hw fuel filepath p n w Hf)
        as (w' & evs & E & S & T).
      eapply answered_once_intro; [exact E|exact S|].
      eapply delete_trace_answer; eauto.
    + eapply answered_once_direct; [reflexivity|apply steps_log|reflexivity].
  - eapply answered_once_direct; [reflexivity|apply steps_log|reflexivity].
Qed.

Lemma handlers_answer_exactly_once_witness :
  (2 <= 2)%nat /\
  answered_once
    (handleFileDownload (hw_healthy 0) 2 (mkRequest None None (Some "a.jpg")))
    boot.
Proof.
  split; [lia|].
  apply (handlers_answer_exactly_once (hw_healthy 0) 2
           (mkRequest None None (Some "a.jpg"))
           (mkReadings 0 0 "" 0 0 true "" 0 (fun _ => 0) (fun _ => 0)) boot).
  lia.
Defined.

Lemma transport_leaves_files evs :
  forallb transport_event evs = true ->
  forallb (fun e => negb (touches_files e)) evs = true.
Proof.
  induction evs as [|e evs IH]; [reflexivity|].
  cbn [forallb]. intros H. apply andb_prop in H as [He H].
  rewrite (IH H), andb_true_r.
  destruct e; try discriminate He; reflexivity.
Qed.

Lemma open_attempts_leave_files path root evs :
  open_attempts path root evs ->
  forallb (fun e => negb (touches_files e)) evs = true.
Proof.
  induction 1 as [|m h|m pre root rest T A IH]; try reflexivity.
  cbn [forallb touches_files negb andb].
  now rewrite forallb_app, (transport_leaves_files _ T), IH.
Qed.

Ltac files_alone :=
  rewrite ?forallb_app;
  repeat match goal with
  | T : forallb transport_event ?l = true |- _ =>
      rewrite (transport_leaves_files l T)
  | A : open_attempts _ _ ?l |- _ =>
      rewrite (open_attempts_leave_files _ _ l A)
  end;
  reflexivity.

(** X12: the handlers that only report leave the card's contents alone.
    Listing a directory, downloading a file, the system information page,
    the reconnect request, the camera test, the answer to an upload and
    the OPTIONS answer never open a file for writing, write, flush,
    remove a file or make a directory, and they leave the upload session
    as it is. *)
Theorem reporting_handlers_leave_files_alone
    (hw : Hw) (fuel : nat) (req : Request) (sys : SystemReadings)
    (w : World) :
  (2 <= fuel)%nat ->
  leaves_files_alone (handleFileList hw fuel req) w /\
  leaves_files_alone (handleFileDownload hw fuel req) w /\
  leaves_files_alone (handleSystemInfo hw fuel sys) w /\
  leaves_files_alone (handleSDCardReconnect hw fuel) w /\
  leaves_files_alone (handleCameraTest hw) w /\
  leaves_files_alone (handleFileUploadResponse hw fuel) w /\
  leaves_files_alone handleOptions w.
Proof.
  intros Hf. repeat split.
  - destruct (handleFileList_run hw fuel req w Hf) as (w' & evs & E & S & T).
    exists w', evs. split; [exact E|]. split; [exact S|].
    destruct T; files_alone.
  - destruct req as [p n [filepath|]].
    + destruct (handleFileDownload_run hw fuel filepath p n w Hf)
        as (w' & evs & E & S & T).
      exists w', evs. split; [exact E|]. split; [exact S|].
      destruct T; files_alone.
    + eexists. eexists. split; [reflexivity|].
      split; [eapply steps_trans; [apply after_cors_steps|apply steps_log]|].
      reflexivity.
  - destruct (handleSystemInfo_run hw fuel sys w ltac:(lia))
      as (r & w1 & pre & (_ & S & T & _) & _ & E).
    eexists. eexists. split; [exact E|]. split.
    + eapply steps_trans; [apply after_cors_steps|].
      eapply steps_trans; [exact S|apply steps_log].
    + files_alone.
  - destruct (handleSDCardReconnect_run hw fuel w ltac:(lia))
      as (o & w1 & mount & E0 & S & T & _ & E).
    assert (M : forallb transport_event
                  ([EvEnd (activeMode w); EvDelay 500] ++ mount) = true).
    { apply mount_is_transport. cbn. eapply init_trace_mount; eauto. }
    eexists. eexists. split; [exact E|]. split.
    + eapply steps_trans; [apply after_cors_steps|].
      eapply steps_trans; [exact S|apply steps_log].
    + rewrite 2 forallb_app, (transport_leaves_files _ M).
      now destruct o as [[m t]|].
  - pose proof (handleCameraTest_run hw w) as E.
    destruct (hw_fb_get hw (tick w)) as [f|];
      (eexists; eexists; split; [exact E|]; split; [|shelve]).
    + eapply steps_trans; [apply after_cors_steps|].
      eapply steps_trans; [apply steps_query|].
      eapply steps_trans; [apply steps_log|].
      eapply steps_trans; [apply steps_log|apply steps_log].
    + eapply steps_trans; [apply after_cors_steps|].
      eapply steps_trans; [apply steps_query|apply steps_log].
      Unshelve. all: reflexivity.
  - destruct (handleFileUploadResponse_run hw fuel w Hf)
      as (w' & pre & E & T & _ & [[_ S]|[_ S]]);
      (exists w'; eexists; split; [exact E|]; split; [exact S|]);
      files_alone.
  - eexists. eexists. split; [reflexivity|].
    split; [eapply steps_trans; [apply after_cors_steps|apply steps_log]|].
    reflexivity.
Qed.

Lemma reporting_handlers_leave_files_alone_witness :
  (2 <= 2)%nat /\
  leaves_files_alone
    (handleFileList (hw_healthy 0) 2 (mkRequest (Some "/") None None)) boot.
Proof.
  split; [lia|].
  apply (reporting_handlers_leave_files_alone (hw_healthy 0) 2
           (mkRequest (Some "/") None None)
           (mkReadings 0 0 "" 0 0 true "" 0 (fun _ => 0) (fun _ => 0)) boot).
  lia.
Defined.

(** ** Reconnecting and reporting *)

Lemma endsWith_app_r a b suf :
  endsWith b suf = true -> endsWith (a ++ b) suf = true.
Proof.
  intros H. destruct (endsWith_split _ _ H) as (c & ->).
  rewrite <- append_assoc. apply endsWith_app.
Qed.

Lemma occurs_app_r a s t : occurs s t -> occurs s (a ++ t).
Proof.
  intros (x & y & ->). exists (a ++ x)%string, y. now rewrite append_assoc.
Qed.

Lemma occurs_prefix s t : (exists b, t = (s ++ b)%string) -> occurs s t.
Proof. intros (b & ->). exists ""%string, b. now rewrite append_nil_l. Qed.

Lemma prefix_step x s t :
  (exists b, t = (s ++ b)%string) ->
  exists b, (x ++ t)%string = ((x ++ s) ++ b)%string.
Proof. intros (b & ->). exists b. now rewrite append_assoc. Qed.

Lemma prefix_refl s : exists b, s = (s ++ b)%string.
Proof. exists ""%string. now rewrite append_nil_r. Qed.

Lemma prefix_last s b : exists b', (s ++ b)%string = (s ++ b')%string.
Proof. now exists b. Qed.

Ltac is_prefix :=
  solve [ repeat first [apply prefix_refl | apply prefix_last
                       | apply prefix_step] ].

Ltac find_occurrence :=
  rewrite ?append_assoc;
  repeat first [ apply occurs_prefix; is_prefix | apply occurs_app_r ].

Lemma systemInfoText_unavailable sys spi :
  endsWith (systemInfoText sys false spi) ("SD Card: Not Available" ++ lf)
  = true.
Proof.
  unfold systemInfoText. rewrite !append_assoc.
  repeat match goal with
         | |- endsWith (_ ++ _ ++ _ ++ _) _ = true => apply endsWith_app_r
         end.
  reflexivity.
Qed.

Lemma systemInfoText_available sys m :
  occurs ("SD Card: Available (" ++ modeName m ++ " mode)" ++ lf
            ++ "SD Card Size: " ++ String_of_Z (cardSize sys m / MB)
            ++ " MB" ++ lf
            ++ "SD Card Used: " ++ String_of_Z (usedBytes sys m / MB)
            ++ " MB" ++ lf)
         (systemInfoText sys true (is_spi m)).
Proof.
  unfold systemInfoText, MB.
  destruct m; cbn [is_spi modeName];
    change ("SD Card: Available (" ++ ?x)%string
      with ("SD Card: " ++ "Available (" ++ x)%string;
    find_occurrence.
Qed.



(** X14: the system information page reports what the health check
    says, and runs it.  It always answers 200, and its card line is the
    result of [checkSDCardStatus], not of [initializeSDCard]: with the
    transport uninitialized the page touches no hardware and ends in
    [SD Card: Not Available], even if a card could be mounted; inside
    the check window it only reads the clock; once the window has
    elapsed it probes the card once, and when the probe fails the page
    goes through the forced reinitialization, so that asking for the
    page can remount the card.  When the check passes, the page names the
    active mode and shows the sizes read from that mode's driver, in
    whole megabytes. *)
Theorem handleSystemInfo_reports_status
    (hw : Hw) (fuel : nat) (sys : SystemReadings) (w : World) :
  (1 <= fuel)%nat ->
  exists r w1 w' pre text,
    checkSDCardStatus hw fuel (after_cors w) = Some (r, w1) /\
    text = systemInfoText sys r (usingSPIMode w1) /\
    w' = log (EvSend 200 "text/plain" text) w1 /\
    handleSystemInfo hw fuel sys w = Some (tt, w') /\
    steps w w' (cors_headers ++ pre ++ [EvSend 200 "text/plain" text]) /\
    forallb transport_event pre = true /\
    (count_probes pre <= 1)%nat /\
    sdCardInitialized w' = r /\
    (sdCardInitialized w = false -> r = false /\ pre = []) /\
    (sdCardInitialized w = true -> elapsed hw w <= SD_CHECK_INTERVAL ->
     r = true /\ pre = [EvMillis (wrap32 (hw_millis hw (tick w)))]) /\
    (sdCardInitialized w = true -> SD_CHECK_INTERVAL < elapsed hw w ->
     (isDirectory (probe_result hw (after_cors w)) = true ->
      r = true /\ w1 = probed hw (after_cors w)) /\
     (isDirectory (probe_result hw (after_cors w)) = false ->
      forceReinitializeSDCard hw fuel (probed hw (after_cors w))
      = Some (r, w1) /\
      exists probe o mount,
        pre = probe ++ [EvEnd (activeMode w); EvDelay 500] ++ mount /\
        In (EvProbe (activeMode w) (probe_result hw (after_cors w))) probe /\
        init_trace o mount /\
        r = is_some o)) /\
    (r = false ->
     endsWith text ("SD Card: Not Available" ++ lf) = true) /\
    (r = true ->
     occurs ("SD Card: Available (" ++ modeName (activeMode w') ++ " mode)"
               ++ lf ++ "SD Card Size: "
               ++ String_of_Z (cardSize sys (activeMode w') / MB)
               ++ " MB" ++ lf ++ "SD Card Used: "
               ++ String_of_Z (usedBytes sys (activeMode w') / MB)
               ++ " MB" ++ lf) text).
Proof.
  intros Hf.
  destruct (handleSystemInfo_run hw fuel sys w Hf)
    as (r & w1 & pre & (E0 & S & T & I) & C & E).
  exists r, w1. eexists. exists pre. eexists.
  split; [exact E0|]. split; [reflexivity|]. split; [reflexivity|].
  split; [exact E|]. split.
  { eapply steps_eq.
    { eapply steps_trans; [apply after_cors_steps|].
      eapply steps_trans; [exact S|apply steps_log]. }
    now list_norm. }
  split; [exact T|]. split; [exact C|]. split; [exact I|].
  split; [|split; [|split; [|split]]].
  - intros U.
    rewrite (checkSDCardStatus_uninitialized hw fuel (after_cors w) U) in E0.
    injection E0 as <- <-. split; [reflexivity|].
    destruct S as (S & _). destruct pre; [reflexivity|].
    apply (f_equal (@List.length Event)) in S. rewrite length_app in S.
    cbn [List.length] in S. lia.
  - intros Hi L.
    pose proof (checkSDCardStatus_throttled hw fuel (after_cors w) Hi L)
      as E1.
    rewrite E0 in E1. injection E1 as -> ->. split; [reflexivity|].
    destruct S as (S & _). cbn [trace query] in S.
    apply app_inv_head in S. now symmetry.
  - intros Hi L.
    pose proof (checkSDCardStatus_probing hw fuel (after_cors w) Hi L) as E1.
    split; intros D; rewrite D in E1.
    + rewrite E0 in E1. injection E1 as -> ->. auto.
    + rewrite E0 in E1. split; [now symmetry|].
      destruct fuel as [|fuel]; [lia|].
      destruct (forceReinitializeSDCard_spec hw fuel
                  (probed hw (after_cors w)))
        as (o & w2 & mount & E2 & S2 & T2 & _).
      rewrite <- E1 in E2. injection E2 as -> <-.
      assert (Q : exists probe,
                 trace (probed hw (after_cors w))
                 = trace (after_cors w) ++ probe /\
                 In (EvProbe (activeMode w) (probe_result hw (after_cors w)))
                    probe /\
                 activeMode (probed hw (after_cors w)) = activeMode w).
      { unfold probed, probe_result.
        destruct (file_ok _); eexists;
          (split; [cbn; list_norm; reflexivity|]); cbn; auto 10. }
      destruct Q as (probe & Sp & Ip & Ap).
      exists probe, o, mount.
      split; [rewrite <- Ap|auto].
      destruct S as (S & _), S2 as (S2 & _).
      rewrite Sp, S in S2. rewrite <- app_assoc in S2.
      now apply app_inv_head in S2.
  - intros ->. apply systemInfoText_unavailable.
  - intros ->.
    replace (usingSPIMode w1) with (is_spi (activeMode w1))
      by (unfold activeMode; now destruct (usingSPIMode w1)).
    apply systemInfoText_available.
Qed.

Lemma handleSystemInfo_reports_status_witness :
  (1 <= 1)%nat /\
  exists r w1 w' pre text,
    checkSDCardStatus (hw_healthy 0) 1 (after_cors boot) = Some (r, w1) /\
    text = systemInfoText
             (mkReadings 0 0 "" 0 0 true "" 0 (fun _ => 0) (fun _ => 0))
             r (usingSPIMode w1) /\
    w' = log (EvSend 200 "text/plain" text) w1 /\
    handleSystemInfo (hw_healthy 0) 1
      (mkReadings 0 0 "" 0 0 true "" 0 (fun _ => 0) (fun _ => 0)) boot
    = Some (tt, w') /\
    steps boot w' (cors_headers ++ pre ++ [EvSend 200 "text/plain" text]) /\
    forallb transport_event pre = true /\
    (count_probes pre <= 1)%nat /\
    sdCardInitialized w' = r /\
    (sdCardInitialized boot = false -> r = false /\ pre = []).
Proof.
  split; [lia|].
  destruct (handleSystemInfo_reports_status (hw_healthy 0) 1
              (mkReadings 0 0 "" 0 0 true "" 0 (fun _ => 0) (fun _ => 0))
              boot (Nat.le_refl 1))
    as (r & w1 & w' & pre & text & E0 & Et & Ew & E & S & T & C & I & U & _).
  exists r, w1, w', pre, text. auto 12.
Defined.

(** ** Frames outside the stream *)

(** X15: the camera test and the capture/release helpers give back
    what they take.  The camera test answers 500 when the driver has no
    frame and 200 otherwise; it reads the frame's size and format and
    returns the frame before it answers, exactly once, and never consults
    the card.  Any use of a frame that is bracketed by [captureImage] and
    [releaseFrameBuffer] and does not itself touch the frame pool obeys
    the ownership rule and ends holding no frame, whether or not the
    driver had a frame to give. *)
Theorem camera_helpers_return_their_frame
    (hw : Hw) (w : World) (body : option camera_fb_t -> M unit) :
  (forall fb w0, exists w1 evs,
      body fb w0 = Some (tt, w1) /\ steps w0 w1 evs /\
      forallb no_fb evs = true) ->
  (exists w' evs,
      handleCameraTest hw w = Some (tt, w') /\
      steps w w' (cors_headers ++ evs) /\
      fb_run None evs = Some None /\
      sdCardInitialized w' = sdCardInitialized w /\
      usingSPIMode w' = usingSPIMode w /\
      lastSDCheckTime w' = lastSDCheckTime w /\
      match hw_fb_get hw (tick w) with
      | Some f =>
          evs = [EvFbGet (Some f); EvFbRead (fb_ptr f);
                 EvFbReturn (fb_ptr f);
                 EvSend 200 "application/json"
                   (cameraTestOk (wrap_int32 (width f))
                      (wrap_int32 (height f)) (len f)
                      (format f =? PIXFORMAT_JPEG))]
      | None =>
          evs = [EvFbGet None;
                 EvSend 500 "application/json"
                   (json_error "Camera test failed - no frame buffer")]
      end) /\
  (exists w' evs,
      (fb <- captureImage hw ;; body fb ;; releaseFrameBuffer fb) w
      = Some (tt, w') /\
      steps w w' evs /\
      fb_run None evs = Some None).
Proof.
  intros B. split.
  - pose proof (handleCameraTest_run hw w) as E.
    destruct (hw_fb_get hw (tick w)) as [f|];
      (eexists; eexists; split; [exact E|]).
    + split.
      { eapply steps_eq.
        { eapply steps_trans; [apply after_cors_steps|].
          eapply steps_trans; [apply steps_query|].
          eapply steps_trans; [apply steps_log|].
          eapply steps_trans; [apply steps_log|apply steps_log]. }
        now list_norm. }
      split; [simpl; now rewrite !N.eqb_refl|].
      repeat (split; [reflexivity|]). reflexivity.
    + split.
      { eapply steps_eq.
        { eapply steps_trans; [apply after_cors_steps|].
          eapply steps_trans; [apply steps_query|apply steps_log]. }
        now list_norm. }
      split; [reflexivity|].
      repeat (split; [reflexivity|]). reflexivity.
  - unfold captureImage. unfold bind at 1, bind at 1, ask at 1.
    destruct (hw_fb_get hw (tick w)) as [f|]; unfold ret at 1;
      unfold bind at 1.
    + destruct (B (Some f) (query (EvFbGet (Some f)) w))
        as (w1 & evs & E & S & N).
      rewrite E. cbn [releaseFrameBuffer].
      eexists. eexists. split; [reflexivity|]. split.
      * eapply steps_trans; [apply steps_query|].
        eapply steps_trans; [exact S|apply steps_log].
      * simpl. rewrite fb_run_app, (fb_run_no_fb _ _ N). simpl.
        now rewrite N.eqb_refl.
    + destruct (B None (query (EvFbGet None) w)) as (w1 & evs & E & S & N).
      rewrite E. cbn [releaseFrameBuffer].
      eexists. eexists. split; [reflexivity|]. split.
      * eapply steps_eq.
        { eapply steps_trans; [apply steps_query|exact S]. }
        reflexivity.
      * simpl. now apply fb_run_no_fb.
Qed.

Lemma camera_helpers_return_their_frame_witness :
  exists w' evs,
    (fb <- captureImage (hw_camera frame3 1) ;;
     (fun _ => delay 5) fb ;; releaseFrameBuffer fb) boot
    = Some (tt, w') /\
    steps boot w' evs /\
    fb_run None evs = Some None.
Proof.
  apply (camera_helpers_return_their_frame (hw_camera frame3 1) boot
           (fun _ => delay 5)).
  intros fb w0. exists (log (EvDelay 5) w0), [EvDelay 5].
  split; [reflexivity|]. split; [apply steps_log|reflexivity].
Defined.

(** ** The chunk loop *)

Lemma sendChunks_shape fbLen :
  fbLen + 1024 <= 2 ^ 32 ->
  forall fuel fbBuf n w,
    0 <= n -> n mod 1024 = 0 -> n < fbLen + 1024 ->
    fbLen - n + 1024 <= 1024 * Z.of_nat fuel ->
    exists w' evs,
      sendChunks fuel fbBuf n fbLen w = Some (tt, w') /\
      steps w w' evs /\
      (forall e, In e evs ->
                 exists chunk, e = EvClientWrite chunk /\
                               (List.length chunk <= 1024)%nat) /\
      Z.of_nat (List.length evs) =
      if n <? fbLen
      then fbLen / 1024 - n / 1024 + (if fbLen mod 1024 =? 0 then -1 else 1)
      else 0.
Proof.
  intros Hmax. induction fuel as [|fuel IH]; intros fbBuf n w H0 Hm Hn Hf.
  - lia.
  - cbn [sendChunks].
    pose proof (Z.mod_pos_bound fbLen 1024 ltac:(lia)) as Hr.
    pose proof (Z.div_mod fbLen 1024 ltac:(lia)) as Hd.
    pose proof (Z.div_mod n 1024 ltac:(lia)) as Hk. rewrite Hm in Hk.
    destruct (Z.ltb_spec n fbLen) as [Hlt|Hge].
    2:{ exists w, []. split; [reflexivity|]. split; [apply steps_refl|].
        split; [intros e []|reflexivity]. }
    rewrite (wrap32_small (n + 1024)) by lia.
    assert (Hm' : (n + 1024) mod 1024 = 0).
    { rewrite <- (Z.mul_1_l 1024) at 1. rewrite Z.mod_add; lia. }
    assert (Hq : (n + 1024) / 1024 = n / 1024 + 1).
    { rewrite <- (Z.mul_1_l 1024) at 1. rewrite Z.div_add; lia. }
    destruct (Z.ltb_spec (n + 1024) fbLen) as [Hfull|Hlast].
    + unfold bind, emit, modify.
      destruct (IH (skipn 1024 fbBuf) (n + 1024)
                  (log (EvClientWrite (firstn 1024 fbBuf)) w))
        as (w' & evs & E & S & C & L); try lia.
      exists w', (EvClientWrite (firstn 1024 fbBuf) :: evs).
      split; [exact E|].
      split; [eapply (steps_trans _ _ _ [_]); [apply steps_log|exact S]|].
      split.
      * intros e [<-|I]; [|auto].
        eexists. split; [reflexivity|apply firstn_le_length].
      * cbn [List.length]. rewrite Nat2Z.inj_succ, L, Hq.
        destruct (Z.ltb_spec (n + 1024) fbLen); [|lia].
        destruct (fbLen mod 1024 =? 0); lia.
    + destruct (Z.ltb_spec 0 (fbLen mod 1024)) as [Hrem|Hzero].
      * unfold bind, emit, modify.
        destruct (IH fbBuf (n + 1024)
                    (log (EvClientWrite
                            (firstn (Z.to_nat (fbLen mod 1024)) fbBuf)) w))
          as (w' & evs & E & S & C & L); try lia.
        exists w', (EvClientWrite (firstn (Z.to_nat (fbLen mod 1024)) fbBuf)
                      :: evs).
        split; [exact E|].
        split; [eapply (steps_trans _ _ _ [_]); [apply steps_log|exact S]|].
        split.
        -- intros e [<-|I]; [|auto].
           eexists. split; [reflexivity|].
           pose proof (firstn_le_length (Z.to_nat (fbLen mod 1024)) fbBuf).
           lia.
        -- cbn [List.length]. rewrite Nat2Z.inj_succ, L.
           destruct (Z.ltb_spec (n + 1024) fbLen); [lia|].
           destruct (Z.eqb_spec (fbLen mod 1024) 0); [lia|].
           nia.
      * destruct (IH fbBuf (n + 1024) w) as (w' & evs & E & S & C & L);
          try lia.
        exists w', evs. split; [exact E|]. split; [exact S|].
        split; [exact C|]. rewrite L.
        destruct (Z.ltb_spec (n + 1024) fbLen); [lia|].
        destruct (Z.eqb_spec (fbLen mod 1024) 0); [|lia].
        nia.
Qed.

(** X16: a frame whose length is not a multiple of 1024 is streamed
    whole.  For such a frame of [fbLen] bytes (with [fbLen + 1024] below
    2^32, so that the loop counter cannot wrap) the chunk loop writes to
    the client and does nothing else, in [fbLen / 1024 + 1] writes of at
    most 1024 bytes each, and the bytes written are exactly the frame's
    bytes in order. *)
Theorem sendChunks_streams_whole_frame
    (fuel : nat) (fbBuf : list byte) (fbLen : Z) (w : World) :
  0 < fbLen -> fbLen mod 1024 <> 0 ->
  fbLen + 1024 <= 2 ^ 32 ->
  fbLen + 1024 <= 1024 * Z.of_nat fuel ->
  Z.of_nat (List.length fbBuf) = fbLen ->
  exists w' evs,
    sendChunks fuel fbBuf 0 fbLen w = Some (tt, w') /\
    steps w w' evs /\
    payload evs = fbBuf /\
    Z.of_nat (List.length evs) = fbLen / 1024 + 1 /\
    forall e, In e evs ->
              exists chunk, e = EvClientWrite chunk /\
                            (List.length chunk <= 1024)%nat.
Proof.
  intros Hp Hr Hm Hf Hl.
  destruct (sendChunks_payload (hw_healthy 0) fuel fbBuf fbLen w Hp Hm Hf)
    as (w' & evs & E & S & P).
  destruct (sendChunks_shape fbLen Hm fuel fbBuf 0 w)
    as (w2 & evs2 & E2 & S2 & C & L); try lia; [reflexivity|].
  rewrite E in E2. injection E2 as <-.
  assert (evs2 = evs) as ->.
  { destruct S as (S & _), S2 as (S2 & _). rewrite S in S2.
    now apply app_inv_head in S2. }
  exists w', evs. split; [exact E|]. split; [exact S|].
  split; [|split; [|exact C]].
  - rewrite P. destruct (Z.eqb_spec (fbLen mod 1024) 0); [contradiction|].
    apply firstn_all2. lia.
  - rewrite L. destruct (Z.ltb_spec 0 fbLen); [|lia].
    destruct (Z.eqb_spec (fbLen mod 1024) 0); [contradiction|].
    cbn. lia.
Qed.

Lemma sendChunks_streams_whole_frame_witness :
  0 < 3 /\ 3 mod 1024 <> 0 /\ 3 + 1024 <= 2 ^ 32 /\
  3 + 1024 <= 1024 * Z.of_nat 2 /\
  exists w' evs,
    sendChunks 2 (buf frame3) 0 3 boot = Some (tt, w') /\
    steps boot w' evs /\
    payload evs = buf frame3.
Proof.
  assert (H1 : 0 < 3) by lia.
  assert (H2 : 3 mod 1024 <> 0) by (cbn; lia).
  assert (H3 : 3 + 1024 <= 2 ^ 32) by (cbn; lia).
  assert (H4 : 3 + 1024 <= 1024 * Z.of_nat 2) by (cbn; lia).
  repeat (split; [assumption|]).
  destruct (sendChunks_streams_whole_frame 2 (buf frame3) 3 boot
              H1 H2 H3 H4 eq_refl)
    as (w' & evs & E & S & P & _).
  exists w', evs. auto.
Defined.

(** ** Upload sessions *)

Lemma writes_nothing_transport evs :
  forallb transport_event evs = true -> writes_nothing evs.
Proof.
  unfold writes_nothing.
  induction evs as [|e evs IH]; [reflexivity|].
  cbn [forallb]. intros H. apply andb_prop in H as [He H].
  rewrite (IH H), andb_true_r.
  destruct e; try discriminate He; reflexivity.
Qed.

Lemma writes_nothing_app e1 e2 :
  writes_nothing e1 -> writes_nothing e2 -> writes_nothing (e1 ++ e2).
Proof. unfold writes_nothing. intros A B. now rewrite forallb_app, A, B. Qed.

Lemma open_failures_app e1 e2 :
  count_occ_open_failures (e1 ++ e2) =
  (count_occ_open_failures e1 + count_occ_open_failures e2)%nat.
Proof. unfold count_occ_open_failures. now rewrite filter_app, length_app. Qed.

Lemma open_failures_transport evs :
  forallb transport_event evs = true -> count_occ_open_failures evs = 0%nat.
Proof.
  unfold count_occ_open_failures.
  induction evs as [|e evs IH]; [reflexivity|].
  cbn [forallb]. intros H. apply andb_prop in H as [He H].
  cbn [filter]. destruct e; try discriminate He; cbn; auto.
Qed.

Section UploadProofs.

Variable hw : Hw.

(** What happens between two tries to open the upload file. *)
Lemma upload_between_tries fuel k w :
  (1 <= fuel)%nat ->
  exists w1 pre,
    (if (0 <? k)%nat then
       delay 100 ;;
       ok <- checkSDCardStatus hw fuel ;;
       if negb ok then
         _ <- forceReinitializeSDCard hw fuel ;;
         ret tt
       else ret tt
     else modify (with_uploadError true)) w = Some (tt, w1) /\
    trace w1 = trace w ++ pre /\
    forallb transport_event pre = true /\
    uploadFile w1 = uploadFile w /\
    uploadPath w1 = uploadPath w /\
    uploadError w1 = (if (0 <? k)%nat then uploadError w else true).
Proof.
  intros Hf. destruct (0 <? k)%nat.
  - unfold bind at 1, delay, emit, modify. unfold bind at 1.
    destruct (checkSDCardStatus_run hw fuel (log (EvDelay 100) w) Hf)
      as (r1 & w1 & e1 & (E1 & S1 & T1 & _) & _).
    rewrite E1. destruct r1; cbn [negb].
    + exists w1, (EvDelay 100 :: e1). split; [reflexivity|].
      destruct S1 as (S1 & U1 & U2 & U3). cbn in S1.
      rewrite S1. list_norm. cbn. auto.
    + unfold bind at 1.
      destruct (forceReinitializeSDCard_run hw fuel w1 Hf)
        as (r2 & w2 & e2 & (E2 & S2 & T2 & _) & _).
      rewrite E2. exists w2, (EvDelay 100 :: e1 ++ e2).
      split; [reflexivity|].
      destruct (steps_trans _ _ _ _ _ S1 S2) as (S & U1 & U2 & U3).
      cbn in S. rewrite S. list_norm.
      split; [reflexivity|]. cbn. rewrite forallb_app, T1, T2. auto.
  - exists (with_uploadError true w), []. split; [reflexivity|].
    cbn. rewrite app_nil_r. auto.
Qed.

Lemma uploadOpenRetry_run fuel retries :
  (1 <= fuel)%nat ->
  forall w, uploadFile w = None ->
  exists w' evs,
    uploadOpenRetry hw fuel retries w = Some (tt, w') /\
    trace w' = trace w ++ evs /\
    uploadPath w' = uploadPath w /\
    ((exists pre m h,
         evs = pre ++ [EvOpen m (uploadPath w) true (Some h)] /\
         writes_nothing pre /\
         uploadFile w' = Some h /\
         uploadError w' = uploadError w /\
         (count_occ_open_failures pre < retries)%nat) \/
     (writes_nothing evs /\
      uploadFile w' = None /\
      count_occ_open_failures evs = retries /\
      (uploadError w' = true \/
       retries = 0%nat /\ uploadError w' = uploadError w))).
Proof.
  intros Hf. induction retries as [|k IH]; intros w U.
  - exists w, []. split; [reflexivity|]. rewrite app_nil_r.
    split; [reflexivity|]. split; [reflexivity|]. right.
    split; [reflexivity|]. auto.
  - cbn [uploadOpenRetry]. unfold bind at 1, get at 1. rewrite U.
    cbn [file_ok]. unfold bind at 1, get at 1. unfold bind at 1.
    rewrite sd_open_spec.
    destruct (hw_open hw (activeMode w) (uploadPath w) true (tick w))
      as [h|] eqn:O.
    + unfold bind at 1, modify at 1. cbn [file_ok negb]. unfold ret.
      eexists. exists [EvOpen (activeMode w) (uploadPath w) true (Some h)].
      split; [reflexivity|]. split; [reflexivity|].
      split; [reflexivity|]. left.
      exists [], (activeMode w), h.
      split; [reflexivity|]. split; [reflexivity|].
      split; [reflexivity|]. split; [reflexivity|]. cbn. lia.
    + unfold bind at 1, modify at 1. cbn [file_ok negb]. unfold bind at 1.
      set (w0 := with_uploadFile None
                   (query (EvOpen (activeMode w) (uploadPath w) true None) w)).
      destruct (upload_between_tries fuel k w0 Hf)
        as (w1 & pre & E1 & S1 & T1 & F1 & P1 & R1).
      rewrite E1.
      destruct (IH w1 F1) as (w2 & e2 & E2 & S2 & P2 & D).
      exists w2,
        ([EvOpen (activeMode w) (uploadPath w) true None] ++ pre ++ e2).
      split; [exact E2|].
      split; [rewrite S2, S1; unfold w0; cbn; now list_norm|].
      split; [now rewrite P2, P1|].
      assert (C0 : count_occ_open_failures
                     ([EvOpen (activeMode w) (uploadPath w) true None]
                        ++ pre) = 1%nat).
      { rewrite open_failures_app, (open_failures_transport _ T1).
        reflexivity. }
      assert (W0 : writes_nothing
                     ([EvOpen (activeMode w) (uploadPath w) true None]
                        ++ pre)).
      { apply writes_nothing_app;
          [reflexivity|now apply writes_nothing_transport]. }
      destruct D as [(p2 & m & h & -> & W & F2 & R2 & C)
                    |(W & F2 & C & R2)].
      * left.
        exists ([EvOpen (activeMode w) (uploadPath w) true None]
                  ++ pre ++ p2), m, h.
        rewrite P1 in *. change (uploadPath w0) with (uploadPath w) in *.
        split; [now list_norm|].
        split; [rewrite app_assoc; now apply writes_nothing_app|].
        split; [exact F2|]. split.
        -- rewrite R2, R1. destruct k; [cbn in C; lia|reflexivity].
        -- rewrite app_assoc, open_failures_app, C0. lia.
      * right.
        split; [rewrite app_assoc; now apply writes_nothing_app|].
        split; [exact F2|].
        split; [rewrite app_assoc, open_failures_app, C0, C; lia|].
        left. destruct R2 as [R2|[-> R2]]; [exact R2|].
        now rewrite R2, R1.
Qed.

Lemma upload_start_run fuel req u w :
  (2 <= fuel)%nat ->
  status u = UPLOAD_FILE_START ->
  uploadFile w = None ->
  exists w' evs,
    handleFileUpload hw fuel req u w = Some (tt, w') /\
    trace w' = trace w ++ cors_headers ++ evs /\
    ((exists pre m h,
         evs = pre ++ [EvOpen m (uploadTarget req u) true (Some h)] /\
         writes_nothing pre /\
         uploadFile w' = Some h /\
         uploadError w' = false /\
         uploadPath w' = uploadTarget req u /\
         (count_occ_open_failures pre < 3)%nat) \/
     (writes_nothing evs /\ uploadFile w' = None /\ uploadError w' = true)).
Proof.
  intros Hf Hs U. unfold handleFileUpload. rewrite Hs.
  unfold bind at 1. rewrite cors_steps. fold (after_cors w).
  unfold bind at 1, modify at 1.
  set (w0 := with_uploadError false (after_cors w)).
  assert (K : forall w2 pre,
             trace w2 = trace w ++ cors_headers ++ pre ->
             forallb transport_event pre = true ->
             uploadFile w2 = None -> uploadError w2 = false ->
             exists w' evs,
               (modify (with_uploadPath (uploadTarget req u)) ;;
                uploadOpenRetry hw fuel 3) w2 = Some (tt, w') /\
               trace w' = trace w ++ cors_headers ++ evs /\
               ((exists pre m h,
                    evs = pre ++ [EvOpen m (uploadTarget req u) true (Some h)]
                    /\ writes_nothing pre /\
                    uploadFile w' = Some h /\
                    uploadError w' = false /\
                    uploadPath w' = uploadTarget req u /\
                    (count_occ_open_failures pre < 3)%nat) \/
                (writes_nothing evs /\ uploadFile w' = None /\
                 uploadError w' = true))).
  { intros w2 pre S2 T2 F2 R2. unfold bind at 1, modify at 1.
    destruct (uploadOpenRetry_run fuel 3 ltac:(lia)
                (with_uploadPath (uploadTarget req u) w2) F2)
      as (w3 & e3 & E3 & S3 & P3 & D).
    cbn [uploadPath with_uploadPath] in *.
    exists w3, (pre ++ e3). split; [exact E3|].
    split; [rewrite S3; cbn; rewrite S2; now list_norm|].
    destruct D as [(p & m & h & -> & W & F3 & R3 & C)|(W & F3 & C & R3)].
    - left. exists (pre ++ p), m, h.
      split; [now list_norm|].
      split; [apply writes_nothing_app;
              [now apply writes_nothing_transport|exact W]|].
      split; [exact F3|]. split; [now rewrite R3|].
      split; [exact P3|].
      rewrite open_failures_app, (open_failures_transport _ T2). exact C.
    - right.
      split; [apply writes_nothing_app;
              [now apply writes_nothing_transport|exact W]|].
      split; [exact F3|].
      destruct R3 as [R3|[R3 _]]; [exact R3|discriminate]. }
  unfold bind at 1.
  destruct (sdNotAvailable_run hw fuel w0 Hf)
    as (b & w1 & e1 & E1 & S1 & T1 & _).
  rewrite E1.
  destruct S1 as (S1 & F1 & P1 & R1). cbn in S1, F1, P1, R1.
  destruct b.
  - unfold bind at 1, bind at 1.
    destruct (forceReinitializeSDCard_run hw fuel w1 ltac:(lia))
      as (r2 & w2 & e2 & (E2 & S2 & T2 & _) & _).
    rewrite E2. destruct S2 as (S2 & F2 & P2 & R2).
    destruct r2; cbn [negb].
    + unfold ret at 1. cbn [negb].
      apply (K w2 (e1 ++ e2)).
      * rewrite S2, S1. now list_norm.
      * rewrite forallb_app, T1, T2. reflexivity.
      * congruence.
      * congruence.
    + unfold bind at 1, modify at 1, ret at 1. cbn [negb]. unfold ret.
      eexists. exists (e1 ++ e2). split; [reflexivity|].
      split; [cbn; rewrite S2, S1; now list_norm|].
      right. split; [|split; [cbn; congruence|reflexivity]].
      apply writes_nothing_app; now apply writes_nothing_transport.
  - unfold bind at 1, ret at 1. cbn [negb].
    apply (K w1 e1); [rewrite S1; now list_norm|exact T1|congruence..].
Qed.

Lemma upload_write_run fuel req u w :
  status u = UPLOAD_FILE_WRITE ->
  handleFileUpload hw fuel req u w =
  Some (tt,
        if file_ok (uploadFile w) && negb (uploadError w) then
          let written := wrap32 (hw_write hw (tick w) (currentSize u)) in
          let w1 := query (EvFileWrite
                             (firstn (Z.to_nat (currentSize u)) (upload_buf u))
                             (currentSize u) written) w in
          if written =? currentSize u then
            let now := wrap32 (hw_millis hw (tick w1)) in
            let w2 := query (EvMillis now) w1 in
            if 1000 <? wrap32 (now - lastProgress w) then
              let t := wrap32 (hw_millis hw (tick w2)) in
              with_lastProgress t (query (EvMillis t) w2)
            else w2
          else with_uploadError true w1
        else w).
Proof.
  intros Hs. unfold handleFileUpload. rewrite Hs. run.
  destruct (file_ok (uploadFile w) && negb (uploadError w)); [|reflexivity].
  cbn. destruct (_ =? _); [|reflexivity]. cbn.
  now destruct (1000 <? _).
Qed.

Lemma upload_writes_run fuel req chunks :
  Forall (fun u => status u = UPLOAD_FILE_WRITE) chunks ->
  forall w, exists w' evs,
    deliverPhases hw fuel req chunks w = Some (tt, w') /\
    trace w' = trace w ++ evs /\
    uploadFile w' = uploadFile w /\
    uploadPath w' = uploadPath w /\
    (uploadError w = true -> uploadError w' = true /\ evs = []) /\
    (uploadFile w = None -> evs = []) /\
    (uploadError w' = false -> uploadFile w <> None ->
     chunk_trace (lastProgress w) chunks evs (lastProgress w')).
Proof.
  induction 1 as [|u chunks Hu _ IH]; intros w.
  - exists w, []. split; [reflexivity|]. rewrite app_nil_r.
    repeat split; auto. intros _ _. constructor.
  - cbn [deliverPhases]. unfold bind at 1.
    rewrite (upload_write_run fuel req u w Hu).
    destruct (uploadFile w) as [h|] eqn:F; cbn [file_ok andb].
    2:{ destruct (IH w) as (w' & evs & E & S & F' & P' & R1 & R2 & R3).
        exists w', evs. split; [exact E|]. split; [exact S|].
        split; [congruence|]. split; [exact P'|].
        split; [exact R1|]. split; [intros _; apply R2; exact F|].
        intros _ N. now contradiction N. }
    destruct (uploadError w) eqn:R; cbn [negb].
    { destruct (IH w) as (w' & evs & E & S & F' & P' & R1 & R2 & R3).
      exists w', evs. split; [exact E|]. split; [exact S|].
      split; [congruence|]. split; [exact P'|].
      split; [intros _; now apply R1|]. split; [discriminate|].
      intros Z _. destruct (R1 R) as [R' _]. congruence. }
    cbv zeta.
    set (written := wrap32 (hw_write hw (tick w) (currentSize u))).
    set (w1 := query (EvFileWrite
                        (firstn (Z.to_nat (currentSize u)) (upload_buf u))
                        (currentSize u) written) w).
    set (now := wrap32 (hw_millis hw (tick w1))).
    set (w2 := query (EvMillis now) w1).
    set (t := wrap32 (hw_millis hw (tick w2))).
    destruct (Z.eqb_spec written (currentSize u)) as [Hw|Hw].
    + destruct (Z.ltb_spec 1000 (wrap32 (now - lastProgress w))) as [Hp|Hp].
      * destruct (IH (with_lastProgress t (query (EvMillis t) w2)))
          as (w' & evs & E & S & F' & P' & R1 & R2 & R3).
        exists w', (EvFileWrite
                      (firstn (Z.to_nat (currentSize u)) (upload_buf u))
                      (currentSize u) written
                      :: EvMillis now :: EvMillis t :: evs).
        split; [exact E|].
        split; [rewrite S; unfold w2, w1; cbn; now list_norm|].
        split; [rewrite F'; exact F|]. split; [exact P'|].
        split; [discriminate|]. split; [discriminate|].
        intros Z _. rewrite Hw. fold (chunk_written u).
        apply chunk_progress; [exact Hp|].
        apply R3; [exact Z|]. cbn. congruence.
      * destruct (IH w2) as (w' & evs & E & S & F' & P' & R1 & R2 & R3).
        exists w', (EvFileWrite
                      (firstn (Z.to_nat (currentSize u)) (upload_buf u))
                      (currentSize u) written :: EvMillis now :: evs).
        split; [exact E|].
        split; [rewrite S; unfold w2, w1; cbn; now list_norm|].
        split; [rewrite F'; exact F|]. split; [exact P'|].
        split; [discriminate|]. split; [discriminate|].
        intros Z _. rewrite Hw. fold (chunk_written u).
        apply chunk_quiet; [exact Hp|].
        apply R3; [exact Z|]. cbn. congruence.
    + destruct (IH (with_uploadError true w1))
        as (w' & evs & E & S & F' & P' & R1 & R2 & R3).
      exists w', (EvFileWrite
                    (firstn (Z.to_nat (currentSize u)) (upload_buf u))
                    (currentSize u) written :: evs).
      split; [exact E|].
      split; [rewrite S; unfold w1; cbn; now list_norm|].
      split; [rewrite F'; exact F|]. split; [exact P'|].
      split; [discriminate|]. split; [discriminate|].
      intros Z _. destruct (R1 eq_refl) as [R' _]. congruence.
Qed.

Lemma upload_end_run fuel req u w :
  status u = UPLOAD_FILE_END ->
  exists w' evs,
    handleFileUpload hw fuel req u w = Some (tt, w') /\
    trace w' = trace w ++ evs /\
    uploadFile w' = None /\
    lastProgress w' = lastProgress w /\
    (uploadError w' = false ->
     uploadError w = false /\
     exists h m v,
       uploadFile w = Some h /\ h_size v = totalSize u /\
       evs = [EvFlush; EvClose; EvOpen m (uploadPath w) false (Some v);
              EvClose]).
Proof.
  intros Hs. unfold handleFileUpload. rewrite Hs.
  unfold bind at 1, get at 1.
  destruct (uploadFile w) as [h|] eqn:F; cbn [file_ok].
  2:{ eexists. exists []. split; [reflexivity|]. cbn. rewrite app_nil_r.
      split; [reflexivity|]. split; [exact F|]. split; [reflexivity|].
      discriminate. }
  unfold bind at 1, emit at 1, modify at 1.
  unfold bind at 1, emit at 1, modify at 1.
  unfold bind at 1, modify at 1. unfold bind at 1, get at 1.
  cbn [uploadError with_uploadFile log].
  destruct (uploadError w) eqn:R; cbn [negb].
  { eexists. exists [EvFlush; EvClose]. split; [reflexivity|]. cbn.
    split; [now list_norm|]. split; [reflexivity|].
    split; [reflexivity|]. congruence. }
  unfold bind at 1, get at 1. unfold bind at 1. rewrite sd_open_spec.
  change (activeMode (with_uploadFile None (log EvClose (log EvFlush w))))
    with (activeMode w).
  change (uploadPath (with_uploadFile None (log EvClose (log EvFlush w))))
    with (uploadPath w).
  change (tick (with_uploadFile None (log EvClose (log EvFlush w))))
    with (tick w).
  destruct (hw_open hw (activeMode w) (uploadPath w) false (tick w))
    as [v|] eqn:O; cbn [file_ok file_size andb when]; unfold bind at 1.
  - destruct (Z.eqb_spec (h_size v) (totalSize u)) as [Hv|Hv].
    + eexists. eexists. split; [reflexivity|]. cbn.
      split; [rewrite <- !app_assoc; reflexivity|].
      split; [reflexivity|]. split; [reflexivity|].
      intros _. split; [reflexivity|].
      exists h, (activeMode w), v. auto.
    + eexists. eexists. split; [reflexivity|]. cbn.
      split; [rewrite <- !app_assoc; reflexivity|].
      split; [reflexivity|]. split; [reflexivity|]. discriminate.
  - eexists. eexists. split; [reflexivity|]. cbn.
    split; [rewrite <- !app_assoc; reflexivity|].
    split; [reflexivity|]. split; [reflexivity|]. discriminate.
Qed.

Lemma upload_abort_run fuel req u w :
  status u = UPLOAD_FILE_ABORTED ->
  exists w' evs,
    handleFileUpload hw fuel req u w = Some (tt, w') /\
    trace w' = trace w ++ evs /\
    uploadFile w' = None /\ uploadError w' = true.
Proof.
  intros Hs. unfold handleFileUpload. rewrite Hs.
  unfold bind at 1, get at 1.
  destruct (uploadFile w) as [h|] eqn:F; cbn [file_ok when].
  - eexists. exists [EvClose]. split; [reflexivity|]. cbn. auto.
  - eexists. exists []. split; [reflexivity|]. cbn. rewrite app_nil_r. auto.
Qed.

Lemma deliverPhases_app fuel req p1 p2 w :
  deliverPhases hw fuel req (p1 ++ p2) w =
  match deliverPhases hw fuel req p1 w with
  | Some (_, w1) => deliverPhases hw fuel req p2 w1
  | None => None
  end.
Proof.
  revert w. induction p1 as [|u p1 IH]; intros w; [reflexivity|].
  rewrite <- app_comm_cons. cbn [deliverPhases]. unfold bind.
  destruct (handleFileUpload hw fuel req u w) as [[[] w1]|]; [apply IH|].
  reflexivity.
Qed.

End UploadProofs.

(** X17: an upload session ends clean only when the file was written
    whole and verified.  A session is a start phase, any number of write
    phases and an end or abort phase, delivered in order while no earlier
    upload file is open.  Every such session is carried through and
    closes its file.  An aborted session ends with the error flag set.
    If the flag is clear at the end, then the target (the [path]
    argument, a slash, the file name stripped of directories) was opened
    for writing after fewer than three failed tries; every chunk was then
    written in full and in order, each write followed by the handler's
    reading of the clock (and by a second reading, kept as
    [lastProgress], when more than a second had passed) and by nothing
    else; the file was flushed and closed, and it was then reopened and
    found to have the announced total size. *)
Theorem upload_session_clean_only_when_verified
    (hw : Hw) (fuel : nat) (req : Request)
    (start fin : HTTPUpload) (chunks : list HTTPUpload) (w : World) :
  (2 <= fuel)%nat ->
  status start = UPLOAD_FILE_START ->
  Forall (fun u => status u = UPLOAD_FILE_WRITE) chunks ->
  status fin = UPLOAD_FILE_END \/ status fin = UPLOAD_FILE_ABORTED ->
  uploadFile w = None ->
  exists w1 w' evs,
    handleFileUpload hw fuel req start w = Some (tt, w1) /\
    deliverPhases hw fuel req (start :: chunks ++ [fin]) w = Some (tt, w') /\
    trace w' = trace w ++ cors_headers ++ evs /\
    uploadFile w' = None /\
    (status fin = UPLOAD_FILE_ABORTED -> uploadError w' = true) /\
    (uploadError w' = false ->
     exists pre m h mid m' v,
       evs = pre ++ [EvOpen m (uploadTarget req start) true (Some h)]
                 ++ mid
                 ++ [EvFlush; EvClose;
                     EvOpen m' (uploadTarget req start) false (Some v);
                     EvClose] /\
       writes_nothing pre /\
       (count_occ_open_failures pre < 3)%nat /\
       chunk_trace (lastProgress w1) chunks mid (lastProgress w') /\
       h_size v = totalSize fin).
Proof.
  intros Hf Hs Hc He U.
  destruct (upload_start_run hw fuel req start w Hf Hs U)
    as (w1 & e1 & E1 & S1 & D1).
  destruct (upload_writes_run hw fuel req chunks Hc w1)
    as (w2 & e2 & E2 & S2 & F2 & P2 & R2 & N2 & C2).
  assert (E : forall w3,
             handleFileUpload hw fuel req fin w2 = Some (tt, w3) ->
             deliverPhases hw fuel req (start :: chunks ++ [fin]) w
             = Some (tt, w3)).
  { intros w3 E3. cbn [deliverPhases]. unfold bind at 1. rewrite E1.
    rewrite deliverPhases_app, E2. cbn [deliverPhases]. unfold bind.
    now rewrite E3. }
  exists w1. destruct He as [He|He].
  - destruct (upload_end_run hw fuel req fin w2 He)
      as (w3 & e3 & E3 & S3 & F3 & L3 & C3).
    exists w3, (e1 ++ e2 ++ e3). split; [exact E1|].
    split; [now apply E|].
    split; [rewrite S3, S2, S1; now list_norm|].
    split; [exact F3|]. split; [congruence|].
    intros Z. destruct (C3 Z) as (R3 & h & m' & v & F & V & ->).
    destruct D1 as [(pre & m & h1 & -> & W & F1 & R1 & P1 & C1)
                   |(_ & _ & R1)].
    2:{ destruct (R2 R1) as [R2' _]. congruence. }
    exists pre, m, h1, e2, m', v.
    rewrite P2, P1. split; [now list_norm|].
    split; [exact W|]. split; [exact C1|]. split; [|exact V].
    rewrite L3. apply C2; congruence.
  - destruct (upload_abort_run hw fuel req fin w2 He)
      as (w3 & e3 & E3 & S3 & F3 & R3).
    exists w3, (e1 ++ e2 ++ e3). split; [exact E1|].
    split; [now apply E|].
    split; [rewrite S3, S2, S1; now list_norm|].
    split; [exact F3|]. split; [auto|]. congruence.
Qed.

Lemma upload_session_clean_only_when_verified_witness :
  (2 <= 2)%nat /\
  (exists w' evs,
      deliverPhases (hw_storing 4) 2 (mkRequest (Some "/") None None)
        fourBytes boot = Some (tt, w') /\
      trace w' = trace boot ++ cors_headers ++ evs /\
      uploadFile w' = None) /\
  (exists w',
      deliverPhases (hw_storing 4) 2 (mkRequest (Some "/") None None)
        fourBytes boot = Some (tt, w') /\
      uploadError w' = false).
Proof.
  split; [lia|]. split.
  - destruct (upload_session_clean_only_when_verified (hw_storing 4) 2
                (mkRequest (Some "/") None None)
                (mkUpload UPLOAD_FILE_START "a.bin" 0 0 [])
                (mkUpload UPLOAD_FILE_END "a.bin" 4 0 [])
                [mkUpload UPLOAD_FILE_WRITE "a.bin" 4 4 [x01; x02; x03; x04]]
                boot (Nat.le_refl 2) eq_refl
                ltac:(repeat constructor)
                (or_introl eq_refl) eq_refl)
      as (w1 & w' & evs & _ & E & S & F & _).
    exists w', evs. auto.
  - eexists. split; vm_compute; reflexivity.
Defined.

(** ** The retry loop of the list handler *)

Lemma count_opens_app e1 e2 :
  count_opens (e1 ++ e2) = (count_opens e1 + count_opens e2)%nat.
Proof. unfold count_opens. now rewrite filter_app, length_app. Qed.

Lemma count_reconnects_app e1 e2 :
  count_reconnects (e1 ++ e2) =
  (count_reconnects e1 + count_reconnects e2)%nat.
Proof. unfold count_reconnects. now rewrite filter_app, length_app. Qed.

Lemma count_opens_transport evs :
  forallb transport_event evs = true -> count_opens evs = 0%nat.
Proof.
  unfold count_opens.
  induction evs as [|e evs IH]; [reflexivity|].
  cbn [forallb]. intros H. apply andb_prop in H as [He H].
  cbn [filter]. destruct e; try discriminate He; cbn; auto.
Qed.

Lemma attempt_trace_reconnects m o evs :
  attempt_trace m o evs -> count_reconnects evs = 0%nat.
Proof. intros H; destruct H; try destruct m; reflexivity. Qed.

Lemma attempts_reconnects m n o evs :
  attempts m n o evs -> count_reconnects evs = 0%nat.
Proof.
  induction 1 as [|n t evs A|n o evs rest A _ IH].
  - reflexivity.
  - eapply attempt_trace_reconnects; eauto.
  - rewrite !count_reconnects_app, (attempt_trace_reconnects _ _ _ A), IH.
    unfold backoff. now destruct (0 <? n)%nat.
Qed.

Lemma init_trace_reconnects o evs :
  init_trace o evs -> count_reconnects evs = 0%nat.
Proof.
  intros H; destruct H; rewrite ?count_reconnects_app;
    repeat match goal with
           | A : attempts _ _ _ _ |- _ =>
               rewrite (attempts_reconnects _ _ _ _ A); clear A
           end; reflexivity.
Qed.

(** X18: what a listing costs when the directory does not open.  The
    list handler's retry loop, which the handler enters with three
    tries, opens the requested path read-only on the active mode, at
    most [retries] times, and never changes what is stored.  It stops at
    the first open that succeeds; each failed open but the last is
    followed by a 100 ms pause and then by a forced reinitialization of
    the card (the active mode ended, a 500 ms pause, the whole mount
    procedure), whose result is ignored; after the last failed open
    nothing follows.  So the loop gives up only after exactly [retries]
    failed opens and [retries - 1] forced reinitializations (three and
    two in the handler), and a directory that opens at the n-th try has
    cost n - 1 of them. *)
Theorem openDirRetry_three_tries
    (hw : Hw) (fuel : nat) (path : string) (retries : nat) :
  (1 <= fuel)%nat ->
  forall w, exists root w' evs,
    openDirRetry hw fuel path retries w = Some (root, w') /\
    steps w w' evs /\
    (count_opens evs <= retries)%nat /\
    (forall m q fw r, In (EvOpen m q fw r) evs -> q = path /\ fw = false) /\
    (forall e, In e evs -> touches_files e = false) /\
    (root = None ->
     count_opens evs = retries /\
     count_reconnects evs = (retries - 1)%nat) /\
    (forall h, root = Some h ->
     S (count_reconnects evs) = count_opens evs /\
     exists pre m, evs = pre ++ [EvOpen m path false (Some h)]) /\
    retry_trace path retries root evs /\
    ((0 < retries)%nat ->
     exists rest,
       evs = EvOpen (activeMode w) path false
               (hw_open hw (activeMode w) path false (tick w)) :: rest).
Proof.
  intros Hf. induction retries as [|k IH]; intros w.
  - exists None, w, []. split; [reflexivity|]. split; [apply steps_refl|].
    split; [reflexivity|]. split; [intros ? ? ? ? []|].
    split; [intros ? []|]. split; [auto|]. split; [discriminate|].
    split; [constructor|lia].
  - cbn [openDirRetry]. unfold bind at 1. rewrite sd_open_spec.
    destruct (hw_open hw (activeMode w) path false (tick w)) as [h|] eqn:O;
      cbn [file_ok].
    + exists (Some h). eexists.
      exists [EvOpen (activeMode w) path false (Some h)].
      split; [reflexivity|]. split; [apply steps_query|].
      split; [cbn; lia|].
      split; [intros m q fw r [I|[]]; now inversion I|].
      split; [intros e [<-|[]]; reflexivity|].
      split; [discriminate|].
      split.
      { intros h' H. injection H as <-. split; [reflexivity|].
        now exists [], (activeMode w). }
      split; [constructor|]. intros _. now exists [].
    + unfold bind at 1.
      set (w0 := query (EvOpen (activeMode w) path false None) w).
      assert (P : exists w1 pre,
                 when (0 <? k)%nat
                   (delay 100 ;;
                    _ <- forceReinitializeSDCard hw fuel ;; ret tt) w0
                 = Some (tt, w1) /\
                 steps w0 w1 pre /\ forallb transport_event pre = true /\
                 count_reconnects pre = (if (0 <? k)%nat then 1 else 0)%nat /\
                 (if (0 <? k)%nat
                  then exists o mount,
                      pre = [EvDelay 100; EvEnd (activeMode w); EvDelay 500]
                            ++ mount /\ init_trace o mount
                  else pre = [])).
      { destruct (0 <? k)%nat; cbn [when].
        - unfold bind at 1, delay, emit, modify. unfold bind at 1.
          destruct fuel as [|fuel]; [lia|].
          destruct (forceReinitializeSDCard_spec hw fuel
                      (log (EvDelay 100) w0))
            as (o & w1 & mount & E1 & S1 & T1 & _).
          rewrite E1.
          exists w1, ([EvDelay 100] ++
                      [EvEnd (activeMode (log (EvDelay 100) w0)); EvDelay 500]
                      ++ mount).
          split; [reflexivity|].
          split; [eapply steps_trans; [apply steps_log|exact S1]|].
          split.
          { apply mount_is_transport. cbn.
            eapply init_trace_mount; eauto. }
          split.
          { rewrite !count_reconnects_app, (init_trace_reconnects _ _ T1).
            reflexivity. }
          exists o, mount. split; [reflexivity|exact T1].
        - exists w0, []. split; [reflexivity|].
          split; [apply steps_refl|]. repeat split; reflexivity. }
      destruct P as (w1 & pre & E1 & S1 & T1 & C1 & Sh1). rewrite E1.
      destruct (IH w1)
        as (root & w2 & e2 & E2 & S2 & B2 & Q2 & F2 & N2 & H2 & RT2 & _).
      exists root, w2, ([EvOpen (activeMode w) path false None] ++ pre ++ e2).
      split; [exact E2|].
      split.
      { eapply steps_trans; [apply steps_query|].
        eapply steps_trans; eauto. }
      assert (O1 : count_opens
                     ([EvOpen (activeMode w) path false None] ++ pre ++ e2) =
                   S (count_opens e2)).
      { rewrite !count_opens_app, (count_opens_transport _ T1).
        reflexivity. }
      assert (R1 : count_reconnects
                     ([EvOpen (activeMode w) path false None] ++ pre ++ e2) =
                   ((if (0 <? k)%nat then 1 else 0)
                    + count_reconnects e2)%nat).
      { rewrite !count_reconnects_app, C1. reflexivity. }
      split; [rewrite O1; lia|].
      split.
      { intros m q fw r I. apply in_app_or in I as [I|I].
        - destruct I as [I|[]]. now inversion I.
        - apply in_app_or in I as [I|I]; [not_transport|eauto]. }
      split.
      { intros e I. apply in_app_or in I as [I|I].
        - destruct I as [<-|[]]. reflexivity.
        - apply in_app_or in I as [I|I]; [|auto].
          pose proof (transport_leaves_files _ T1) as L.
          rewrite forallb_forall in L. specialize (L e I).
          now apply negb_true_iff in L. }
      split.
      { intros ->. destruct (N2 eq_refl) as [A B].
        rewrite O1, R1, A, B. split; [reflexivity|].
        destruct k; cbn; lia. }
      split.
      { intros h ->. destruct (H2 h eq_refl) as (A & p & m & ->).
        split.
        * rewrite O1, R1.
          destruct k as [|k]; [|cbn [Nat.ltb Nat.leb]; lia].
          cbn in B2. rewrite <- A in B2. lia.
        * exists ([EvOpen (activeMode w) path false None] ++ pre ++ p), m.
          now list_norm. }
      split; [|intros _; now eexists].
      destruct k as [|k]; cbn [Nat.ltb Nat.leb] in Sh1.
      * subst pre. inversion RT2; subst. constructor.
      * destruct Sh1 as (o & mount & -> & T).
        exact (retry_again path k (activeMode w) o mount root e2 T RT2).
Qed.

Lemma openDirRetry_three_tries_witness :
  (1 <= 1)%nat /\
  exists root w' evs,
    openDirRetry (hw_healthy 0) 1 "/photos" 3 mounted_world
    = Some (root, w') /\
    steps mounted_world w' evs /\
    (count_opens evs <= 3)%nat.
Proof.
  split; [lia|].
  destruct (openDirRetry_three_tries (hw_healthy 0) 1 "/photos" 3
              (Nat.le_refl 1) mounted_world)
    as (root & w' & evs & E & S & C & _).
  exists root, w', evs. auto.
Defined.

(** ** What a capture answer means *)

Lemma save_trace_saved length buffer filepath evs :
  save_trace length buffer filepath true evs ->
  exists m h,
    In (EvOpen m filepath true (Some h)) evs /\
    In (EvFileWrite (firstn (Z.to_nat length) buffer) length length) evs.
Proof.
  intros H. inversion H as [| |pre m h written T E]; subst.
  apply Z.eqb_eq in E. subst written.
  exists m, h. rewrite !in_app_iff. cbn. auto 10.
Qed.

Lemma save_trace_failed length buffer filepath evs :
  save_trace length buffer filepath false evs ->
  forall d q x, In (EvFileWrite d q x) evs -> x <> q.
Proof.
  intros H d q x I.
  destruct (save_trace_writes _ _ _ _ _ H) as [_ W].
  destruct (W _ _ _ I) as (_ & -> & E). symmetry in E.
  now apply Z.eqb_neq in E.
Qed.

Lemma save_trace_opens length buffer filepath r evs :
  save_trace length buffer filepath r evs ->
  forall m q fw r', In (EvOpen m q fw r') evs -> q = filepath /\ fw = true.
Proof.
  intros H m q fw r' I; destruct H;
    try (apply in_app_or in I as [I|I]); try not_transport;
    repeat (destruct I as [I|I]; [try discriminate; now inversion I|]);
    destruct I.
Qed.

Lemma in_cors_headers e :
  In e cors_headers -> exists k v, e = EvSendHeader k v.
Proof.
  unfold cors_headers. cbn. intros [<-|[<-|[<-|[]]]]; eauto.
Qed.

(** X19: a capture answer tells what happened on the card.  With no
    frame the handler answers 500 and leaves the card alone.  With a
    frame it answers 200 only if the file it names was opened for writing
    on the card and a write to it came back complete, the name being made
    from a clock reading of this very request; any other answer is a 500
    and then no complete write was made.  On the runs that keep the frame
    until the save (the storage guard passes at once) the bytes written
    are the frame's [len] bytes; on the run that reconnects the card the
    frame has been returned before it is read for the save, so nothing is
    said about what is written there.  Whatever the answer, the only file
    the handler opens is a capture file, for writing. *)
Theorem handleCapture_answer_matches_card
    (hw : Hw) (fuel : nat) (w : World) :
  (2 <= fuel)%nat ->
  exists w' evs,
    handleCapture hw fuel w = Some (tt, w') /\
    steps w w' evs /\
    match hw_fb_get hw (tick w) with
    | None =>
        evs = cors_headers ++
              [EvFbGet None;
               EvSend 500 "application/json"
                 (json_error "Camera capture failed")]
    | Some f =>
        exists kept,
        capture_trace f kept evs /\
        fb_run None evs = (if kept then Some None else None) /\
        (forall ct body, In (EvSend 200 ct body) evs ->
           exists t m h data n,
             body = captureOk (captureName t) /\
             In (EvMillis t) evs /\
             In (EvOpen m ("/" ++ captureName t)%string true (Some h)) evs /\
             In (EvFileWrite data n n) evs /\
             (kept = true ->
              data = firstn (Z.to_nat (len f)) (buf f) /\ n = len f)) /\
        (forall code ct body, In (EvSend code ct body) evs -> code <> 200 ->
           code = 500 /\
           forall d q x, In (EvFileWrite d q x) evs -> x <> q) /\
        (forall m q fw r, In (EvOpen m q fw r) evs ->
           fw = true /\ exists t, q = ("/" ++ captureName t)%string)
    end.
Proof.
  intros Hf. destruct (hw_fb_get hw (tick w)) as [f|] eqn:G.
  2:{ eexists. eexists. split; [now apply handleCapture_no_frame|].
      split; [|reflexivity].
      eapply steps_eq;
        [eapply steps_trans;
         [apply after_cors_steps
         |eapply steps_trans; [apply steps_query|apply steps_log]]
        |reflexivity]. }
  destruct (handleCapture_run hw fuel f w Hf G)
    as (w' & evs & kept & E & S & T).
  exists w', evs. split; [exact E|]. split; [exact S|].
  exists kept. split; [exact T|].
  split; [exact (proj1 (capture_trace_discipline _ _ _ T))|].
  assert (C : forall e, In e cors_headers ->
                        forall P : Prop,
                          (forall k v, e = EvSendHeader k v -> P) -> P).
  { intros e I P K. destruct (in_cors_headers e I) as (k & v & ->). eauto. }
  split; [|split].
  - intros ct body I.
    destruct T as [pre t save saved P Sv|pre1 pre2 P1 P2
                  |pre1 pre2 t save saved P1 P2 Sv];
      repeat (apply in_app_or in I as [I|I];
              [first [not_transport
                     |exfalso; eapply save_trace_no_send; eassumption
                     |exfalso; apply (C _ I); discriminate
                     |repeat (destruct I as [I|I]; [discriminate|]);
                      destruct I]
              |]);
      repeat (destruct I as [I|I]; [try discriminate|]);
      try contradiction.
    + destruct saved; cbn in I; [|discriminate].
      injection I as _ <-.
      destruct (save_trace_saved _ _ _ _ Sv) as (m & h & O & W).
      exists t, m, h, (firstn (Z.to_nat (len f)) (buf f)), (len f).
      split; [reflexivity|].
      rewrite !in_app_iff. cbn. auto 20.
    + destruct saved; cbn in I; [|discriminate].
      injection I as _ <-.
      destruct (save_trace_saved _ _ _ _ Sv) as (m & h & O & W).
      exists t, m, h, (firstn (Z.to_nat (len f)) (buf f)), (len f).
      split; [reflexivity|].
      rewrite !in_app_iff. cbn. auto 20.
  - intros code ct body I N.
    destruct T as [pre t save saved P Sv|pre1 pre2 P1 P2
                  |pre1 pre2 t save saved P1 P2 Sv];
      repeat (apply in_app_or in I as [I|I];
              [first [not_transport
                     |exfalso; eapply save_trace_no_send; eassumption
                     |exfalso; apply (C _ I); discriminate
                     |repeat (destruct I as [I|I]; [discriminate|]);
                      destruct I]
              |]);
      repeat (destruct I as [I|I]; [try discriminate|]);
      try contradiction.
    + destruct saved; cbn in I; injection I as <- _ _; [contradiction|].
      split; [reflexivity|]. intros d q x J.
      repeat (apply in_app_or in J as [J|J];
              [first [not_transport
                     |eapply save_trace_failed; eassumption
                     |exfalso; apply (C _ J); discriminate
                     |repeat (destruct J as [J|J]; [discriminate|]);
                      destruct J]
              |]);
        repeat (destruct J as [J|J]; [discriminate|]); destruct J.
    + injection I as <- _ _. split; [reflexivity|]. intros d q x J.
      repeat (apply in_app_or in J as [J|J];
              [first [not_transport
                     |exfalso; apply (C _ J); discriminate
                     |repeat (destruct J as [J|J]; [discriminate|]);
                      destruct J]
              |]);
        repeat (destruct J as [J|J]; [discriminate|]); destruct J.
    + destruct saved; cbn in I; injection I as <- _ _; [contradiction|].
      split; [reflexivity|]. intros d q x J.
      repeat (apply in_app_or in J as [J|J];
              [first [not_transport
                     |eapply save_trace_failed; eassumption
                     |exfalso; apply (C _ J); discriminate
                     |repeat (destruct J as [J|J]; [discriminate|]);
                      destruct J]
              |]);
        repeat (destruct J as [J|J]; [discriminate|]); destruct J.
  - intros m q fw r I.
    destruct T as [pre t save saved P Sv|pre1 pre2 P1 P2
                  |pre1 pre2 t save saved P1 P2 Sv];
      repeat (apply in_app_or in I as [I|I];
              [first [not_transport
                     |destruct (save_trace_opens _ _ _ _ _ Sv _ _ _ _ I)
                        as [-> ->]; split; [reflexivity|eauto]
                     |exfalso; apply (C _ I); discriminate
                     |repeat (destruct I as [I|I]; [discriminate|]);
                      destruct I]
              |]);
      repeat (destruct I as [I|I];
              [try discriminate; destruct saved; discriminate|]);
      try contradiction.
Qed.

Lemma handleCapture_answer_matches_card_witness :
  (2 <= 2)%nat /\
  exists w' evs kept,
    handleCapture (hw_camera frame3 1) 2 boot = Some (tt, w') /\
    steps boot w' evs /\
    capture_trace frame3 kept evs /\
    forall ct body, In (EvSend 200 ct body) evs ->
      exists t m h data n,
        body = captureOk (captureName t) /\
        In (EvMillis t) evs /\
        In (EvOpen m ("/" ++ captureName t)%string true (Some h)) evs /\
        In (EvFileWrite data n n) evs /\
        (kept = true ->
         data = firstn (Z.to_nat (len frame3)) (buf frame3) /\
         n = len frame3).
Proof.
  split; [lia|].
  destruct (handleCapture_answer_matches_card (hw_camera frame3 1) 2 boot
              (Nat.le_refl 2))
    as (w' & evs & E & S & kept & T & _ & A & _).
  exists w', evs, kept. auto.
Defined.

(** ** An upload that starts while a file is still open *)

Lemma uploadOpenRetry_open (hw : Hw) fuel retries w h :
  uploadFile w = Some h ->
  uploadOpenRetry hw fuel retries w = Some (tt, w).
Proof.
  intros F. destruct retries as [|k]; [reflexivity|].
  cbn [uploadOpenRetry]. unfold bind at 1, get at 1. now rewrite F.
Qed.

(** X20: the start of an upload does not replace a file that is still
    open.  When the handle of an earlier upload was never closed (no
    end or abort phase reached the handler), a start phase opens no file
    at all: it only consults the transport, keeps the old handle and, if
    the card is available, clears the error flag and records the new
    target path.  The write phase that follows therefore finds a handle
    and a clear flag and writes its chunk through the old handle: a
    short write sets the error flag; after a complete one the handler
    reads the clock, and reads it once more and keeps that reading as
    [lastProgress] when more than a second has passed. *)
Theorem upload_start_keeps_open_file
    (hw : Hw) (fuel : nat) (req : Request) (u chunk : HTTPUpload)
    (h0 : Handle) (w : World) :
  (2 <= fuel)%nat ->
  status u = UPLOAD_FILE_START ->
  status chunk = UPLOAD_FILE_WRITE ->
  uploadFile w = Some h0 ->
  exists w' pre,
    handleFileUpload hw fuel req u w = Some (tt, w') /\
    trace w' = trace w ++ cors_headers ++ pre /\
    forallb transport_event pre = true /\
    count_opens pre = 0%nat /\
    uploadFile w' = Some h0 /\
    uploadError w' = negb (sdCardInitialized w') /\
    (uploadError w' = false ->
     uploadPath w' = uploadTarget req u /\
     exists w'',
       handleFileUpload hw fuel req chunk w' = Some (tt, w'') /\
       uploadFile w'' = Some h0 /\
       let written := wrap32 (hw_write hw (tick w') (currentSize chunk)) in
       let write := EvFileWrite (firstn (Z.to_nat (currentSize chunk))
                                        (upload_buf chunk))
                      (currentSize chunk) written in
       let now := wrap32 (hw_millis hw (S (tick w'))) in
       let t := wrap32 (hw_millis hw (S (S (tick w')))) in
       if written =? currentSize chunk then
         uploadError w'' = false /\
         if 1000 <? wrap32 (now - lastProgress w') then
           trace w'' = trace w' ++ [write; EvMillis now; EvMillis t] /\
           lastProgress w'' = t
         else
           trace w'' = trace w' ++ [write; EvMillis now] /\
           lastProgress w'' = lastProgress w'
       else
         uploadError w'' = true /\ trace w'' = trace w' ++ [write]).
Proof.
  intros Hf Hs Hc F. unfold handleFileUpload at 1. rewrite Hs.
  unfold bind at 1. rewrite cors_steps. fold (after_cors w).
  unfold bind at 1, modify at 1.
  set (w0 := with_uploadError false (after_cors w)).
  assert (W : forall w2,
             uploadFile w2 = Some h0 -> uploadError w2 = false ->
             exists w'',
               handleFileUpload hw fuel req chunk w2 = Some (tt, w'') /\
               uploadFile w'' = Some h0 /\
               let written :=
                 wrap32 (hw_write hw (tick w2) (currentSize chunk)) in
               let write := EvFileWrite (firstn (Z.to_nat (currentSize chunk))
                                                (upload_buf chunk))
                              (currentSize chunk) written in
               let now := wrap32 (hw_millis hw (S (tick w2))) in
               let t := wrap32 (hw_millis hw (S (S (tick w2)))) in
               if written =? currentSize chunk then
                 uploadError w'' = false /\
                 if 1000 <? wrap32 (now - lastProgress w2) then
                   trace w'' = trace w2 ++ [write; EvMillis now; EvMillis t] /\
                   lastProgress w'' = t
                 else
                   trace w'' = trace w2 ++ [write; EvMillis now] /\
                   lastProgress w'' = lastProgress w2
               else
                 uploadError w'' = true /\ trace w'' = trace w2 ++ [write]).
  { intros w2 F2 R2.
    rewrite (upload_write_run hw fuel req chunk w2 Hc), F2, R2.
    cbn [file_ok negb andb]. cbv zeta. eexists. split; [reflexivity|].
    cbn [tick query].
    destruct (_ =? currentSize chunk).
    - destruct (1000 <? _); cbn; rewrite ?F2, ?R2;
        repeat (split; [reflexivity|]); now list_norm.
    - cbn. rewrite F2. repeat (split; [reflexivity|]). reflexivity. }
  assert (K : forall w2 pre,
             trace w2 = trace w ++ cors_headers ++ pre ->
             forallb transport_event pre = true ->
             uploadFile w2 = Some h0 -> uploadError w2 = false ->
             sdCardInitialized w2 = true ->
             exists w' pre,
               (modify (with_uploadPath (uploadTarget req u)) ;;
                uploadOpenRetry hw fuel 3) w2 = Some (tt, w') /\
               trace w' = trace w ++ cors_headers ++ pre /\
               forallb transport_event pre = true /\
               count_opens pre = 0%nat /\
               uploadFile w' = Some h0 /\
               uploadError w' = negb (sdCardInitialized w') /\
               (uploadError w' = false ->
                uploadPath w' = uploadTarget req u /\
                exists w'',
                  handleFileUpload hw fuel req chunk w' = Some (tt, w'') /\
                  uploadFile w'' = Some h0 /\
                  let written :=
                    wrap32 (hw_write hw (tick w') (currentSize chunk)) in
                  let write :=
                    EvFileWrite (firstn (Z.to_nat (currentSize chunk))
                                        (upload_buf chunk))
                      (currentSize chunk) written in
                  let now := wrap32 (hw_millis hw (S (tick w'))) in
                  let t := wrap32 (hw_millis hw (S (S (tick w')))) in
                  if written =? currentSize chunk then
                    uploadError w'' = false /\
                    if 1000 <? wrap32 (now - lastProgress w') then
                      trace w'' =
                      trace w' ++ [write; EvMillis now; EvMillis t] /\
                      lastProgress w'' = t
                    else
                      trace w'' = trace w' ++ [write; EvMillis now] /\
                      lastProgress w'' = lastProgress w'
                  else
                    uploadError w'' = true /\
                    trace w'' = trace w' ++ [write])).
  { intros w2 pre S2 T2 F2 R2 I2. unfold bind at 1, modify at 1.
    rewrite (uploadOpenRetry_open hw fuel 3 _ h0) by exact F2.
    eexists. exists pre. split; [reflexivity|].
    split; [exact S2|]. split; [exact T2|].
    split; [now apply count_opens_transport|].
    split; [exact F2|].
    split; [cbn; now rewrite I2, R2|].
    intros _. split; [reflexivity|].
    apply W; [exact F2|exact R2]. }
  unfold bind at 1.
  destruct (sdNotAvailable_run hw fuel w0 Hf)
    as (b & w1 & e1 & E1 & S1 & T1 & I1).
  rewrite E1.
  destruct S1 as (S1 & F1 & P1 & R1). cbn in S1, F1, P1, R1.
  destruct b; cbn [negb] in I1.
  - unfold bind at 1, bind at 1.
    destruct (forceReinitializeSDCard_run hw fuel w1 ltac:(lia))
      as (r2 & w2 & e2 & (E2 & S2 & T2 & I2) & _).
    rewrite E2. destruct S2 as (S2 & F2 & P2 & R2).
    destruct r2; cbn [negb].
    + unfold ret at 1. cbn [negb].
      apply (K w2 (e1 ++ e2)).
      * rewrite S2, S1. now list_norm.
      * rewrite forallb_app, T1, T2. reflexivity.
      * congruence.
      * congruence.
      * exact I2.
    + unfold bind at 1, modify at 1, ret at 1. cbn [negb]. unfold ret.
      eexists. exists (e1 ++ e2). split; [reflexivity|].
      split; [cbn; rewrite S2, S1; now list_norm|].
      assert (T : forallb transport_event (e1 ++ e2) = true)
        by (rewrite forallb_app, T1, T2; reflexivity).
      split; [exact T|]. split; [now apply count_opens_transport|].
      split; [cbn; congruence|]. cbn. rewrite I2.
      split; [reflexivity|discriminate].
  - unfold bind at 1, ret at 1. cbn [negb].
    apply (K w1 e1); [rewrite S1; now list_norm|exact T1|congruence..].
Qed.

Lemma upload_start_keeps_open_file_witness :
  exists w h0,
    deliverPhases (hw_storing 4) 2 (mkRequest (Some "/") None None)
      [mkUpload UPLOAD_FILE_START "a.bin" 0 0 []] boot = Some (tt, w) /\
    uploadFile w = Some h0 /\
    (2 <= 2)%nat /\
    exists w' pre,
      handleFileUpload (hw_storing 4) 2 (mkRequest (Some "/") None None)
        (mkUpload UPLOAD_FILE_START "b.bin" 0 0 []) w = Some (tt, w') /\
      trace w' = trace w ++ cors_headers ++ pre /\
      count_opens pre = 0%nat /\
      uploadFile w' = Some h0.
Proof.
  eexists. eexists. split; [vm_compute; reflexivity|].
  split; [reflexivity|]. split; [lia|].
  match goal with
  | |- context [handleFileUpload _ _ _ _ ?w] =>
      destruct (upload_start_keeps_open_file (hw_storing 4) 2
                  (mkRequest (Some "/") None None)
                  (mkUpload UPLOAD_FILE_START "b.bin" 0 0 [])
                  (mkUpload UPLOAD_FILE_WRITE "b.bin" 4 4
                     [x01; x02; x03; x04])
                  (mkHandle "/a.bin" false 0 []) w
                  (Nat.le_refl 2) eq_refl eq_refl eq_refl)
        as (w' & pre & E & S & _ & C & F & _)
  end.
  exists w', pre. auto.
Defined.

(** ** How the stream ends *)

Lemma count_passes_app e1 e2 :
  count_passes (e1 ++ e2) = (count_passes e1 + count_passes e2)%nat.
Proof. unfold count_passes. now rewrite filter_app, length_app. Qed.

Lemma client_writes_stream evs :
  forallb is_client_write evs = true ->
  forallb stream_event evs = true /\ count_passes evs = 0%nat /\
  ~ In (EvConnected false) evs.
Proof.
  induction evs as [|e evs IH]; [cbn; auto|].
  cbn [forallb]. intros H. apply andb_prop in H as [He H].
  destruct (IH H) as (A & B & C).
  destruct e; try discriminate He.
  cbn. rewrite A. split; [reflexivity|]. split; [exact B|].
  intros [I|I]; [discriminate|auto].
Qed.

Section StreamEndProofs.

Variable hw : Hw.

Lemma streamBody_shape fuel w :
  frames_fit hw fuel ->
  exists ctl w' evs,
    streamBody hw fuel w = Some (ctl, w') /\
    steps w w' evs /\
    forallb stream_event evs = true /\
    count_passes evs = 1%nat /\
    (ctl = Break -> exists pre, evs = pre ++ [EvConnected false]) /\
    (ctl = Continue -> ~ In (EvConnected false) evs).
Proof.
  intros Fit. unfold streamBody. unfold bind at 1, ask at 1.
  destruct (hw_fb_get hw (tick w)) as [f|] eqn:G.
  2:{ run. eexists. eexists. exists [EvFbGet None; EvDelay 1000].
      split; [reflexivity|].
      split; [unfold steps; cbn; list_norm; split; [reflexivity|auto]|].
      split; [reflexivity|]. split; [reflexivity|].
      split; [discriminate|].
      intros _ [I|[I|[]]]; discriminate. }
  destruct (Fit _ _ G) as [F1 F2].
  set (w0 := query (EvFbGet (Some f)) w).
  unfold bind at 1, emit at 1, modify at 1.
  set (w1 := log (EvFbRead (fb_ptr f)) w0).
  assert (S01 : steps w w1 [EvFbGet (Some f); EvFbRead (fb_ptr f)]).
  { unfold steps, w1, w0. cbn. list_norm. auto. }
  assert (K : forall w2 body,
             steps w1 w2 body ->
             forallb stream_event body = true ->
             count_passes body = 0%nat ->
             ~ In (EvConnected false) body ->
             exists ctl w' evs,
               (emit (EvFbReturn (fb_ptr f)) ;;
                connected <- ask (hw_connected hw) EvConnected ;;
                if negb connected then ret Break
                else delay 50 ;; ret Continue) w2 = Some (ctl, w') /\
               steps w w' evs /\
               forallb stream_event evs = true /\
               count_passes evs = 1%nat /\
               (ctl = Break -> exists pre, evs = pre ++ [EvConnected false]) /\
               (ctl = Continue -> ~ In (EvConnected false) evs)).
  { intros w2 body S12 B P N. run.
    destruct (hw_connected hw (tick w2)); cbn.
    - eexists. eexists.
      exists ([EvFbGet (Some f); EvFbRead (fb_ptr f)] ++ body ++
              [EvFbReturn (fb_ptr f); EvConnected true; EvDelay 50]).
      split; [reflexivity|]. split.
      { eapply steps_eq.
        { eapply steps_trans; [exact S01|]. eapply steps_trans; [exact S12|].
          unfold steps. cbn. list_norm. split; [reflexivity|auto]. }
        now list_norm. }
      split; [rewrite !forallb_app, B; reflexivity|].
      split; [rewrite !count_passes_app, P; reflexivity|].
      split; [discriminate|].
      intros _ I. apply in_app_or in I as [[I|[I|[]]]|I]; try discriminate.
      apply in_app_or in I as [I|[I|[I|[I|[]]]]]; try discriminate.
      contradiction.
    - eexists. eexists.
      exists ([EvFbGet (Some f); EvFbRead (fb_ptr f)] ++ body ++
              [EvFbReturn (fb_ptr f); EvConnected false]).
      split; [reflexivity|]. split.
      { eapply steps_eq.
        { eapply steps_trans; [exact S01|]. eapply steps_trans; [exact S12|].
          unfold steps. cbn. list_norm. split; [reflexivity|auto]. }
        now list_norm. }
      split; [rewrite !forallb_app, B; reflexivity|].
      split; [rewrite !count_passes_app, P; reflexivity|].
      split; [|discriminate].
      intros _.
      exists ([EvFbGet (Some f); EvFbRead (fb_ptr f)] ++ body ++
              [EvFbReturn (fb_ptr f)]).
      now list_norm. }
  unfold bind at 1.
  destruct (Z.ltb_spec 0 (len f)) as [Hpos|Hnon].
  - unfold bind at 1, emit at 1, modify at 1.
    unfold bind at 1, emit at 1, modify at 1.
    unfold bind at 1.
    match goal with
    | |- context [sendChunks fuel (buf f) 0 (len f) ?w2] =>
        destruct (sendChunks_spec (len f) F1 fuel (buf f) 0 w2)
          as (w3 & ce & E & S & C & P); try lia; [reflexivity|];
        assert (S12 : steps w1 w2 [EvClientPrint ("--frame" ++ cr_lf)%string;
                       EvClientPrint ("Content-Type: image/jpeg" ++ cr_lf
                         ++ "Content-Length: " ++ String_of_Z (len f)
                         ++ cr_lf ++ cr_lf)%string])
          by (unfold steps; cbn; list_norm; split; [reflexivity|auto])
    end.
    rewrite E. unfold emit at 1, modify at 1.
    destruct (client_writes_stream _ C) as (A1 & A2 & A3).
    eapply K.
    + eapply steps_trans; [exact S12|].
      eapply steps_trans; [exact S|apply steps_log].
    + cbn. rewrite forallb_app, A1. reflexivity.
    + rewrite !count_passes_app, A2. reflexivity.
    + intros I. apply in_app_or in I as [[I|[I|[]]]|I]; try discriminate.
      apply in_app_or in I as [I|[I|[]]]; [contradiction|discriminate].
  - unfold ret at 1. eapply K.
    + apply steps_refl.
    + reflexivity.
    + reflexivity.
    + intros [].
Qed.

Lemma streamLoop_shape iterations fuel :
  frames_fit hw fuel ->
  forall w, exists fin w' evs,
    streamLoop hw iterations fuel w = Some (fin, w') /\
    steps w w' evs /\
    forallb stream_event evs = true /\
    (count_passes evs <= iterations)%nat /\
    (fin = true -> exists pre, evs = pre ++ [EvConnected false]) /\
    (fin = false ->
     count_passes evs = iterations /\ ~ In (EvConnected false) evs).
Proof.
  intros Fit. induction iterations as [|k IH]; intros w.
  - exists false, w, []. split; [reflexivity|]. split; [apply steps_refl|].
    split; [reflexivity|]. split; [reflexivity|].
    split; [discriminate|]. intros _. split; [reflexivity|intros []].
  - cbn [streamLoop]. unfold bind at 1, ask at 1.
    destruct (hw_connected hw (tick w)) eqn:Hc; cbn [negb].
    2:{ eexists. eexists. exists [EvConnected false].
        split; [reflexivity|]. split; [apply steps_query|].
        split; [reflexivity|]. split; [cbn; lia|].
        split; [intros _; now exists []|discriminate]. }
    unfold bind at 1.
    destruct (streamBody_shape fuel (query (EvConnected true) w) Fit)
      as (ctl & w1 & e1 & E1 & S1 & B1 & P1 & X1 & N1).
    rewrite E1. destruct ctl.
    + destruct (IH w1) as (fin & w2 & e2 & E2 & S2 & B2 & P2 & X2 & N2).
      exists fin, w2, ([EvConnected true] ++ e1 ++ e2).
      split; [exact E2|].
      split; [eapply steps_trans; [apply steps_query|];
              eapply steps_trans; eauto|].
      split; [rewrite !forallb_app, B1, B2; reflexivity|].
      split; [rewrite !count_passes_app, P1; cbn; lia|].
      split.
      * intros F. destruct (X2 F) as (pre & ->).
        exists ([EvConnected true] ++ e1 ++ pre). now list_norm.
      * intros F. destruct (N2 F) as (C2 & I2).
        split; [rewrite !count_passes_app, P1, C2; reflexivity|].
        intros I. apply in_app_or in I as [[I|[]]|I]; [discriminate|].
        apply in_app_or in I as [I|I]; [now apply N1|contradiction].
    + exists true, w1, ([EvConnected true] ++ e1).
      split; [reflexivity|].
      split; [eapply steps_trans; [apply steps_query|exact S1]|].
      split; [rewrite forallb_app, B1; reflexivity|].
      split; [rewrite count_passes_app, P1; cbn; lia|].
      split; [|discriminate].
      intros _. destruct (X1 eq_refl) as (pre & ->).
      exists ([EvConnected true] ++ pre). now list_norm.
Qed.

End StreamEndProofs.

(** X21: the stream keeps to the camera and the client, and ends only
    when the client is gone.  Cut off after any number of passes, the
    stream handler has dealt with the frame pool, the streaming client
    and the clock only: it never consults or changes the card, never
    answers through the server object, and leaves the upload session as
    it is.  Each pass asks the camera once.  The loop is left only on a
    poll of [client.connected()] that says no, which is then the last
    thing that happened; as long as every poll says yes the handler does
    not return. *)
Theorem stream_ends_only_on_disconnect
    (hw : Hw) (iterations fuel : nat) (w : World) :
  frames_fit hw fuel ->
  exists fin w' evs,
    handleCameraStream hw iterations fuel w = Some (fin, w') /\
    steps w w' evs /\
    forallb stream_event evs = true /\
    (count_passes evs <= iterations)%nat /\
    (fin = true -> exists pre, evs = pre ++ [EvConnected false]) /\
    (fin = false ->
     count_passes evs = iterations /\ ~ In (EvConnected false) evs).
Proof.
  intros Fit. unfold handleCameraStream.
  unfold bind at 1, emit at 1, modify at 1.
  match goal with
  | |- context [streamLoop hw iterations fuel ?w0] =>
      destruct (streamLoop_shape hw iterations fuel Fit w0)
        as (fin & w' & evs & E & S & B & P & X & N)
  end.
  exists fin, w'. eexists (_ :: evs).
  split; [exact E|].
  split; [eapply (steps_trans _ _ _ [_]); [apply steps_log|exact S]|].
  split; [cbn; exact B|]. split; [exact P|]. split.
  - intros F. destruct (X F) as (pre & ->). eexists (_ :: pre).
    reflexivity.
  - intros F. destruct (N F) as (C & I). split; [exact C|].
    intros [J|J]; [discriminate|auto].
Qed.

Lemma stream_ends_only_on_disconnect_witness :
  frames_fit (hw_camera frame3 3) 2 /\
  exists fin w' evs,
    handleCameraStream (hw_camera frame3 3) 5 2 boot = Some (fin, w') /\
    steps boot w' evs /\
    forallb stream_event evs = true /\
    (count_passes evs <= 5)%nat /\
    (fin = true -> exists pre, evs = pre ++ [EvConnected false]) /\
    (fin = false ->
     count_passes evs = 5%nat /\ ~ In (EvConnected false) evs).
Proof.
  assert (F : frames_fit (hw_camera frame3 3) 2).
  { apply hw_camera_fit; cbn; lia. }
  split; [exact F|].
  apply (stream_ends_only_on_disconnect (hw_camera frame3 3) 5 2 boot F).
Defined.

(** ** What a listing answer means *)





(** * Handles the transport opens *)

Section TransportHandles.

Variable hw : Hw.

Lemma open_handles_app n e1 e2 :
  open_handles n (e1 ++ e2) =
  match open_handles n e1 with
  | Some n' => open_handles n' e2
  | None => None
  end.
Proof.
  revert n. induction e1 as [|e e1 IH]; intros n; [reflexivity|].
  destruct e; simpl; try apply IH;
    try (destruct r; apply IH).
  destruct n; [reflexivity|apply IH].
Qed.

Lemma attempt_trace_handles m o evs n :
  attempt_trace m o evs -> open_handles n evs = Some n.
Proof.
  intros H; destruct H;
    try match goal with m : Mode |- _ => destruct m end; reflexivity.
Qed.

Lemma attempts_handles m k o evs n :
  attempts m k o evs -> open_handles n evs = Some n.
Proof.
  induction 1 as [|k t evs H|k o evs rest H _ IH].
  - reflexivity.
  - now apply attempt_trace_handles with (m := m) (o := Some t).
  - rewrite open_handles_app, (attempt_trace_handles _ _ _ n H).
    rewrite open_handles_app. unfold backoff.
    destruct (0 <? k)%nat; exact IH.
Qed.

Lemma init_trace_handles o evs n :
  init_trace o evs -> open_handles n evs = Some n.
Proof.
  intros H; destruct H as [t e A|t e1 e2 A1 A2|e1 e2 A1 A2].
  - exact (attempts_handles _ _ _ _ n A).
  - rewrite open_handles_app, (attempts_handles _ _ _ _ n A1).
    exact (attempts_handles _ _ _ _ n A2).
  - rewrite open_handles_app, (attempts_handles _ _ _ _ n A1).
    exact (attempts_handles _ _ _ _ n A2).
Qed.

Lemma mountBothModes_handles w :
  exists r w' evs,
    mountBothModes hw w = Some (r, w') /\
    steps w w' evs /\
    forall n, open_handles n evs = Some n.
Proof.
  destruct (mountBothModes_spec hw w) as (o & w' & evs & E & S & T & P).
  exists (is_some o), w', evs. split; [exact E|]. split; [exact S|].
  intros n. now apply init_trace_handles with (o := o).
Qed.

Lemma forceReinitializeSDCard_handles fuel w :
  (1 <= fuel)%nat ->
  exists r w' evs,
    forceReinitializeSDCard hw fuel w = Some (r, w') /\
    steps w w' evs /\
    forall n, open_handles n evs = Some n.
Proof.
  intros Hf. destruct fuel as [|fuel]; [lia|].
  destruct (forceReinitializeSDCard_spec hw fuel w)
    as (o & w' & evs & E & S & T & P).
  exists (is_some o), w', ([EvEnd (activeMode w); EvDelay 500] ++ evs).
  split; [exact E|]. split; [exact S|].
  intros n. rewrite open_handles_app. cbn [open_handles].
  now apply init_trace_handles with (o := o).
Qed.

Lemma probed_handles w :
  exists evs,
    steps w (probed hw w) evs /\
    forall n, open_handles n evs = Some n.
Proof.
  unfold probed.
  destruct (hw_open hw (activeMode w) "/" false (S (S (tick w))));
    cbn [file_ok]; eexists;
    (split; [unfold steps; cbn; list_norm; split; [reflexivity|auto]|]);
    reflexivity.
Qed.

Lemma checkSDCardStatus_handles fuel w :
  (1 <= fuel)%nat ->
  exists r w' evs,
    checkSDCardStatus hw fuel w = Some (r, w') /\
    steps w w' evs /\
    forall n, open_handles n evs = Some n.
Proof.
  intros Hf. destruct (sdCardInitialized w) eqn:Hi.
  2:{ exists false, w, []. split; [now apply checkSDCardStatus_uninitialized|].
      split; [apply steps_refl|reflexivity]. }
  destruct (Z.le_gt_cases (elapsed hw w) SD_CHECK_INTERVAL) as [L|L].
  { eexists. eexists. eexists.
    split; [now apply checkSDCardStatus_throttled|].
    split; [apply steps_query|reflexivity]. }
  rewrite (checkSDCardStatus_probing hw fuel w Hi L).
  destruct (probed_handles w) as (e0 & S0 & R0).
  destruct (isDirectory (probe_result hw w)).
  - exists true, (probed hw w), e0. auto.
  - destruct (forceReinitializeSDCard_handles fuel (probed hw w) Hf)
      as (r & w' & e1 & E1 & S1 & R1).
    exists r, w', (e0 ++ e1). split; [exact E1|].
    split; [eapply steps_trans; eauto|].
    intros n. now rewrite open_handles_app, R0.
Qed.

Lemma initializeSDCard_handles fuel w :
  (2 <= fuel)%nat ->
  exists r w' evs,
    initializeSDCard hw fuel w = Some (r, w') /\
    steps w w' evs /\
    forall n, open_handles n evs = Some n.
Proof.
  intros Hf. destruct fuel as [|fuel]; [lia|].
  rewrite initializeSDCard_unfold.
  destruct (sdCardInitialized w) eqn:Hi.
  2:{ apply mountBothModes_handles. }
  destruct (checkSDCardStatus_handles fuel w ltac:(lia))
    as (r0 & w0 & e0 & E0 & S0 & R0).
  rewrite E0. destruct r0.
  - exists true, w0, e0. auto.
  - destruct (mountBothModes_handles w0) as (r & w' & e1 & E1 & S1 & R1).
    exists r, w', (e0 ++ e1). split; [exact E1|].
    split; [eapply steps_trans; eauto|].
    intros n. now rewrite open_handles_app, R0.
Qed.

End TransportHandles.

(** X23: the transport closes every file it opens.  Whatever the card
    answers, the mount test's root directory and the health probe's test
    file are closed again before the function returns, and no handle of
    anyone else is closed: replayed against the card's table of open
    files, the trace of each transport function, and of
    [isSDCardAvailable], leaves the number of open handles as it found
    it. *)
Theorem transport_closes_what_it_opens
    (hw : Hw) (fuel : nat) (w : World) :
  (2 <= fuel)%nat ->
  forall c,
    c = initializeSDCard hw fuel \/ c = checkSDCardStatus hw fuel \/
    c = forceReinitializeSDCard hw fuel \/ c = isSDCardAvailable hw fuel ->
    exists r w' evs,
      c w = Some (r, w') /\
      steps w w' evs /\
      forall n, open_handles n evs = Some n.
Proof.
  intros Hf c [-> | [-> | [-> | ->]]].
  - now apply initializeSDCard_handles.
  - apply checkSDCardStatus_handles. lia.
  - apply forceReinitializeSDCard_handles. lia.
  - unfold isSDCardAvailable. now apply initializeSDCard_handles.
Qed.

Lemma transport_closes_what_it_opens_witness :
  (2 <= 2)%nat /\
  exists r w' evs,
    isSDCardAvailable (hw_healthy 9000) 2 mounted_world = Some (r, w') /\
    steps mounted_world w' evs /\
    forall n, open_handles n evs = Some n.
Proof.
  split; [lia|].
  apply (transport_closes_what_it_opens (hw_healthy 9000) 2 mounted_world);
    [lia|]. right. right. right. reflexivity.
Defined.
